(** * Bridge runtime: adapter statistics, connection pool, gRPC adapter and
    service discovery registry.

    A shallow embedding of the Go sources
      - adapter.go                     (BaseAdapter, recordLatency),
      - internal/bridge/adapters/grpc_adapter.go
                                       (ConnectionPool, GRPCAdapter, mapGRPCError,
                                        the unary interceptors),
      - discovery_service.go           (DiscoveryService and ServiceFilter),
    followed by the properties proved about them.

    Conventions.  Go [int], [int64] and [time.Duration] values are [Z]; where a
    computation can leave the 64-bit range its wrap-around is written out.
    Go maps are [gmap]s.  Mutex acquisition is not modelled: every method runs
    to completion on the state it is given (the sequential behaviour the locks
    protect).  Logger calls have no effect on the modelled state and are left
    out.  Calls that leave the process (dialling, invoking a remote method,
    reading the clock, loading key material) are oracles passed as arguments. *)

From Stdlib Require Import ZArith String List Bool Lia.
From stdpp Require Import base gmap sets list strings pretty fin_maps.
Import ListNotations.

Local Open Scope string_scope.
Local Open Scope list_scope.
Local Open Scope Z_scope.

(* ===================================================================== *)
(** * Part I.  The programs                                               *)
(* ===================================================================== *)

(** ** Go values shared by the packages *)

Module Go.

(** Two's-complement wrap-around of a 64-bit signed integer. *)
Definition wrap64 (z : Z) : Z := (z + 2 ^ 63) mod 2 ^ 64 - 2 ^ 63.

Definition add64 (x y : Z) : Z := wrap64 (x + y).
Definition mul64 (x y : Z) : Z := wrap64 (x * y).
(** Go's [/] on signed integers truncates toward zero. *)
Definition div64 (x y : Z) : Z := wrap64 (Z.quot x y).

(** [google.golang.org/grpc/codes]: the numeric status codes. *)
Module codes.
Definition OK : Z := 0.
Definition Canceled : Z := 1.
Definition Unknown : Z := 2.
Definition InvalidArgument : Z := 3.
Definition DeadlineExceeded : Z := 4.
Definition NotFound : Z := 5.
Definition AlreadyExists : Z := 6.
Definition PermissionDenied : Z := 7.
Definition ResourceExhausted : Z := 8.
Definition FailedPrecondition : Z := 9.
Definition Aborted : Z := 10.
Definition OutOfRange : Z := 11.
Definition Unimplemented : Z := 12.
Definition Internal : Z := 13.
Definition Unavailable : Z := 14.
Definition DataLoss : Z := 15.
Definition Unauthenticated : Z := 16.

(** [Code.String()] *)
Definition String (c : Z) : string :=
  if c =? OK then "OK"
  else if c =? Canceled then "Canceled"
  else if c =? Unknown then "Unknown"
  else if c =? InvalidArgument then "InvalidArgument"
  else if c =? DeadlineExceeded then "DeadlineExceeded"
  else if c =? NotFound then "NotFound"
  else if c =? AlreadyExists then "AlreadyExists"
  else if c =? PermissionDenied then "PermissionDenied"
  else if c =? ResourceExhausted then "ResourceExhausted"
  else if c =? FailedPrecondition then "FailedPrecondition"
  else if c =? Aborted then "Aborted"
  else if c =? OutOfRange then "OutOfRange"
  else if c =? Unimplemented then "Unimplemented"
  else if c =? Internal then "Internal"
  else if c =? Unavailable then "Unavailable"
  else if c =? DataLoss then "DataLoss"
  else if c =? Unauthenticated then "Unauthenticated"
  else "Code(" +:+ pretty c +:+ ")".
End codes.

(** [errdetails]: the detail messages a status can carry.  [OtherDetail]
    stands for any other message, kept as its [%v] rendering. *)
Inductive Detail : Type :=
| BadRequest (fieldViolations : list (string * string))
| RequestInfo (requestId servingData : string)
| ErrorInfo (reason domain : string) (metadata : list (string * string))
| PreconditionFailure (violations : list (string * string * string))
| QuotaFailure (violations : list (string * string))
| OtherDetail (rendering : string).

(** [*status.Status] *)
Record Status : Type := mkStatus {
  st_code : Z;
  st_message : string;
  st_details : list Detail
}.

(** Values stored under [interface{}] in the maps the adapter builds. *)
Inductive value : Type :=
| VInt (z : Z)
| VStr (s : string)
| VStrMap (m : list (string * string))
| VStrMaps (l : list (list (string * string)))
| VMaps (l : list (list (string * value))).

(** [BridgeError] (grpc_adapter.go) *)
Record BridgeError : Type := mkBridgeError {
  Code : string;
  Message : string;
  Details : list (string * value)
}.

(** The dynamic type behind an [error] interface value. *)
Inductive error : Type :=
| ErrorsNew (msg : string)                  (* errors.New(msg) *)
| Wrap (inner : error) (msg : string)       (* fmt.Errorf with a %w verb *)
| StatusErr (st : Status)                   (* an error carrying a gRPC status *)
| BridgeErr (b : BridgeError).              (* *BridgeError *)

(** [err.Error()] *)
Definition Error (e : error) : string :=
  match e with
  | ErrorsNew msg => msg
  | Wrap _ msg => msg
  | StatusErr st =>
      "rpc error: code = " +:+ codes.String (st_code st) +:+ " desc = " +:+ st_message st
  | BridgeErr b => Code b +:+ ": " +:+ Message b
  end.

(** What a call yields: a value, an error, or a panic unwinding the stack. *)
Inductive result (A : Type) : Type :=
| Ok (a : A)
| Err (e : error)
| Panic (r : string).
Arguments Ok {A} a.
Arguments Err {A} e.
Arguments Panic {A} r.

(** Slice indexing [s[i]]: out of range panics at run time. *)
Definition index {A} (s : list A) (i : Z) : option A :=
  if (0 <=? i) && (i <? Z.of_nat (length s)) then s !! Z.to_nat i else None.

End Go.

(** ** adapter.go: the base adapter and its statistics *)

Module Adapter.
Import Go.

Inductive AdapterStatus : Type :=
| StatusInitializing
| StatusConnected
| StatusConnecting
| StatusDisconnected
| StatusError
| StatusStopped.

(** [AdapterStats]; times are nanosecond readings, [AverageLatency] is a
    [time.Duration] (int64 nanoseconds).  The floating-point field
    [CurrentRateLimitUse] plays no part below and is left out. *)
Record AdapterStats : Type := mkStats {
  ConnectedSince : Z;
  LastActivity : Z;
  MessagesReceived : Z;
  MessagesSent : Z;
  Errors : Z;
  Reconnects : Z;
  AverageLatency : Z;
  CurrentConnections : Z;
  MaxConnections : Z;
  RateLimitExceeded : Z
}.

Record BaseAdapter : Type := mkBaseAdapter {
  name : string;
  adapterType : string;
  status : AdapterStatus;
  stats : AdapterStats;
  lastError : option error
}.

Definition set_AverageLatency (s : AdapterStats) (d : Z) : AdapterStats :=
  mkStats (ConnectedSince s) (LastActivity s) (MessagesReceived s)
          (MessagesSent s) (Errors s) (Reconnects s) d
          (CurrentConnections s) (MaxConnections s) (RateLimitExceeded s).

Definition set_stats (a : BaseAdapter) (s : AdapterStats) : BaseAdapter :=
  mkBaseAdapter (name a) (adapterType a) (status a) s (lastError a).

(** [NewBaseAdapter] *)
Definition NewBaseAdapter (name adapterType : string) : BaseAdapter :=
  mkBaseAdapter name adapterType StatusInitializing
                (mkStats 0 0 0 0 0 0 0 0 1 0) None.

(** [recordLatency] *)
Definition recordLatency (a : BaseAdapter) (duration : Z) : BaseAdapter :=
  if AverageLatency (stats a) =? 0 then
    set_stats a (set_AverageLatency (stats a) duration)
  else
    set_stats a (set_AverageLatency (stats a)
      (div64 (add64 (mul64 (AverageLatency (stats a)) 9) duration) 10)).

(** What [recordLatency] stores, given the average stored before. *)
Definition blend (prev d : Z) : Z :=
  if prev =? 0 then d else div64 (add64 (mul64 prev 9) d) 10.

(** The samples of a run recorded one after the other. *)
Definition recordAll (a : BaseAdapter) (samples : list Z) : BaseAdapter :=
  foldl recordLatency a samples.

(** The averages stored after each sample of a run, in order. *)
Fixpoint averages (a : BaseAdapter) (samples : list Z) : list Z :=
  match samples with
  | [] => []
  | d :: rest =>
      let a' := recordLatency a d in
      AverageLatency (stats a') :: averages a' rest
  end.

(** The averaging rule as the specification words it: only the very first
    sample of a run is taken over unchanged, every later one is blended 9:1. *)
Fixpoint claimed_averages_from (avg : Z) (samples : list Z) : list Z :=
  match samples with
  | [] => []
  | d :: rest =>
      let avg' := div64 (add64 (mul64 avg 9) d) 10 in
      avg' :: claimed_averages_from avg' rest
  end.

Definition claimed_averages (samples : list Z) : list Z :=
  match samples with
  | [] => []
  | d :: rest => d :: claimed_averages_from d rest
  end.

(** *** The rest of the base adapter

    [time.Now()] is the argument [now] of the calls that read the clock; the
    zero [time.Time] is 0. *)

(** [updateStatus] *)
Definition updateStatus (a : BaseAdapter) (status : AdapterStatus) : BaseAdapter :=
  mkBaseAdapter (name a) (adapterType a) status (stats a) (lastError a).

(** [setError] *)
Definition setError (a : BaseAdapter) (err : error) : BaseAdapter :=
  let a1 := mkBaseAdapter (name a) (adapterType a) (status a) (stats a) (Some err) in
  let a2 := updateStatus a1 StatusError in
  set_stats a2
    (mkStats (ConnectedSince (stats a2)) (LastActivity (stats a2))
             (MessagesReceived (stats a2)) (MessagesSent (stats a2))
             (add64 (Errors (stats a2)) 1) (Reconnects (stats a2))
             (AverageLatency (stats a2)) (CurrentConnections (stats a2))
             (MaxConnections (stats a2)) (RateLimitExceeded (stats a2))).

(** [incrementMessagesSent] *)
Definition incrementMessagesSent (a : BaseAdapter) (now : Z) : BaseAdapter :=
  set_stats a
    (mkStats (ConnectedSince (stats a)) now
             (MessagesReceived (stats a)) (add64 (MessagesSent (stats a)) 1)
             (Errors (stats a)) (Reconnects (stats a))
             (AverageLatency (stats a)) (CurrentConnections (stats a))
             (MaxConnections (stats a)) (RateLimitExceeded (stats a))).

(** [incrementMessagesReceived] *)
Definition incrementMessagesReceived (a : BaseAdapter) (now : Z) : BaseAdapter :=
  set_stats a
    (mkStats (ConnectedSince (stats a)) now
             (add64 (MessagesReceived (stats a)) 1) (MessagesSent (stats a))
             (Errors (stats a)) (Reconnects (stats a))
             (AverageLatency (stats a)) (CurrentConnections (stats a))
             (MaxConnections (stats a)) (RateLimitExceeded (stats a))).

(** [resetStats] *)
Definition resetStats (a : BaseAdapter) : BaseAdapter :=
  set_stats a (mkStats 0 0 0 0 0 0 0 0 (MaxConnections (stats a)) 0).

(** [BaseAdapter.Initialize] *)
Definition Initialize (a : BaseAdapter) : BaseAdapter :=
  updateStatus a StatusInitializing.

(** [BaseAdapter.Connect] *)
Definition Connect (a : BaseAdapter) (now : Z) : BaseAdapter :=
  let a1 := updateStatus a StatusConnecting in
  let a2 := updateStatus a1 StatusConnected in
  set_stats a2
    (mkStats now (LastActivity (stats a2))
             (MessagesReceived (stats a2)) (MessagesSent (stats a2))
             (Errors (stats a2)) (Reconnects (stats a2))
             (AverageLatency (stats a2)) (CurrentConnections (stats a2))
             (MaxConnections (stats a2)) (RateLimitExceeded (stats a2))).

(** [BaseAdapter.Disconnect] *)
Definition Disconnect (a : BaseAdapter) : BaseAdapter :=
  updateStatus a StatusDisconnected.

(** [BaseAdapter.Shutdown] *)
Definition Shutdown (a : BaseAdapter) : BaseAdapter :=
  updateStatus a StatusStopped.

(** [BaseAdapter.Send]; the error it returns is always [nil]. *)
Definition Send (a : BaseAdapter) (now : Z) : BaseAdapter :=
  incrementMessagesSent a now.

(** [BaseAdapter.Receive]; it returns [nil, nil]. *)
Definition Receive (a : BaseAdapter) (now : Z) : BaseAdapter :=
  incrementMessagesReceived a now.

(** One call on the adapter, and a sequence of calls run in order. *)
Inductive call : Type :=
| CallInitialize
| CallConnect (now : Z)
| CallDisconnect
| CallShutdown
| CallSend (now : Z)
| CallReceive (now : Z)
| CallSetError (err : error)
| CallRecordLatency (duration : Z)
| CallResetStats.

Definition step (a : BaseAdapter) (c : call) : BaseAdapter :=
  match c with
  | CallInitialize => Initialize a
  | CallConnect now => Connect a now
  | CallDisconnect => Disconnect a
  | CallShutdown => Shutdown a
  | CallSend now => Send a now
  | CallReceive now => Receive a now
  | CallSetError err => setError a err
  | CallRecordLatency d => recordLatency a d
  | CallResetStats => resetStats a
  end.

Definition run (a : BaseAdapter) (calls : list call) : BaseAdapter :=
  foldl step a calls.

Definition is_send (c : call) : bool :=
  match c with CallSend _ => true | _ => false end.

Definition is_receive (c : call) : bool :=
  match c with CallReceive _ => true | _ => false end.

Definition is_setError (c : call) : bool :=
  match c with CallSetError _ => true | _ => false end.

Definition is_resetStats (c : call) : bool :=
  match c with CallResetStats => true | _ => false end.

(** How many calls of one kind a sequence holds after its last
    [resetStats]. *)
Definition since_reset (kind : call → bool) (calls : list call) : nat :=
  foldl (fun n c => if is_resetStats c then 0%nat else if kind c then S n else n)
        0%nat calls.

End Adapter.

(** ** grpc_adapter.go: the connection pool *)

Module Pool.
Import Go.

(** A [*grpc.ClientConn] is known by its handle: the number of the dial that
    produced it. *)
Abbreviation ClientConn := nat (only parsing).

(** The transport as the pool sees it: how many dials have been attempted and
    which handles are open (dialled and not yet closed). *)
Record Net : Type := mkNet {
  dials : nat;
  live : gset nat
}.

(** [ConnectionPool].  The opaque [dialOptions] are left out. *)
Record ConnectionPool : Type := mkPool {
  target : string;
  connections : list ClientConn;
  currentIndex : Z;
  size : Z;
  healthChecks : bool
}.

Definition set_connections (p : ConnectionPool) (cs : list ClientConn) : ConnectionPool :=
  mkPool (target p) cs (currentIndex p) (size p) (healthChecks p).

Definition set_currentIndex (p : ConnectionPool) (i : Z) : ConnectionPool :=
  mkPool (target p) (connections p) i (size p) (healthChecks p).

Section Dialling.

(** [dial k tgt] is the outcome of the [k]-th dial ever attempted, made to
    [tgt]: [None] when the connection is established, [Some err] otherwise. *)
Variable dial : nat -> string -> option error.

(** [grpc.DialContext] under its ten-second timeout. *)
Definition DialContext (net : Net) (tgt : string) : (error + ClientConn) * Net :=
  match dial (dials net) tgt with
  | Some err => (inl err, mkNet (S (dials net)) (live net))
  | None => (inr (dials net), mkNet (S (dials net)) ({[ dials net ]} ∪ live net))
  end.

(** [conn.Close()] *)
Definition CloseConn (net : Net) (c : ClientConn) : Net :=
  mkNet (dials net) (live net ∖ {[ c ]}).

(** The [for _, c := range conns { c.Close() }] loops. *)
Definition CloseAll (net : Net) (cs : list ClientConn) : Net :=
  foldl CloseConn net cs.

(** The body of [Initialize]'s loop, run for the [n] iterations left. *)
Fixpoint Initialize_loop (n : nat) (p : ConnectionPool) (net : Net)
  : option error * ConnectionPool * Net :=
  match n with
  | O => (None, p, net)
  | S n' =>
      match DialContext net (target p) with
      | (inl err, net1) =>
          (Some err, set_connections p [], CloseAll net1 (connections p))
      | (inr conn, net1) =>
          Initialize_loop n' (set_connections p (connections p ++ [conn])) net1
      end
  end.

(** [ConnectionPool.Initialize]: [for i := 0; i < p.size; i++]. *)
Definition Initialize (p : ConnectionPool) (net : Net)
  : option error * ConnectionPool * Net :=
  Initialize_loop (Z.to_nat (size p)) p net.

End Dialling.

(** [ConnectionPool.Get].  The cursor has just indexed the slice, so it is
    below the largest [int] and [currentIndex + 1] cannot wrap; Go's [%]
    truncates like [Z.rem]. *)
Definition Get (p : ConnectionPool) : result ClientConn * ConnectionPool :=
  if Z.of_nat (length (connections p)) =? 0 then
    (Err (ErrorsNew "no connections available in pool"), p)
  else
    match index (connections p) (currentIndex p) with
    | None => (Panic "index out of range", p)
    | Some conn =>
        (Ok conn,
         set_currentIndex p
           (Z.rem (currentIndex p + 1) (Z.of_nat (length (connections p)))))
    end.

(** [n] successive calls of [Get], with what each returned. *)
Fixpoint GetN (n : nat) (p : ConnectionPool) : list (result ClientConn) * ConnectionPool :=
  match n with
  | O => ([], p)
  | S n' =>
      let '(r, p1) := Get p in
      let '(rs, p2) := GetN n' p1 in
      (r :: rs, p2)
  end.

(** [ConnectionPool.Close] *)
Definition Close (p : ConnectionPool) (net : Net) : ConnectionPool * Net :=
  (set_connections p [], CloseAll net (connections p)).

(** Handles are never reused: every open handle was produced by an earlier
    dial. *)
Definition Net_wf (net : Net) : Prop :=
  ∀ c, c ∈ live net → (c < dials net)%nat.

(** The pool's cursor points into its slice. *)
Definition cursor_ok (p : ConnectionPool) : Prop :=
  0 ≤ currentIndex p < Z.of_nat (length (connections p)).

End Pool.

(** ** grpc_adapter.go: the adapter, its calls and its interceptors *)

Module GRPC.
Import Go Pool.

(** The sentinel errors of the package. *)
Definition ErrConnectionFailed : error := ErrorsNew "failed to establish gRPC connection".
Definition ErrServiceUnavailable : error := ErrorsNew "gRPC service is unavailable".
Definition ErrDeadlineExceeded : error := ErrorsNew "gRPC request deadline exceeded".
Definition ErrInvalidArgument : error := ErrorsNew "invalid argument for gRPC request".
Definition ErrPermissionDenied : error := ErrorsNew "permission denied for gRPC request".
Definition ErrUnauthenticated : error := ErrorsNew "unauthenticated gRPC request".
Definition ErrCanceled : error := ErrorsNew "gRPC request was canceled".

(** The fields of [GRPCAdapterConfig] read by the code below; durations in
    nanoseconds. *)
Record GRPCAdapterConfig : Type := mkConfig {
  ServerAddress : string;
  Timeout : Z;
  PoolSize : Z;
  ClientTimeout : Z;
  EnableTLS : bool;
  TLSCertFile : string;
  TLSKeyFile : string;
  TLSCAFile : string;
  EnableHealthCheck : bool
}.

(** [DefaultGRPCAdapterConfig] *)
Definition DefaultGRPCAdapterConfig : GRPCAdapterConfig :=
  mkConfig "localhost:50051" (30 * 1000000000) 10 (30 * 1000000000)
           false "" "" "" true.

Abbreviation Labels := (list (string * string)) (only parsing).

(** Modelled from the spec: the metrics collector ([metrics.Collector], in
    [internal/core/metrics]) is not among the sources.  Following the
    specification's "counters/histograms the core emits", a collector holds
    one count per counter name and label set, which [IncCounter] raises by
    one, and one number of observations per histogram name and label set
    (the observed floating-point value itself is not kept). *)
Record Collector : Type := mkCollector {
  counters : gmap (string * list (string * string)) nat;
  observations : gmap (string * list (string * string)) nat
}.

Definition counter (m : Collector) (name : string) (labels : Labels) : nat :=
  default 0%nat (counters m !! (name, labels)).

Definition IncCounter (name : string) (labels : Labels) (m : Collector) : Collector :=
  mkCollector (<[(name, labels) := S (counter m name labels)]> (counters m))
              (observations m).

Definition ObserveHistogram (name : string) (labels : Labels) (m : Collector) : Collector :=
  mkCollector (counters m)
              (<[(name, labels) := S (default 0%nat (observations m !! (name, labels)))]>
                 (observations m)).

(** [GRPCAdapter]: the configuration, the pool of each target, and the
    collector pointer ([None] is Go's [nil]). *)
Record GRPCAdapter : Type := mkAdapter {
  config : GRPCAdapterConfig;
  connections : gmap string ConnectionPool;
  metrics : option Collector
}.

Definition set_pools (a : GRPCAdapter) (ps : gmap string ConnectionPool) : GRPCAdapter :=
  mkAdapter (config a) ps (metrics a).

Definition set_metrics (a : GRPCAdapter) (m : option Collector) : GRPCAdapter :=
  mkAdapter (config a) (connections a) m.

(** [if a.metrics != nil { a.metrics.f(...) }] *)
Definition withMetrics (f : Collector -> Collector) (a : GRPCAdapter) : GRPCAdapter :=
  set_metrics a (f <$> metrics a).

(** [NewGRPCAdapter] ([nil] configuration replaced by the default). *)
Definition NewGRPCAdapter (cfg : option GRPCAdapterConfig) (m : option Collector) : GRPCAdapter :=
  mkAdapter (default DefaultGRPCAdapterConfig cfg) ∅ m.

(** [tls.Config.ClientAuth] as [getTLSCredentials] sets it. *)
Inductive ClientAuthType : Type := NoClientCert | RequireAndVerifyClientCert.

(** [errors.As(err, &gs)] for the interface [GRPCStatus() *Status]: the
    status carried by the first error of the [%w] chain that has one. *)
Fixpoint carried (err : error) : option Status :=
  match err with
  | StatusErr st => Some st
  | Wrap inner _ => carried inner
  | ErrorsNew _ | BridgeErr _ => None
  end.

(** [status.FromError] (grpc library, 1.55 and later) for a non-nil error.
    A status error yields its status and [true]; an error that wraps one
    yields the wrapped status with the message replaced by the whole text
    of the wrapping error, and [true]; any other error yields an [Unknown]
    status built from its text, and [false]. *)
Definition FromError (err : error) : Status * bool :=
  match err with
  | StatusErr st => (st, true)
  | _ =>
      match carried err with
      | Some st => (mkStatus (st_code st) (Error err) (st_details st), true)
      | None => (mkStatus codes.Unknown (Error err) [], false)
      end
  end.

(** [grpcStatusCode] *)
Definition grpcStatusCode (err : option error) : string :=
  match err with
  | None => "ok"
  | Some e =>
      let '(st, ok) := FromError e in
      if negb ok then "unknown" else codes.String (st_code st)
  end.

(** [extractErrorDetails] *)
Definition extractErrorDetails (st : Status) : list (list (string * value)) :=
  map (fun detail =>
         match detail with
         | BadRequest fvs =>
             [("type", VStr "BadRequest");
              ("fieldViolations",
               VStrMaps (map (fun '(f, d) => [("field", f); ("description", d)]) fvs))]
         | RequestInfo rid sd =>
             [("type", VStr "RequestInfo");
              ("requestId", VStr rid);
              ("servingData", VStr sd)]
         | ErrorInfo reason domain md =>
             [("type", VStr "ErrorInfo");
              ("reason", VStr reason);
              ("domain", VStr domain);
              ("metadata", VStrMap md)]
         | PreconditionFailure vs =>
             [("type", VStr "PreconditionFailure");
              ("violations",
               VStrMaps (map (fun '(t, s, d) =>
                                [("type", t); ("subject", s); ("description", d)]) vs))]
         | QuotaFailure vs =>
             [("type", VStr "QuotaFailure");
              ("violations",
               VStrMaps (map (fun '(s, d) => [("subject", s); ("description", d)]) vs))]
         | OtherDetail r =>
             [("type", VStr "Unknown"); ("value", VStr r)]
         end)
      (st_details st).

(** [NewBridgeError] *)
Definition NewBridgeError (code message : string) (details : list (string * value))
  : BridgeError :=
  mkBridgeError code message details.

(** [mapGRPCError] *)
Definition mapGRPCError (err : option error) : option error :=
  match err with
  | None => None
  | Some e =>
      let '(st, ok) := FromError e in
      if negb ok then Some (ErrorsNew "unknown error")
      else
        let bridge (kind : string) (code : Z) : option error :=
          Some (BridgeErr (NewBridgeError kind (st_message st)
                  [("code", VInt code);
                   ("details", VMaps (extractErrorDetails st))])) in
        let c := st_code st in
        if c =? codes.InvalidArgument then bridge "INVALID_ARGUMENT" codes.InvalidArgument
        else if c =? codes.NotFound then bridge "NOT_FOUND" codes.NotFound
        else if c =? codes.AlreadyExists then bridge "ALREADY_EXISTS" codes.AlreadyExists
        else if c =? codes.PermissionDenied then bridge "PERMISSION_DENIED" codes.PermissionDenied
        else if c =? codes.ResourceExhausted then bridge "RESOURCE_EXHAUSTED" codes.ResourceExhausted
        else if c =? codes.FailedPrecondition then bridge "FAILED_PRECONDITION" codes.FailedPrecondition
        else if c =? codes.Aborted then bridge "ABORTED" codes.Aborted
        else if c =? codes.OutOfRange then bridge "OUT_OF_RANGE" codes.OutOfRange
        else if c =? codes.Unimplemented then bridge "UNIMPLEMENTED" codes.Unimplemented
        else if c =? codes.Internal then bridge "INTERNAL" codes.Internal
        else if c =? codes.Unavailable then bridge "UNAVAILABLE" codes.Unavailable
        else if c =? codes.DataLoss then bridge "DATA_LOSS" codes.DataLoss
        else if c =? codes.Unauthenticated then bridge "UNAUTHENTICATED" codes.Unauthenticated
        else if c =? codes.DeadlineExceeded then bridge "DEADLINE_EXCEEDED" codes.DeadlineExceeded
        else if c =? codes.Canceled then bridge "CANCELED" codes.Canceled
        else bridge "UNKNOWN" (st_code st)
  end.

(** The sixteen canonical bridge error kinds. *)
Definition canonical_kinds : list string :=
  ["INVALID_ARGUMENT"; "NOT_FOUND"; "ALREADY_EXISTS"; "PERMISSION_DENIED";
   "RESOURCE_EXHAUSTED"; "FAILED_PRECONDITION"; "ABORTED"; "OUT_OF_RANGE";
   "UNIMPLEMENTED"; "INTERNAL"; "UNAVAILABLE"; "DATA_LOSS"; "UNAUTHENTICATED";
   "DEADLINE_EXCEEDED"; "CANCELED"; "UNKNOWN"].

(** An error of the canonical taxonomy: a [*BridgeError] of one of the
    sixteen kinds. *)
Definition is_canonical (e : error) : bool :=
  match e with
  | BridgeErr b => bool_decide (Code b ∈ canonical_kinds)
  | _ => false
  end.

Section Client.

Variable dial : nat -> string -> option error.
(** [tls.LoadX509KeyPair certFile keyFile]: [None] when the pair loads. *)
Variable LoadX509KeyPair : string -> string -> option error.
(** [conn.Invoke(ctx, method, ...)]: the error the remote call ends with. *)
Variable Invoke : ClientConn -> string -> option error.

(** [getTLSCredentials] *)
Definition getTLSCredentials (a : GRPCAdapter) : error + ClientAuthType :=
  if (TLSCertFile (config a) =? "")%string || (TLSKeyFile (config a) =? "")%string then
    inl (ErrorsNew "TLS certificate or key file not specified")
  else
    match LoadX509KeyPair (TLSCertFile (config a)) (TLSKeyFile (config a)) with
    | Some err =>
        inl (Wrap err ("failed to load server certificate and key: " +:+ Error err))
    | None =>
        inr (if negb (TLSCAFile (config a) =? "")%string
             then RequireAndVerifyClientCert else NoClientCert)
    end.

(** [getConnection].  Run on its own, the second look-up under the write
    lock sees what the first one saw.  [make([]*grpc.ClientConn, 0, n)]
    panics for a negative [n]; the write lock is not released on that path,
    so no later call on the adapter is described here. *)
Definition getConnection (a : GRPCAdapter) (tgt : string) (net : Net)
  : result ClientConn * GRPCAdapter * Net :=
  match connections a !! tgt with
  | Some pool =>
      let '(r, pool') := Get pool in
      (r, set_pools a (<[tgt := pool']> (connections a)), net)
  | None =>
      match (if EnableTLS (config a) then getTLSCredentials a else inr NoClientCert) with
      | inl err =>
          (Err (Wrap err ("failed to load TLS credentials: " +:+ Error err)), a, net)
      | inr _ =>
          if PoolSize (config a) <? 0
          then (Panic "makeslice: cap out of range", a, net)
          else
          let pool := mkPool tgt [] 0 (PoolSize (config a)) (EnableHealthCheck (config a)) in
          match Initialize dial pool net with
          | (Some err, _, net1) =>
              (Err (Wrap err ("failed to initialize connection pool: " +:+ Error err)),
               a, net1)
          | (None, pool1, net1) =>
              let '(r, pool2) := Get pool1 in
              (r, set_pools a (<[tgt := pool2]> (connections a)), net1)
          end
      end
  end.

(** [GRPCAdapter.Call]; [Ok tt] is the [nil] error. *)
Definition Call (a : GRPCAdapter) (tgt method : string) (net : Net)
  : result unit * GRPCAdapter * Net :=
  match getConnection a tgt net with
  | (Panic r, a1, net1) => (Panic r, a1, net1)
  | (Err err, a1, net1) =>
      (Err (Wrap ErrConnectionFailed
                 (Error ErrConnectionFailed +:+ ": " +:+ Error err)),
       withMetrics (IncCounter "grpc_connection_errors" [("target", tgt)]) a1,
       net1)
  | (Ok conn, a1, net1) =>
      let err := Invoke conn method in
      let a2 :=
        withMetrics
          (fun m =>
             let m1 := IncCounter "grpc.requests_total" [("method", method)] m in
             let m2 := ObserveHistogram "grpc.request_duration_seconds"
                                        [("method", method)] m1 in
             match err with
             | Some _ =>
                 IncCounter "grpc.errors_total"
                            [("method", method); ("code", grpcStatusCode err)] m2
             | None => m2
             end) a1 in
      match mapGRPCError err with
      | Some e => (Err e, a2, net1)
      | None => (Ok tt, a2, net1)
      end
  end.

(** [GRPCAdapter.Stream]: hands out the connection itself. *)
Definition Stream (a : GRPCAdapter) (tgt method : string) (net : Net)
  : result ClientConn * GRPCAdapter * Net :=
  match getConnection a tgt net with
  | (Panic r, a1, net1) => (Panic r, a1, net1)
  | (Err err, a1, net1) =>
      (Err (Wrap ErrConnectionFailed
                 (Error ErrConnectionFailed +:+ ": " +:+ Error err)),
       withMetrics (IncCounter "grpc_stream_connection_errors" [("target", tgt)]) a1,
       net1)
  | (Ok conn, a1, net1) => (Ok conn, a1, net1)
  end.

End Client.

(** *** The server-side unary interceptors *)

(** A [context.Context], as far as the interceptors use it: its deadline. *)
Record Ctx : Type := mkCtx { deadline : option Z }.

(** [context.WithTimeout ctx d], the clock reading [now]: the earlier of the
    parent's deadline and [now + d]. *)
Definition WithTimeout (now : Z) (ctx : Ctx) (d : Z) : Ctx :=
  mkCtx (Some (match deadline ctx with
               | Some t => Z.min t (now + d)
               | None => now + d
               end)).

Record UnaryServerInfo : Type := mkInfo { FullMethod : string }.

(** How a handler invocation ends: it returns [(resp, err)] or it panics
    with a value (kept as its [%v] rendering). *)
Inductive Reply : Type :=
| Return (resp : option string) (err : option error)
| Panics (r : string).

(** A [grpc.UnaryHandler].  Handlers run inside the server process, so they
    see and may change the adapter (its collector in particular). *)
Definition UnaryHandler : Type := Ctx -> string -> GRPCAdapter -> Reply * GRPCAdapter.

Definition UnaryServerInterceptor : Type :=
  Ctx -> string -> UnaryServerInfo -> UnaryHandler -> GRPCAdapter -> Reply * GRPCAdapter.

(** [loggingInterceptor] *)
Definition loggingInterceptor : UnaryServerInterceptor :=
  fun ctx req info handler a =>
    match handler ctx req a with
    | (Panics r, a1) => (Panics r, a1)
    | (Return resp err, a1) =>
        (Return resp err,
         withMetrics (IncCounter "grpc.requests_total" [("method", FullMethod info)]) a1)
    end.

(** [metricsInterceptor] *)
Definition metricsInterceptor : UnaryServerInterceptor :=
  fun ctx req info handler a =>
    match handler ctx req a with
    | (Panics r, a1) => (Panics r, a1)
    | (Return resp err, a1) =>
        (Return resp err,
         withMetrics
           (fun m =>
              let m1 := ObserveHistogram "grpc.request_duration_seconds"
                                         [("method", FullMethod info)] m in
              match err with
              | Some _ =>
                  IncCounter "grpc.errors_total"
                             [("method", FullMethod info); ("code", grpcStatusCode err)] m1
              | None => m1
              end) a1)
    end.

(** [status.Errorf(codes.Internal, "internal error")] *)
Definition internal_error : error :=
  StatusErr (mkStatus codes.Internal "internal error" []).

(** [recoveryInterceptor]: the deferred function finds a panic to recover
    only when the handler panicked; the named result [resp] is then still
    [nil]. *)
Definition recoveryInterceptor : UnaryServerInterceptor :=
  fun ctx req info handler a =>
    match handler ctx req a with
    | (Panics r, a1) =>
        (Return None (Some internal_error),
         withMetrics (IncCounter "grpc.panics_total" [("method", FullMethod info)]) a1)
    | (Return resp err, a1) => (Return resp err, a1)
    end.

(** [timeoutInterceptor]; [now] is the clock reading when it runs. *)
Definition timeoutInterceptor (now : Z) : UnaryServerInterceptor :=
  fun ctx req info handler a =>
    handler (WithTimeout now ctx (Timeout (config a))) req a.

(** [grpc.ChainUnaryInterceptor]: the first interceptor is the outermost. *)
Fixpoint chain (ics : list UnaryServerInterceptor) (info : UnaryServerInfo)
               (handler : UnaryHandler) : UnaryHandler :=
  match ics with
  | [] => handler
  | i :: rest => fun ctx req a => i ctx req info (chain rest info handler) a
  end.

(** The interceptors [NewGRPCAdapter] installs, in order. *)
Definition default_interceptors (now : Z) : list UnaryServerInterceptor :=
  [loggingInterceptor; metricsInterceptor; recoveryInterceptor; timeoutInterceptor now].

(** The value of the [grpc.panics_total] counter for a method, as a scrape
    of the adapter's collector would show it (no collector, no counter). *)
Definition panics_total (a : GRPCAdapter) (method : string) : option nat :=
  (fun m => counter m "grpc.panics_total" [("method", method)]) <$> metrics a.

(** [GRPCAdapter.Stop], as far as the client side goes: every pool is closed
    and the map replaced by an empty one.  (The graceful stop of the server
    that follows touches neither.) *)
Definition Stop (a : GRPCAdapter) (net : Net) : GRPCAdapter * Net :=
  (set_pools a ∅,
   foldl (fun net '(_, pool) => (Close pool net).2) net (map_to_list (connections a))).

(** The handles held by the pools of an adapter. *)
Definition pooled (a : GRPCAdapter) : gset nat :=
  list_to_set (concat (Pool.connections <$> (map_to_list (connections a)).*2)).

(** The kind of a bridge error; empty for any other error. *)
Definition error_kind (e : option error) : string :=
  match e with
  | Some (BridgeErr b) => Code b
  | _ => ""
  end.

(** The status codes [mapGRPCError] has a case for. *)
Definition named_code (c : Z) : Prop := c = 1 ∨ 3 ≤ c ≤ 16.

End GRPC.

(** ** discovery_service.go: the service discovery registry *)

Module Discovery.
Import Go.

(** The sentinel errors of the package. *)
Definition ErrServiceNotFound : error := ErrorsNew "service not found".
Definition ErrServiceAlreadyExists : error := ErrorsNew "service already exists".
Definition ErrInvalidServiceInfo : error := ErrorsNew "invalid service information".
Definition ErrServiceUnavailable : error := ErrorsNew "service is unavailable".
Definition ErrNotInitialized : error := ErrorsNew "discovery service not initialized".

(** [ServiceStatus] values. *)
Definition ServiceStatusUnknown : string := "unknown".
Definition ServiceStatusStarting : string := "starting".
Definition ServiceStatusRunning : string := "running".
Definition ServiceStatusStopping : string := "stopping".
Definition ServiceStatusStopped : string := "stopped".
Definition ServiceStatusFailed : string := "failed".
Definition ServiceStatusDraining : string := "draining".
Definition ServiceStatusMaintenance : string := "maintenance".

(** Modelled from the spec: the struct [protocols.ServiceInfo] is declared in
    [internal/bridge/protocols], which is not among the sources.  Its fields
    are those the specification lists (stable ID, Name, Type, Version,
    Address, Port, free-form string-to-string Metadata, Status, LastUpdated
    in epoch milliseconds), with the types the registry code uses them at:
    [Type] and [Version] are string types, [Status] a string, [Port] and
    [LastUpdated] integers. *)
Record ServiceInfo : Type := mkServiceInfo {
  ID : string;
  Name : string;
  Type_ : string;
  Version : string;
  Address : string;
  Port : Z;
  Metadata : gmap string string;
  Status : string;
  LastUpdated : Z
}.

Definition set_Status (i : ServiceInfo) (s : string) : ServiceInfo :=
  mkServiceInfo (ID i) (Name i) (Type_ i) (Version i) (Address i) (Port i)
                (Metadata i) s (LastUpdated i).

Definition set_LastUpdated (i : ServiceInfo) (t : Z) : ServiceInfo :=
  mkServiceInfo (ID i) (Name i) (Type_ i) (Version i) (Address i) (Port i)
                (Metadata i) (Status i) t.

(** [ServiceChangeType] *)
Inductive ServiceChangeType : Type :=
| ServiceChangeTypeAdded
| ServiceChangeTypeUpdated
| ServiceChangeTypeRemoved.

(** [ServiceChangeEvent] *)
Record ServiceChangeEvent : Type := mkEvent {
  ev_Type : ServiceChangeType;
  ev_ServiceInfo : ServiceInfo;
  ev_Timestamp : Z
}.

(** [ServiceFilter] *)
Record ServiceFilter : Type := mkFilter {
  f_ServiceType : string;
  f_Version : string;
  f_Name : string;
  f_Address : string;
  f_Metadata : gmap string string
}.

(** [ServiceFilter.Matches] *)
Definition Matches (f : ServiceFilter) (service : ServiceInfo) : bool :=
  if negb (f_ServiceType f =? "")%string && negb (f_ServiceType f =? Type_ service)%string
  then false
  else if negb (f_Version f =? "")%string && negb (f_Version f =? Version service)%string
  then false
  else if negb (f_Name f =? "")%string && negb (f_Name f =? Name service)%string
  then false
  else if negb (f_Address f =? "")%string && negb (f_Address f =? Address service)%string
  then false
  else if (0 <? size (f_Metadata f))%nat then
    forallb (fun '(k, v) =>
               match Metadata service !! k with
               | Some serviceValue => (serviceValue =? v)%string
               | None => false
               end)
            (map_to_list (f_Metadata f))
  else true.

(** The filter as the specification words it: every non-empty field equals
    the service's, and every key-value pair of the filter's metadata is
    present, with an equal value, in the service's metadata. *)
Definition matches_spec (f : ServiceFilter) (service : ServiceInfo) : Prop :=
  (f_ServiceType f ≠ "" → f_ServiceType f = Type_ service) ∧
  (f_Version f ≠ "" → f_Version f = Version service) ∧
  (f_Name f ≠ "" → f_Name f = Name service) ∧
  (f_Address f ≠ "" → f_Address f = Address service) ∧
  (∀ k v, f_Metadata f !! k = Some v → Metadata service !! k = Some v).

(** [HealthChecker.CheckHealth]: the verdict and the error of a probe. *)
Definition HealthChecker : Type := ServiceInfo -> bool * option error.

(** [DefaultHealthChecker.CheckHealth]; [timedOut] tells whether the
    context ended before the simulated network delay. *)
Definition DefaultCheckHealth (timedOut : bool) : HealthChecker :=
  fun serviceInfo =>
    if timedOut then (false, Some (ErrorsNew "context deadline exceeded"))
    else ((Status serviceInfo =? ServiceStatusRunning)%string, None).

(** [DiscoveryConfig]; durations in nanoseconds. *)
Record DiscoveryConfig : Type := mkDiscoveryConfig {
  RefreshInterval : Z;
  HealthCheckInterval : Z;
  HealthCheckTimeout : Z;
  ServiceTTL : Z;
  EnableWatching : bool;
  EnableHealthChecks : bool;
  StorageType : string;
  StorageConfig : gmap string string;
  DefaultServiceStatus : string
}.

(** [DefaultDiscoveryConfig] *)
Definition DefaultDiscoveryConfig : DiscoveryConfig :=
  mkDiscoveryConfig (60 * 1000000000) (30 * 1000000000) (5 * 1000000000)
                    (24 * 3600 * 1000000000) true true "memory" ∅
                    ServiceStatusRunning.

(** [metrics.BridgeMetrics] is declared in [internal/core/metrics], outside
    the sources at hand; all the registry does with it is to increment these
    two counters. *)
Record BridgeMetrics : Type := mkBridgeMetrics {
  ConnectionsTotal : nat;
  ConnectionFailures : nat
}.

(** A channel of change events is a heap object shared by whoever holds a
    reference to it: its capacity and the events queued in it. *)
Record Chan : Type := mkChan {
  chan_cap : nat;
  chan_buf : list ServiceChangeEvent
}.

(** A reference to a channel. *)
Abbreviation ChanRef := nat (only parsing).

(** What lies outside the registry object: the channels and the number of
    clock readings taken so far. *)
Record World : Type := mkWorld {
  chans : gmap nat Chan;
  ticks : nat
}.

(** [DiscoveryService] *)
Record DiscoveryService : Type := mkDiscovery {
  config : DiscoveryConfig;
  services : gmap string ServiceInfo;
  eventListeners : gmap string ChanRef;
  metrics : option BridgeMetrics;
  initialized : bool;
  stopChanClosed : bool        (* [stopChan], made once by the constructor *)
}.

Definition set_services (d : DiscoveryService) (s : gmap string ServiceInfo)
  : DiscoveryService :=
  mkDiscovery (config d) s (eventListeners d) (metrics d) (initialized d)
              (stopChanClosed d).

Definition set_eventListeners (d : DiscoveryService) (l : gmap string ChanRef)
  : DiscoveryService :=
  mkDiscovery (config d) (services d) l (metrics d) (initialized d)
              (stopChanClosed d).

Definition set_initialized (d : DiscoveryService) (b : bool) : DiscoveryService :=
  mkDiscovery (config d) (services d) (eventListeners d) (metrics d) b
              (stopChanClosed d).

(** [if d.metrics != nil { d.metrics.ConnectionsTotal.Inc() }] *)
Definition incConnectionsTotal (d : DiscoveryService) : DiscoveryService :=
  mkDiscovery (config d) (services d) (eventListeners d)
    ((fun m => mkBridgeMetrics (S (ConnectionsTotal m)) (ConnectionFailures m)) <$> metrics d)
    (initialized d) (stopChanClosed d).

(** [if d.metrics != nil { d.metrics.ConnectionFailures.Inc() }] *)
Definition incConnectionFailures (d : DiscoveryService) : DiscoveryService :=
  mkDiscovery (config d) (services d) (eventListeners d)
    ((fun m => mkBridgeMetrics (ConnectionsTotal m) (S (ConnectionFailures m))) <$> metrics d)
    (initialized d) (stopChanClosed d).

(** [NewDiscoveryService] *)
Definition NewDiscoveryService (cfg : option DiscoveryConfig) (m : option BridgeMetrics)
  : DiscoveryService :=
  mkDiscovery (default DefaultDiscoveryConfig cfg) ∅ ∅ m false false.

(** [Initialize] (the health-check loop it starts is [runHealthChecks] run
    at every tick of its timer, until [stopChan] is closed). *)
Definition Initialize (d : DiscoveryService) : DiscoveryService :=
  set_initialized d true.

(** [select { case ch <- ev: default: }]: the event is queued when the
    channel has room and dropped otherwise.  Receivers are not modelled:
    all they do is make room, and a receiver already waiting on the channel
    counts as a free slot. *)
Definition trySend (c : ChanRef) (ev : ServiceChangeEvent) (w : World) : bool * World :=
  match chans w !! c with
  | Some ch =>
      if (length (chan_buf ch) <? chan_cap ch)%nat then
        (true, mkWorld (<[c := mkChan (chan_cap ch) (chan_buf ch ++ [ev])]> (chans w))
                       (ticks w))
      else (false, w)
  | None => (false, w)
  end.

(** [notifyListeners] *)
Definition notifyListeners (d : DiscoveryService) (event : ServiceChangeEvent) (w : World)
  : World :=
  foldl (fun w '(id, listener) => (trySend listener event w).2)
        w (map_to_list (eventListeners d)).

Section Clock.

(** [clock k] is the [k]-th reading of the wall clock, in nanoseconds since
    the epoch ([time.Now().UnixNano()]). *)
Variable clock : nat -> Z.

Definition Now (w : World) : Z * World :=
  (clock (ticks w), mkWorld (chans w) (S (ticks w))).

(** [nanos / int64(time.Millisecond)] *)
Definition millis (nanos : Z) : Z := Z.quot nanos 1000000.

(** [RegisterService] *)
Definition RegisterService (d : DiscoveryService) (info : ServiceInfo) (w : World)
  : option error * DiscoveryService * World :=
  if negb (initialized d) then (Some ErrNotInitialized, d, w)
  else if (ID info =? "")%string || (Name info =? "")%string
          || (Address info =? "")%string || (Port info =? 0)
  then (Some ErrInvalidServiceInfo, d, w)
  else
    match services d !! ID info with
    | Some existing =>
        let d1 := set_services d (<[ID info := info]> (services d)) in
        let '(t, w1) := Now w in
        let w2 := notifyListeners d1
                    (mkEvent ServiceChangeTypeUpdated info (millis t)) w1 in
        (None, incConnectionsTotal d1, w2)
    | None =>
        let info1 :=
          if (Status info =? "")%string
          then set_Status info (DefaultServiceStatus (config d)) else info in
        let '(t, w1) := Now w in
        let info2 := set_LastUpdated info1 (millis t) in
        let d1 := set_services d (<[ID info2 := info2]> (services d)) in
        let '(t', w2) := Now w1 in
        let w3 := notifyListeners d1
                    (mkEvent ServiceChangeTypeAdded info2 (millis t')) w2 in
        (None, incConnectionsTotal d1, w3)
    end.

(** [DeregisterService] *)
Definition DeregisterService (d : DiscoveryService) (serviceID : string) (w : World)
  : option error * DiscoveryService * World :=
  if negb (initialized d) then (Some ErrNotInitialized, d, w)
  else
    match services d !! serviceID with
    | None => (Some ErrServiceNotFound, d, w)
    | Some info =>
        let d1 := set_services d (delete serviceID (services d)) in
        let '(t, w1) := Now w in
        let w2 := notifyListeners d1
                    (mkEvent ServiceChangeTypeRemoved info (millis t)) w1 in
        (None, incConnectionFailures d1, w2)
    end.

(** [GetService] *)
Definition GetService (d : DiscoveryService) (serviceID : string)
  : option ServiceInfo * option error :=
  if negb (initialized d) then (None, Some ErrNotInitialized)
  else
    match services d !! serviceID with
    | None => (None, Some ErrServiceNotFound)
    | Some info => (Some info, None)
    end.

(** [FindServices].  Go leaves the order of a map traversal open; the
    entries are visited here in the order [map_to_list] gives them. *)
Definition FindServices (d : DiscoveryService) (filter : ServiceFilter)
  : list ServiceInfo * option error :=
  if negb (initialized d) then ([], Some ErrNotInitialized)
  else
    (foldl (fun results '(_, info) =>
              if Matches filter info then results ++ [info] else results)
           [] (map_to_list (services d)),
     None).

(** The replay loop of [WatchServices]: the event (and with it the clock
    reading) is built before the send is attempted. *)
Definition replay (filter : ServiceFilter) (eventChan : ChanRef)
                  (w : World) (entries : list (string * ServiceInfo)) : World :=
  foldl (fun w '(_, info) =>
           if Matches filter info then
             let '(t, w1) := Now w in
             (trySend eventChan (mkEvent ServiceChangeTypeAdded info (millis t)) w1).2
           else w)
        w entries.

(** [WatchServices]; a [nil] channel is [None].  The goroutine waiting for
    the end of the caller's context is the separate step [contextDone]. *)
Definition WatchServices (d : DiscoveryService) (filter : ServiceFilter)
                         (eventChan : option ChanRef) (w : World)
  : (string * option error) * DiscoveryService * World :=
  if negb (initialized d) then (("", Some ErrNotInitialized), d, w)
  else if negb (EnableWatching (config d))
  then (("", Some (ErrorsNew "service watching is disabled")), d, w)
  else
    match eventChan with
    | None => (("", Some (ErrorsNew "event channel cannot be nil")), d, w)
    | Some c =>
        let '(t, w1) := Now w in
        let listenerID := "listener-" +:+ pretty t in
        let d1 := set_eventListeners d (<[listenerID := c]> (eventListeners d)) in
        let w2 := replay filter c w1 (map_to_list (services d1)) in
        ((listenerID, None), d1, w2)
    end.

(** The caller's context ends: the listener is removed. *)
Definition contextDone (d : DiscoveryService) (listenerID : string) : DiscoveryService :=
  set_eventListeners d (delete listenerID (eventListeners d)).

(** [UnwatchServices] *)
Definition UnwatchServices (d : DiscoveryService) (listenerID : string)
  : option error * DiscoveryService :=
  if negb (initialized d) then (Some ErrNotInitialized, d)
  else
    match eventListeners d !! listenerID with
    | None => (Some (ErrorsNew "listener not found"), d)
    | Some _ => (None, set_eventListeners d (delete listenerID (eventListeners d)))
    end.

(** [updateServiceStatus] *)
Definition updateServiceStatus (d : DiscoveryService) (serviceID status : string)
                               (w : World) : DiscoveryService * World :=
  match services d !! serviceID with
  | Some info =>
      let oldStatus := Status info in
      let '(t, w1) := Now w in
      let info' := set_LastUpdated (set_Status info status) (millis t) in
      let d1 := set_services d (<[serviceID := info']> (services d)) in
      if negb (oldStatus =? status)%string then
        let w2 := notifyListeners d1
                    (mkEvent ServiceChangeTypeUpdated info' (LastUpdated info')) w1 in
        (incConnectionsTotal d1, w2)
      else (d1, w1)
  | None => (d, w)
  end.

(** [CheckServiceHealth] *)
Definition CheckServiceHealth (healthChecker : HealthChecker)
                              (d : DiscoveryService) (serviceID : string) (w : World)
  : (bool * option error) * DiscoveryService * World :=
  if negb (initialized d) then ((false, Some ErrNotInitialized), d, w)
  else if negb (EnableHealthChecks (config d))
  then ((false, Some (ErrorsNew "health checks are disabled")), d, w)
  else
    match services d !! serviceID with
    | None => ((false, Some ErrServiceNotFound), d, w)
    | Some info =>
        match healthChecker info with
        | (_, Some err) => ((false, Some err), d, w)
        | (healthy, None) =>
            let '(d1, w1) :=
              if healthy && negb (Status info =? ServiceStatusRunning)%string then
                updateServiceStatus d serviceID ServiceStatusRunning w
              else if negb healthy && (Status info =? ServiceStatusRunning)%string then
                updateServiceStatus d serviceID ServiceStatusFailed w
              else (d, w) in
            ((healthy, None), d1, w1)
        end
    end.

(** [runHealthChecks]: one pass of the health-check loop over the ids
    registered when it starts. *)
Definition runHealthChecks (healthChecker : HealthChecker)
                           (d : DiscoveryService) (w : World) : DiscoveryService * World :=
  foldl (fun '(d, w) id =>
           let '(_, d1, w1) := CheckServiceHealth healthChecker d id w in (d1, w1))
        (d, w) (map_to_list (services d)).*1.

(** [Stop].  [close(d.stopChan)] comes first and panics on a channel that
    is closed already; the registry is then left as it was. *)
Definition Stop (d : DiscoveryService) : result unit * DiscoveryService :=
  if negb (initialized d) then (Ok tt, d)
  else if stopChanClosed d then (Panic "close of closed channel", d)
  else
    (Ok tt,
     mkDiscovery (config d) (services d) ∅ (metrics d) false true).

End Clock.

(** [GetServicesCount], [GetListenersCount] *)
Definition GetServicesCount (d : DiscoveryService) : nat := size (services d).
Definition GetListenersCount (d : DiscoveryService) : nat := size (eventListeners d).

(** The events queued in a channel, and whether a send to it would succeed. *)
Definition queued (w : World) (c : ChanRef) : list ServiceChangeEvent :=
  match chans w !! c with Some ch => chan_buf ch | None => [] end.

Definition has_room (w : World) (c : ChanRef) : Prop :=
  ∃ ch, chans w !! c = Some ch ∧ (length (chan_buf ch) < chan_cap ch)%nat.

(** The free slots of a channel and the number of listeners bound to it. *)
Definition room (w : World) (c : ChanRef) : nat :=
  match chans w !! c with
  | Some ch => (chan_cap ch - length (chan_buf ch))%nat
  | None => 0%nat
  end.

Definition bound_to (d : DiscoveryService) (c : ChanRef) : nat :=
  length (filter (fun kv => kv.2 = c) (map_to_list (eventListeners d))).

(** The argument check of [RegisterService], passed. *)
Definition valid (info : ServiceInfo) : Prop :=
  ID info ≠ "" ∧ Name info ≠ "" ∧ Address info ≠ "" ∧ Port info ≠ 0.

(** The world after one clock reading. *)
Definition tick (w : World) : World := mkWorld (chans w) (S (ticks w)).

(** Between [w] and [w'] the event [ev] has gone out once to the listeners
    of [d] and nothing else was sent: every channel holds what it held,
    followed by one copy of [ev] for each listener bound to it as far as its
    free slots reach (the copies beyond are dropped). *)
Definition emitted_once (d : DiscoveryService) (ev : ServiceChangeEvent)
                        (w w' : World) : Prop :=
  ∀ c, queued w' c
       = queued w c ++ replicate (Nat.min (room w c) (bound_to d c)) ev.

(** What [RegisterService] stores for an id it has not seen, [now] being
    the millisecond stamp it takes. *)
Definition fresh_entry (d : DiscoveryService) (info : ServiceInfo) (now : Z) : ServiceInfo :=
  set_LastUpdated
    (if (Status info =? "")%string
     then set_Status info (DefaultServiceStatus (config d)) else info)
    now.

(** The events the replay loop of [WatchServices] builds, in order: one
    [added] event for each entry the filter matches, stamped with the
    successive clock readings from the [k]-th on. *)
Fixpoint replay_events (clock : nat -> Z) (filter : ServiceFilter) (k : nat)
                       (entries : list (string * ServiceInfo))
  : list ServiceChangeEvent :=
  match entries with
  | [] => []
  | (_, info) :: rest =>
      if Matches filter info
      then mkEvent ServiceChangeTypeAdded info (millis (clock k))
           :: replay_events clock filter (S k) rest
      else replay_events clock filter k rest
  end.

(** [GetServicesByType] *)
Definition GetServicesByType (d : DiscoveryService) (serviceType : string)
  : list ServiceInfo * option error :=
  FindServices d (mkFilter serviceType "" "" "" ∅).

(** [GetServicesByName] *)
Definition GetServicesByName (d : DiscoveryService) (name : string)
  : list ServiceInfo * option error :=
  FindServices d (mkFilter "" "" name "" ∅).

(** [GetServiceMetadata] *)
Definition GetServiceMetadata (d : DiscoveryService) (serviceID : string)
  : option (gmap string string) * option error :=
  match GetService d serviceID with
  | (_, Some err) => (None, Some err)
  | (info, None) => (Metadata <$> info, None)
  end.

(** Every entry of the service map sits under its own ID. *)
Definition keyed (d : DiscoveryService) : Prop :=
  ∀ id info, services d !! id = Some info → ID info = id.

(** No channel holds more events than its capacity. *)
Definition within_capacity (w : World) : Prop :=
  ∀ c ch, chans w !! c = Some ch → (length (chan_buf ch) ≤ chan_cap ch)%nat.

(** From [w] to [w'] channels were only appended to: none appeared or
    vanished, none changed capacity, and each queue kept what it held in
    front. *)
Definition only_appended (w w' : World) : Prop :=
  ∀ c, match chans w !! c, chans w' !! c with
       | Some ch, Some ch' =>
           chan_cap ch' = chan_cap ch ∧ ∃ more, chan_buf ch' = chan_buf ch ++ more
       | None, None => True
       | _, _ => False
       end.

(** A step from [w] to [w'] that only appends to channels and keeps them
    within capacity if they were. *)
Definition grown (w w' : World) : Prop :=
  only_appended w w' ∧ (within_capacity w → within_capacity w').

End Discovery.

(** ** Sample values used by the examples *)

Module Samples.
Import Go Discovery.

(** A clock that advances one millisecond per reading. *)
Definition clock (k : nat) : Z := 1700000000000000000 + 1000000 * Z.of_nat k.

Definition echo : ServiceInfo :=
  mkServiceInfo "svc-1" "echo" "grpc" "v1" "127.0.0.1" 9000 {[ "env" := "prod" ]} "" 0.

(** The same service announced again from another port, status and stamp
    left empty. *)
Definition echo_moved : ServiceInfo :=
  mkServiceInfo "svc-1" "echo" "grpc" "v1" "127.0.0.1" 9001 {[ "env" := "prod" ]} "" 0.

(** A service without the [env] metadata key. *)
Definition billing : ServiceInfo :=
  mkServiceInfo "svc-2" "billing" "http" "v3" "10.0.0.7" 8080 ∅ "starting" 0.

Definition prod_only : ServiceFilter := mkFilter "" "" "" "" {[ "env" := "prod" ]}.

(** An initialized registry under the default configuration with one
    listener, bound to channel 0, and a world where that channel has four
    free slots and channel 1 a single one. *)
Definition registry : DiscoveryService :=
  mkDiscovery DefaultDiscoveryConfig ∅ {[ "listener-0" := 0%nat ]} None true false.

Definition world : World :=
  mkWorld {[ 0%nat := mkChan 4 []; 1%nat := mkChan 1 [] ]} 0.

(** The registry once [echo] and [billing] are registered, and the world
    then. *)
Definition registry2 : DiscoveryService :=
  (RegisterService clock
     (RegisterService clock registry echo world).1.2 billing
     (RegisterService clock registry echo world).2).1.2.

Definition world2 : World :=
  (RegisterService clock
     (RegisterService clock registry echo world).1.2 billing
     (RegisterService clock registry echo world).2).2.

(** The same world with a further, empty channel 2 of eight slots. *)
Definition world3 : World :=
  mkWorld (<[ 2%nat := mkChan 8 [] ]> (chans world2)) (ticks world2).

(** A third service, again without the [env] key. *)
Definition audit : ServiceInfo :=
  mkServiceInfo "svc-3" "audit" "http" "v1" "10.0.0.9" 8443 ∅ "running" 0.

End Samples.

(* ===================================================================== *)
(** * Part II.  Properties                                                *)
(* ===================================================================== *)

(** ** The latency average *)

Module AdapterFacts.
Import Go Adapter.

Lemma recordLatency_average (a : BaseAdapter) (d : Z) :
  AverageLatency (stats (recordLatency a d)) = blend (AverageLatency (stats a)) d.
Proof.
  unfold recordLatency, blend.
  destruct (AverageLatency (stats a) =? 0); reflexivity.
Qed.

(** Only the average is touched. *)
Lemma recordLatency_frame (a : BaseAdapter) (d : Z) :
  recordLatency a d =
  set_stats a (set_AverageLatency (stats a) (blend (AverageLatency (stats a)) d)).
Proof.
  unfold recordLatency, blend.
  destruct (AverageLatency (stats a) =? 0); reflexivity.
Qed.

Lemma averages_length (samples : list Z) :
  ∀ a, length (averages a samples) = length samples.
Proof.
  induction samples as [|d rest IH]; intros a; simpl; [reflexivity|].
  now rewrite IH.
Qed.

Lemma last_cons_default {A} (l : list A) :
  ∀ x y, List.last (x :: l) y = List.last l x.
Proof.
  induction l as [|z l IH]; intros x y; [reflexivity|].
  change (List.last (x :: z :: l) y) with (List.last (z :: l) y).
  rewrite (IH z y), (IH z x). reflexivity.
Qed.

(** The last average of a run is the one the adapter ends up with. *)
Lemma recordAll_average (samples : list Z) :
  ∀ a, AverageLatency (stats (recordAll a samples)) =
       List.last (averages a samples) (AverageLatency (stats a)).
Proof.
  unfold recordAll.
  induction samples as [|d rest IH]; intros a; [reflexivity|].
  cbn [foldl averages]. rewrite IH, last_cons_default. reflexivity.
Qed.

(** Small runs, evaluated. *)
Example averages_steady :
  averages (NewBaseAdapter "queue" "messaging") [100; 200; 50] = [100; 110; 104].
Proof. reflexivity. Qed.

Example averages_truncates_toward_zero :
  averages (NewBaseAdapter "queue" "messaging") [-5; 4] = [-5; -4].
Proof. reflexivity. Qed.

Example averages_wraps :
  averages (NewBaseAdapter "queue" "messaging") [2 ^ 62; 0]
  = [2 ^ 62; (2 ^ 62 * 9 - 2 ^ 65) / 10].
Proof. reflexivity. Qed.

(** C8 (as amended).  For every adapter and every sequence of samples, the
    average stored after each sample is [(previous * 9 + sample) / 10] in
    wrapping 64-bit arithmetic with truncating division, except that a
    sample recorded while the stored average is zero becomes the average
    unchanged: this is so for the very first sample and again for any
    later sample that finds the average back at zero. *)
Theorem averages_rule (a : BaseAdapter) (samples : list Z) :
  averages a samples =
  zip_with (fun prev d =>
              if prev =? 0 then d
              else div64 (add64 (mul64 prev 9) d) 10)
           (AverageLatency (stats a) :: averages a samples) samples.
Proof.
  revert a. induction samples as [|d rest IH]; intros a; [reflexivity|].
  cbn [averages zip_with].
  rewrite recordLatency_average. unfold blend at 1. f_equal.
  rewrite (IH (recordLatency a d)) at 1.
  rewrite recordLatency_average. reflexivity.
Qed.

(** C8, counterexample.  On a fresh adapter the samples 1, 0, 100 leave the
    averages 1, 0, 100: the second sample brings the average back to zero
    and the third, though not the first of the run, is then taken over
    unchanged, where blending it 9:1 would give 10. *)
Lemma averages_zero_restarts :
  averages (NewBaseAdapter "queue" "messaging") [1; 0; 100] = [1; 0; 100] ∧
  claimed_averages [1; 0; 100] = [1; 0; 10] ∧
  averages (NewBaseAdapter "queue" "messaging") [1; 0; 100]
    ≠ claimed_averages [1; 0; 100].
Proof.
  split; [reflexivity|]. split; [reflexivity|]. discriminate.
Qed.

End AdapterFacts.

(** ** The connection pool *)

Module PoolFacts.
Import Go Pool.

Section Initialize.

Variable dial : nat -> string -> option error.

Lemma CloseAll_dials (cs : list nat) :
  ∀ net, dials (CloseAll net cs) = dials net.
Proof.
  unfold CloseAll. induction cs as [|c cs IH]; intros net; [reflexivity|].
  cbn [foldl]. now rewrite IH.
Qed.

Lemma CloseAll_live (cs : list nat) :
  ∀ net, live (CloseAll net cs) = live net ∖ list_to_set cs.
Proof.
  unfold CloseAll. induction cs as [|c cs IH]; intros net; cbn [foldl].
  - set_solver.
  - rewrite IH. cbn. set_solver.
Qed.

Lemma DialContext_wf (net : Net) (tgt : string) :
  Net_wf net → Net_wf (DialContext dial net tgt).2.
Proof.
  unfold Net_wf, DialContext. intros Hwf c.
  destruct (dial (dials net) tgt); cbn.
  - intros Hc. specialize (Hwf c Hc). lia.
  - rewrite elem_of_union, elem_of_singleton.
    intros [-> | Hc]; [lia|]. specialize (Hwf c Hc). lia.
Qed.

Lemma Initialize_loop_frame (n : nat) :
  ∀ p net,
    let r := Initialize_loop dial n p net in
    target r.1.2 = target p ∧ size r.1.2 = size p
    ∧ currentIndex r.1.2 = currentIndex p ∧ healthChecks r.1.2 = healthChecks p.
Proof.
  induction n as [|n IH]; intros p net; cbn [Initialize_loop]; [cbn; tauto|].
  unfold DialContext. destruct (dial (dials net) (target p)); [cbn; tauto|].
  apply (IH (set_connections p (connections p ++ [dials net]))).
Qed.

(** What the loop does from any point on: either it appends [n] fresh, open
    handles, or it stops at the first failing dial, having closed whatever
    the pool held, and hands that dial's error back. *)
Lemma Initialize_loop_spec (n : nat) :
  ∀ p net,
    Net_wf net →
    match Initialize_loop dial n p net with
    | (None, p', net') =>
        ∃ new, connections p' = connections p ++ new
               ∧ length new = n
               ∧ NoDup new
               ∧ (∀ c, c ∈ new → c ∉ live net)
               ∧ live net' = list_to_set new ∪ live net
               ∧ dials net' = (dials net + n)%nat
               ∧ Net_wf net'
    | (Some e, p', net') =>
        connections p' = []
        ∧ live net' = live net ∖ list_to_set (connections p)
        ∧ (∃ k, (dials net ≤ k < dials net + n)%nat ∧ dial k (target p) = Some e
                ∧ dials net' = S k
                ∧ ∀ j, (dials net ≤ j < k)%nat → dial j (target p) = None)
    end.
Proof.
  induction n as [|n IH]; intros p net Hwf; cbn [Initialize_loop].
  - exists []. rewrite app_nil_r. split_and!; try done.
    + constructor.
    + set_solver.
    + set_solver.
  - unfold DialContext. destruct (dial (dials net) (target p)) as [err|] eqn:Hd.
    + cbn. split_and!; [done| |].
      * rewrite CloseAll_live. reflexivity.
      * exists (dials net). rewrite CloseAll_dials. cbn.
        split_and!; try done; lia.
    + set (p1 := set_connections p (connections p ++ [dials net])).
      set (net1 := mkNet (S (dials net)) ({[dials net]} ∪ live net)).
      assert (Hfresh : dials net ∉ live net).
      { intros Hin. specialize (Hwf _ Hin). lia. }
      assert (Hwf1 : Net_wf net1).
      { intros c. subst net1. cbn. rewrite elem_of_union, elem_of_singleton.
        intros [-> | Hc]; [lia|]. specialize (Hwf c Hc). lia. }
      specialize (IH p1 net1 Hwf1).
      destruct (Initialize_loop dial n p1 net1) as [[[e|] p'] net'].
      * destruct IH as (Hnil & Hlive & k & Hk & Hdk & Hdials & Hbefore).
        split_and!; [exact Hnil| |].
        -- rewrite Hlive. subst p1 net1. cbn. rewrite list_to_set_app_L. set_solver.
        -- exists k. subst p1 net1. cbn in *. split_and!; try done; try lia.
           intros j Hj. destruct (decide (j = dials net)) as [->|Hne]; [exact Hd|].
           apply Hbefore. lia.
      * destruct IH as (new & Hconn & Hlen & Hnd & Hnot & Hlive & Hdials & Hwf').
        exists (dials net :: new). subst p1 net1. cbn in *.
        rewrite Hconn, <- app_assoc. split_and!; try done.
        -- cbn. now rewrite Hlen.
        -- constructor; [|exact Hnd]. intros Hin. apply (Hnot _ Hin). set_solver.
        -- intros c Hc. apply elem_of_cons in Hc as [-> | Hc]; [exact Hfresh|].
           intros Hin. apply (Hnot _ Hc). set_solver.
        -- rewrite Hlive. set_solver.
        -- lia.
Qed.

End Initialize.

(** A freshly built pool of non-positive size is initialized without a
    single dial. *)
Lemma Initialize_nonpositive_size (dial : nat -> string -> option error)
      (p : ConnectionPool) (net : Net) :
  size p ≤ 0 → Initialize dial p net = (None, p, net).
Proof.
  intros Hs. unfold Initialize.
  replace (Z.to_nat (size p)) with 0%nat by lia. reflexivity.
Qed.

Lemma CloseAll_eq (cs : list nat) (net : Net) :
  CloseAll net cs = mkNet (dials net) (live net ∖ list_to_set cs).
Proof.
  unfold CloseAll. revert net.
  induction cs as [|c cs IH]; intros net; cbn [foldl].
  - destruct net as [dn lv]. cbn. f_equal. set_solver.
  - rewrite IH. unfold CloseConn. cbn. f_equal. set_solver.
Qed.

(** With every dial accepted the loop appends the next [n] handles. *)
Lemma Initialize_loop_all_accepted (dial : nat -> string -> option error) (n : nat) :
  ∀ p net,
    (∀ j, (dials net ≤ j < dials net + n)%nat → dial j (target p) = None) →
    Initialize_loop dial n p net
    = (None,
       set_connections p (Pool.connections p ++ seq (dials net) n),
       mkNet (dials net + n) (list_to_set (seq (dials net) n) ∪ live net)).
Proof.
  induction n as [|n IH]; intros p net Hacc; cbn [Initialize_loop].
  - cbn [seq]. rewrite app_nil_r, Nat.add_0_r.
    f_equal; [f_equal; now destruct p|].
    destruct net as [dn lv]. cbn. f_equal.
    cbn [list_to_set]. now rewrite union_empty_l_L.
  - unfold DialContext. rewrite (Hacc (dials net)) by lia.
    rewrite IH.
    + cbn. f_equal; [f_equal|].
      * now rewrite <- app_assoc.
      * f_equal; [lia|]. cbn [list_to_set]. set_solver.
    + intros j Hj. cbn in *. apply Hacc. lia.
Qed.

(** A loop that ends without error has had all its dials accepted. *)
Lemma Initialize_loop_success_dials (dial : nat -> string -> option error) (n : nat) :
  ∀ p net p' net',
    Initialize_loop dial n p net = (None, p', net') →
    ∀ j, (dials net ≤ j < dials net + n)%nat → dial j (target p) = None.
Proof.
  induction n as [|n IH]; intros p net p' net' Hrun j Hj; [lia|].
  cbn [Initialize_loop] in Hrun. unfold DialContext in Hrun.
  destruct (dial (dials net) (target p)) as [err|] eqn:Hd; [discriminate Hrun|].
  destruct (decide (j = dials net)) as [->|Hne]; [exact Hd|].
  apply (IH _ _ _ _ Hrun). cbn. lia.
Qed.

(** With the [k]-th dial the first to be refused, the loop stops there:
    it hands back that dial's error, empties the pool, and has closed what
    the pool held and what it opened itself. *)
Lemma Initialize_loop_first_refused (dial : nat -> string -> option error) (n : nat) :
  ∀ p net k e,
    (k < n)%nat →
    (∀ j, (j < k)%nat → dial (dials net + j)%nat (target p) = None) →
    dial (dials net + k)%nat (target p) = Some e →
    Initialize_loop dial n p net
    = (Some e, set_connections p [],
       mkNet (S (dials net + k))
             (live net ∖ list_to_set (connections p ++ seq (dials net) k))).
Proof.
  induction n as [|n IH]; intros p net k e Hk Hbefore Hrefused; [lia|].
  cbn [Initialize_loop]. unfold DialContext.
  destruct k as [|k].
  - rewrite Nat.add_0_r in *. rewrite Hrefused. rewrite CloseAll_eq.
    cbn [dials live seq]. now rewrite app_nil_r.
  - specialize (Hbefore 0%nat ltac:(lia)) as H0. rewrite Nat.add_0_r in H0.
    rewrite H0.
    rewrite (IH (set_connections p (connections p ++ [dials net]))
                (mkNet (S (dials net)) ({[dials net]} ∪ live net)) k e).
    + cbn [dials live connections set_connections target size currentIndex healthChecks].
      replace (S (S (dials net) + k)) with (S (dials net + S k)) by lia.
      replace (({[dials net]} ∪ live net)
               ∖ list_to_set ((connections p ++ [dials net]) ++ seq (S (dials net)) k))
        with (live net ∖ list_to_set (connections p ++ seq (dials net) (S k))).
      * reflexivity.
      * cbn [seq]. rewrite !list_to_set_app_L. cbn [list_to_set]. set_solver.
    + lia.
    + intros j Hj. cbn [dials target set_connections].
      rewrite <- (Hbefore (S j)) by lia. f_equal. lia.
    + cbn [dials target set_connections]. rewrite <- Hrefused. f_equal. lia.
Qed.

(** Of [n] dials either all are accepted or one is the first refused. *)
Lemma first_refused_or_none (f : nat -> option error) (n : nat) :
  (∀ j, (j < n)%nat → f j = None)
  ∨ ∃ k e, (k < n)%nat ∧ (∀ j, (j < k)%nat → f j = None) ∧ f k = Some e.
Proof.
  induction n as [|n [Hall | (k & e & Hk & Hbefore & Hrefused)]].
  - left. intros j Hj. lia.
  - destruct (f n) as [e|] eqn:Hn.
    + right. exists n, e. split_and!; [lia | exact Hall | exact Hn].
    + left. intros j Hj. destruct (decide (j = n)) as [->|Hne]; [exact Hn|].
      apply Hall. lia.
  - right. exists k, e. split_and!; [lia | exact Hbefore | exact Hrefused].
Qed.

(** C1.  [Initialize] on a freshly built pool (no connections yet) of size
    [size p ≥ 0] ends in one of two ways, decided by the dials alone.
    Either every one of its [size p] dials is accepted: it then returns no
    error, the pool holds exactly the [size p] handles just opened, in
    dialling order, and all of them are open.  Or some dial is refused: at
    the first such dial it stops and returns that dial's error, the pool
    holds no connection, and the set of open handles is what it was before
    the call (every connection opened by this attempt has been closed).  A
    refused dial therefore always makes [Initialize] fail, and a partially
    filled pool is never left behind. *)
Theorem Initialize_all_or_nothing (dial : nat -> string -> option error)
        (p : ConnectionPool) (net : Net) :
  connections p = [] →
  0 ≤ size p →
  Net_wf net →
  ((∀ j, (j < Z.to_nat (size p))%nat → dial (dials net + j)%nat (target p) = None)
   ∧ Initialize dial p net
     = (None,
        set_connections p (seq (dials net) (Z.to_nat (size p))),
        mkNet (dials net + Z.to_nat (size p))
              (list_to_set (seq (dials net) (Z.to_nat (size p))) ∪ live net))
   ∧ Z.of_nat (length (connections (Initialize dial p net).1.2)) = size p
   ∧ (∀ c, c ∈ connections (Initialize dial p net).1.2
           → c ∈ live (Initialize dial p net).2))
  ∨ (∃ k e,
        (k < Z.to_nat (size p))%nat
        ∧ (∀ j, (j < k)%nat → dial (dials net + j)%nat (target p) = None)
        ∧ dial (dials net + k)%nat (target p) = Some e
        ∧ Initialize dial p net
          = (Some e, set_connections p [], mkNet (S (dials net + k)) (live net))).
Proof.
  intros Hempty Hsize Hwf. unfold Initialize.
  destruct (first_refused_or_none (fun j => dial (dials net + j)%nat (target p))
                                  (Z.to_nat (size p)))
    as [Hall | (k & e & Hk & Hbefore & Hrefused)].
  - left. split; [exact Hall|].
    rewrite (Initialize_loop_all_accepted dial (Z.to_nat (size p)) p net).
    + rewrite Hempty. cbn [app fst snd connections set_connections live].
      split_and!; [reflexivity | rewrite length_seq; lia |].
      intros c Hc. apply elem_of_union. left. now apply elem_of_list_to_set.
    + intros j Hj. replace j with (dials net + (j - dials net))%nat by lia.
      apply Hall. lia.
  - right. exists k, e. split_and!; [exact Hk | exact Hbefore | exact Hrefused |].
    rewrite (Initialize_loop_first_refused dial _ p net k e Hk Hbefore Hrefused).
    rewrite Hempty. cbn [app]. do 2 f_equal.
    apply set_eq. intros c. rewrite elem_of_difference, elem_of_list_to_set, elem_of_seq.
    split; [tauto|]. intros Hc. split; [exact Hc|].
    specialize (Hwf c Hc). lia.
Qed.

(** Three connections asked for, the third dial refused: the two handles
    opened on the way are closed again and the pool stays empty. *)
Example Initialize_third_dial_refused :
  Initialize (fun k _ => if (k =? 2)%nat then Some (ErrorsNew "connection refused") else None)
             (mkPool "svc:50051" [] 0 3 true) (mkNet 0 ∅)
  = (Some (ErrorsNew "connection refused"), mkPool "svc:50051" [] 0 3 true, mkNet 3 ∅).
Proof. vm_compute. reflexivity. Qed.

Example Initialize_three_dials_accepted :
  Initialize (fun _ _ => None) (mkPool "svc:50051" [] 0 3 true) (mkNet 0 ∅)
  = (None, mkPool "svc:50051" [0; 1; 2]%nat 0 3 true, mkNet 3 {[0; 1; 2]}%nat).
Proof. vm_compute. reflexivity. Qed.

(** The pool theorem at work: three connections wanted, the third dial
    refused. *)
Lemma Initialize_all_or_nothing_witness :
  Initialize (fun k _ => if (k =? 2)%nat then Some (ErrorsNew "connection refused") else None)
             (mkPool "svc:50051" [] 0 3 true) (mkNet 0 ∅)
  = (Some (ErrorsNew "connection refused"), mkPool "svc:50051" [] 0 3 true, mkNet 3 ∅).
Proof.
  assert (Hwf : Net_wf (mkNet 0 ∅)) by (intros c Hc; cbn in Hc; set_solver).
  destruct (Initialize_all_or_nothing
              (fun k _ => if (k =? 2)%nat then Some (ErrorsNew "connection refused") else None)
              (mkPool "svc:50051" [] 0 3 true) (mkNet 0 ∅)
              eq_refl ltac:(cbn; lia) Hwf)
    as [(Hall & _) | (k & e & Hk & Hbefore & Hrefused & Heq)].
  - specialize (Hall 2%nat ltac:(cbn; lia)). discriminate Hall.
  - rewrite Heq. cbn [dials Nat.add] in Hrefused.
    destruct (Nat.eqb_spec k 2) as [->|_]; [|discriminate Hrefused].
    injection Hrefused as <-. reflexivity.
Defined.

(** *** Round-robin [Get] *)

Lemma Get_empty (p : ConnectionPool) :
  connections p = [] →
  Get p = (Err (ErrorsNew "no connections available in pool"), p).
Proof. intros H. unfold Get. rewrite H. reflexivity. Qed.

(** One call with the cursor on a valid position [c]. *)
Lemma Get_at (p : ConnectionPool) (c : nat) (x : nat) :
  currentIndex p = Z.of_nat c →
  connections p !! c = Some x →
  Get p = (Ok x, set_currentIndex p
                   (Z.of_nat (S c mod length (connections p)))).
Proof.
  intros Hcur Hx. pose proof (lookup_lt_Some _ _ _ Hx) as Hlt.
  unfold Get, index. rewrite Hcur.
  destruct (Z.eqb_spec (Z.of_nat (length (connections p))) 0) as [E|_]; [lia|].
  destruct (Z.leb_spec 0 (Z.of_nat c)); [|lia].
  destruct (Z.ltb_spec (Z.of_nat c) (Z.of_nat (length (connections p)))); [|lia].
  cbn [andb]. rewrite Nat2Z.id, Hx. do 2 f_equal.
  rewrite Z.rem_mod_nonneg by lia.
  rewrite Nat2Z.inj_mod. f_equal. lia.
Qed.

Lemma set_currentIndex_connections (p : ConnectionPool) (i : Z) :
  connections (set_currentIndex p i) = connections p.
Proof. reflexivity. Qed.

(** [k] calls starting at cursor [c], as long as they do not run past the
    end of the slice: they return the [k] connections from [c] on. *)
Lemma GetN_run (k : nat) :
  ∀ p c,
    currentIndex p = Z.of_nat c →
    (c + k ≤ length (connections p))%nat →
    (c < length (connections p))%nat →
    GetN k p = (Ok <$> take k (drop c (connections p)),
                set_currentIndex p (Z.of_nat ((c + k) mod length (connections p)))).
Proof.
  induction k as [|k IH]; intros p c Hcur Hle Hc.
  - cbn [GetN take fmap list_fmap]. f_equal.
    rewrite Nat.add_0_r, Nat.mod_small by lia.
    rewrite <- Hcur. now destruct p.
  - destruct (lookup_lt_is_Some_2 _ _ Hc) as [x Hx].
    cbn [GetN]. rewrite (Get_at p c x Hcur Hx).
    set (c' := (S c mod length (connections p))%nat).
    assert (Hc' : (c' + k ≤ length (connections p))%nat
                  ∧ (c' < length (connections p))%nat
                  ∧ ((c' + k) mod length (connections p)
                     = (c + S k) mod length (connections p))%nat
                  ∧ take k (drop c' (connections p)) = take k (drop (S c) (connections p))).
    { subst c'. destruct (decide (S c = length (connections p))) as [E|N].
      - rewrite E, Nat.Div0.mod_same.
        assert (k = 0%nat) as -> by lia.
        split_and!; [lia | lia | | reflexivity].
        replace (c + 1)%nat with (length (connections p)) by lia.
        rewrite Nat.Div0.mod_same. apply Nat.Div0.mod_0_l.
      - rewrite Nat.mod_small by lia.
        split_and!; [lia | lia | f_equal; lia | reflexivity]. }
    destruct Hc' as (Hle' & Hlt' & Hmod & Htake).
    rewrite (IH (set_currentIndex p (Z.of_nat c')) c' eq_refl);
      rewrite ?set_currentIndex_connections; [|exact Hle'|exact Hlt'].
    rewrite Hmod, Htake.
    rewrite (drop_S _ x c Hx). cbn [take fmap list_fmap]. reflexivity.
Qed.

Lemma GetN_app (k1 k2 : nat) :
  ∀ p, GetN (k1 + k2) p =
       ((GetN k1 p).1 ++ (GetN k2 (GetN k1 p).2).1, (GetN k2 (GetN k1 p).2).2).
Proof.
  induction k1 as [|k1 IH]; intros p; cbn [GetN Nat.add].
  - cbn. now destruct (GetN k2 p).
  - destruct (Get p) as [r p1]. rewrite IH.
    destruct (GetN k1 p1) as [rs p2]. cbn.
    destruct (GetN k2 p2) as [rs' p3]. reflexivity.
Qed.

(** C3.  On a pool holding N > 0 connections with the cursor at 0, N+1
    successive calls of [Get] all succeed and return the connections at
    positions 0, 1, ..., N-1 and then 0 again, leaving the cursor at
    [1 mod N]; and [Get] on a pool without connections returns the error
    "no connections available in pool" and leaves the pool as it is. *)
Theorem Get_round_robin (p : ConnectionPool) :
  connections p ≠ [] →
  currentIndex p = 0 →
  GetN (S (length (connections p))) p
  = (Ok <$> (connections p ++ take 1 (connections p)),
     set_currentIndex p (1 mod Z.of_nat (length (connections p))))
  ∧ ∀ q, connections q = [] →
         Get q = (Err (ErrorsNew "no connections available in pool"), q).
Proof.
  intros Hne Hcur. split; [|exact Get_empty].
  assert (Hpos : (0 < length (connections p))%nat).
  { destruct (connections p); [congruence | cbn; lia]. }
  replace (S (length (connections p))) with (length (connections p) + 1)%nat by lia.
  rewrite GetN_app.
  rewrite (GetN_run (length (connections p)) p 0 Hcur) by lia.
  cbn [fst snd]. rewrite Nat.add_0_l, Nat.Div0.mod_same.
  rewrite (GetN_run 1 (set_currentIndex p (Z.of_nat 0)) 0 eq_refl);
    rewrite ?set_currentIndex_connections; [|lia|exact Hpos].
  cbn [fst snd drop]. rewrite firstn_all, fmap_app. f_equal.
  cbn [set_currentIndex target connections size healthChecks]. f_equal.
  rewrite Nat2Z.inj_mod. reflexivity.
Qed.

Example Get_cycles_through_three :
  (GetN 4 (mkPool "svc:50051" [10; 11; 12]%nat 0 3 true)).1
  = [Ok 10%nat; Ok 11%nat; Ok 12%nat; Ok 10%nat].
Proof. reflexivity. Qed.

(** Four calls on a pool of three. *)
Lemma Get_round_robin_witness :
  connections (mkPool "svc:50051" [10; 11; 12]%nat 0 3 true) ≠ []
  ∧ currentIndex (mkPool "svc:50051" [10; 11; 12]%nat 0 3 true) = 0
  ∧ GetN 4 (mkPool "svc:50051" [10; 11; 12]%nat 0 3 true)
    = ([Ok 10%nat; Ok 11%nat; Ok 12%nat; Ok 10%nat],
       mkPool "svc:50051" [10; 11; 12]%nat 1 3 true).
Proof.
  split; [discriminate|]. split; [reflexivity|].
  exact (proj1 (Get_round_robin (mkPool "svc:50051" [10; 11; 12]%nat 0 3 true)
                                ltac:(discriminate) eq_refl)).
Defined.

End PoolFacts.

(** ** The gRPC adapter: errors returned by [Call] *)

Module GRPCFacts.
Import Go Pool GRPC.

(** The error built for an error that carries a status. *)
Lemma mapGRPCError_carried (e : error) :
  (FromError e).2 = true →
  ∃ kind,
    kind ∈ canonical_kinds
    ∧ mapGRPCError (Some e)
      = Some (BridgeErr (mkBridgeError kind (st_message (FromError e).1)
                           [("code", VInt (st_code (FromError e).1));
                            ("details", VMaps (extractErrorDetails (FromError e).1))])).
Proof.
  intros Hok. unfold mapGRPCError.
  destruct (FromError e) as [st ok]. cbn [fst snd] in *. subst ok.
  unfold NewBridgeError, canonical_kinds. cbn [negb].
  repeat match goal with
         | |- context [if ?c =? ?k then _ else _] =>
             destruct (Z.eqb_spec c k) as [->|?]
         end;
    eexists; (split; [|reflexivity]); set_solver.
Qed.

Lemma mapGRPCError_status (st : Status) :
  ∃ kind,
    kind ∈ canonical_kinds
    ∧ mapGRPCError (Some (StatusErr st))
      = Some (BridgeErr (mkBridgeError kind (st_message st)
                           [("code", VInt (st_code st));
                            ("details", VMaps (extractErrorDetails st))])).
Proof. exact (mapGRPCError_carried (StatusErr st) eq_refl). Qed.

Lemma mapGRPCError_no_status (e : error) :
  (FromError e).2 = false →
  mapGRPCError (Some e) = Some (ErrorsNew "unknown error").
Proof.
  intros Hno. unfold mapGRPCError.
  destruct (FromError e) as [st ok]. cbn [snd] in Hno. now subst ok.
Qed.

Lemma mapGRPCError_nil : mapGRPCError None = None.
Proof. reflexivity. Qed.

Lemma is_canonical_bridge (kind msg : string) (details : list (string * value)) :
  kind ∈ canonical_kinds →
  is_canonical (BridgeErr (mkBridgeError kind msg details)) = true.
Proof. intros H. cbn. now apply bool_decide_eq_true. Qed.

(** The code of each status maps to the kind of the same name. *)
Example mapGRPCError_NotFound :
  mapGRPCError (Some (StatusErr (mkStatus codes.NotFound "no such user"
                                          [RequestInfo "req-7" "shard-2"])))
  = Some (BridgeErr (mkBridgeError "NOT_FOUND" "no such user"
            [("code", VInt 5);
             ("details", VMaps [[("type", VStr "RequestInfo");
                                 ("requestId", VStr "req-7");
                                 ("servingData", VStr "shard-2")]])])).
Proof. reflexivity. Qed.

Example mapGRPCError_unlisted_code :
  mapGRPCError (Some (StatusErr (mkStatus 42 "odd" [])))
  = Some (BridgeErr (mkBridgeError "UNKNOWN" "odd"
            [("code", VInt 42); ("details", VMaps [])])).
Proof. reflexivity. Qed.

(** A status wrapped with [%w] keeps its code and details; the message is
    the whole text of the wrapper. *)
Example mapGRPCError_wrapped_status :
  mapGRPCError
    (Some (Wrap (StatusErr (mkStatus codes.NotFound "no such user" []))
                "lookup: rpc error: code = NotFound desc = no such user"))
  = Some (BridgeErr (mkBridgeError "NOT_FOUND"
            "lookup: rpc error: code = NotFound desc = no such user"
            [("code", VInt 5); ("details", VMaps [])]))
  ∧ grpcStatusCode
      (Some (Wrap (StatusErr (mkStatus codes.NotFound "no such user" []))
                  "lookup: rpc error: code = NotFound desc = no such user"))
    = "NotFound".
Proof. split; reflexivity. Qed.

Section Client.

Variable dial : nat -> string -> option error.
Variable LoadX509KeyPair : string -> string -> option error.
Variable Invoke : nat -> string -> option error.

(** C4 (as amended).  [conn.Invoke] returns errors that carry a gRPC
    status.  Under that condition a failing [Call] returns one of two
    errors, by the place of the failure.  (1) No connection could be
    obtained: the error wraps the sentinel [ErrConnectionFailed], its text
    naming the cause; it is not an error of the bridge taxonomy.  (2) The
    remote invocation failed: the error is a [BridgeError] of one of the
    sixteen canonical kinds, the one [mapGRPCError] gives the status code,
    with the message, the numeric code and the extracted details of the
    status the invocation error carries.  These
    are the only failures, and in no case is the raw status error itself
    returned. *)
Theorem Call_failure_shape (a : GRPCAdapter) (tgt method : string) (net : Net) :
  (∀ conn m raw, Invoke conn m = Some raw → (FromError raw).2 = true) →
  (∀ cause,
      (getConnection dial LoadX509KeyPair a tgt net).1.1 = Err cause →
      (Call dial LoadX509KeyPair Invoke a tgt method net).1.1
      = Err (Wrap ErrConnectionFailed
                  ("failed to establish gRPC connection: " +:+ Error cause))
      ∧ is_canonical (Wrap ErrConnectionFailed
                           ("failed to establish gRPC connection: " +:+ Error cause))
        = false)
  ∧ (∀ conn raw,
        (getConnection dial LoadX509KeyPair a tgt net).1.1 = Ok conn →
        Invoke conn method = Some raw →
        ∃ kind,
          kind ∈ canonical_kinds
          ∧ mapGRPCError (Some raw)
            = Some (BridgeErr
                      (mkBridgeError kind (st_message (FromError raw).1)
                         [("code", VInt (st_code (FromError raw).1));
                          ("details", VMaps (extractErrorDetails (FromError raw).1))]))
          ∧ (Call dial LoadX509KeyPair Invoke a tgt method net).1.1
            = Err (BridgeErr
                     (mkBridgeError kind (st_message (FromError raw).1)
                        [("code", VInt (st_code (FromError raw).1));
                         ("details", VMaps (extractErrorDetails (FromError raw).1))]))
          ∧ is_canonical
              (BridgeErr
                 (mkBridgeError kind (st_message (FromError raw).1)
                    [("code", VInt (st_code (FromError raw).1));
                     ("details", VMaps (extractErrorDetails (FromError raw).1))]))
            = true)
  ∧ (∀ e,
        (Call dial LoadX509KeyPair Invoke a tgt method net).1.1 = Err e →
        ((∃ cause, (getConnection dial LoadX509KeyPair a tgt net).1.1 = Err cause)
         ∨ (∃ conn raw,
               (getConnection dial LoadX509KeyPair a tgt net).1.1 = Ok conn
               ∧ Invoke conn method = Some raw))
        ∧ ∀ st, e ≠ StatusErr st).
Proof.
  intros Hstatus. unfold Call.
  destruct (getConnection dial LoadX509KeyPair a tgt net) as [[r a1] net1].
  cbn [fst]. split_and!.
  - intros cause ->. cbn [fst]. split; reflexivity.
  - intros conn raw -> Hinv. rewrite Hinv.
    destruct (mapGRPCError_carried raw (Hstatus _ _ _ Hinv)) as (kind & Hkind & Heq).
    rewrite Heq. cbn [fst]. exists kind.
    split_and!; [exact Hkind | reflexivity | reflexivity | now apply is_canonical_bridge].
  - intros e He. destruct r as [conn | cause | r].
    + destruct (Invoke conn method) as [raw|] eqn:Hinv.
      * destruct (mapGRPCError_carried raw (Hstatus _ _ _ Hinv)) as (kind & _ & Heq).
        rewrite Heq in He. cbn [fst] in He. inversion He; subst e.
        split; [right; eauto | intros st; discriminate].
      * discriminate He.
    + cbn [fst] in He. inversion He; subst e.
      split; [left; eauto | intros st; discriminate].
    + discriminate He.
Qed.

End Client.

(** C4, counterexample.  The default adapter, every dial refused: [Call]
    fails, and the error it returns wraps [ErrConnectionFailed]; it is not a
    [BridgeError], hence none of the sixteen canonical kinds. *)
Lemma Call_connection_failure_not_canonical :
  (Call (fun _ _ => Some (ErrorsNew "connection refused"))
        (fun _ _ => None) (fun _ _ => None)
        (NewGRPCAdapter None None) "svc:50051" "/bridge.Bridge/SendMessage"
        (mkNet 0 ∅)).1.1
  = Err (Wrap ErrConnectionFailed
           "failed to establish gRPC connection: failed to initialize connection pool: connection refused")
  ∧ is_canonical
      (Wrap ErrConnectionFailed
         "failed to establish gRPC connection: failed to initialize connection pool: connection refused")
    = false.
Proof. split; vm_compute; reflexivity. Qed.

(** A call on an established connection that the server answers with
    [Unavailable]. *)
Lemma Call_failure_shape_witness :
  (Call (fun _ _ => None) (fun _ _ => None)
        (fun _ _ => Some (StatusErr (mkStatus codes.Unavailable "try later" [])))
        (mkAdapter DefaultGRPCAdapterConfig
                   {[ "svc:50051" := mkPool "svc:50051" [0%nat] 0 1 true ]} None)
        "svc:50051" "/bridge.Bridge/SendMessage" (mkNet 1 {[0%nat]})).1.1
  = Err (BridgeErr (mkBridgeError "UNAVAILABLE" "try later"
                      [("code", VInt 14); ("details", VMaps [])])).
Proof.
  destruct (Call_failure_shape
              (fun _ _ => None) (fun _ _ => None)
              (fun _ _ => Some (StatusErr (mkStatus codes.Unavailable "try later" [])))
              (mkAdapter DefaultGRPCAdapterConfig
                         {[ "svc:50051" := mkPool "svc:50051" [0%nat] 0 1 true ]} None)
              "svc:50051" "/bridge.Bridge/SendMessage" (mkNet 1 {[0%nat]})
              ltac:(intros conn m raw [= <-]; reflexivity))
    as (_ & Hinvoke & _).
  assert (Hconn : (getConnection (fun _ _ => None) (fun _ _ => None)
                     (mkAdapter DefaultGRPCAdapterConfig
                        {[ "svc:50051" := mkPool "svc:50051" [0%nat] 0 1 true ]} None)
                     "svc:50051" (mkNet 1 {[0%nat]})).1.1 = Ok 0%nat)
    by (vm_compute; reflexivity).
  destruct (Hinvoke 0%nat (StatusErr (mkStatus codes.Unavailable "try later" []))
                    Hconn eq_refl)
    as (kind & _ & Hmap & Heq & _).
  rewrite Heq. vm_compute in Hmap. injection Hmap as <-. reflexivity.
Defined.

(** ** The gRPC adapter: recovery from a panicking handler *)

Lemma counter_IncCounter (m : Collector) (name name' : string)
      (labels labels' : list (string * string)) :
  counter (IncCounter name labels m) name' labels'
  = if decide ((name, labels) = (name', labels'))
    then S (counter m name labels) else counter m name' labels'.
Proof.
  unfold counter at 1. unfold IncCounter. cbn [counters].
  rewrite lookup_insert. destruct (decide ((name, labels) = (name', labels'))); reflexivity.
Qed.

Lemma counter_ObserveHistogram (m : Collector) (name name' : string)
      (labels labels' : list (string * string)) :
  counter (ObserveHistogram name labels m) name' labels' = counter m name' labels'.
Proof. reflexivity. Qed.

(** C5 (as amended).  When the handler panics, [recoveryInterceptor] does
    not let the panic through: it returns a [nil] response and a status error
    of code INTERNAL ("internal error").  If the adapter has a metrics
    collector, the counter [grpc.panics_total] labelled with the method is
    one higher than the handler left it and every other counter and
    histogram is as the handler left it; if the adapter has no collector
    ([metrics] is [nil]) nothing is counted. *)
Theorem recoveryInterceptor_recovers (ctx : Ctx) (req : string) (info : UnaryServerInfo)
        (handler : UnaryHandler) (a a1 : GRPCAdapter) (r : string) :
  handler ctx req a = (Panics r, a1) →
  ∃ a',
    recoveryInterceptor ctx req info handler a
    = (Return None (Some (StatusErr (mkStatus codes.Internal "internal error" []))), a')
    ∧ config a' = config a1
    ∧ connections a' = connections a1
    ∧ match metrics a1 with
      | Some m =>
          ∃ m', metrics a' = Some m'
                ∧ counter m' "grpc.panics_total" [("method", FullMethod info)]
                  = S (counter m "grpc.panics_total" [("method", FullMethod info)])
                ∧ (∀ name labels,
                      (name, labels) ≠ ("grpc.panics_total", [("method", FullMethod info)]) →
                      counter m' name labels = counter m name labels)
                ∧ observations m' = observations m
      | None => metrics a' = None
      end.
Proof.
  intros Hpanic. unfold recoveryInterceptor. rewrite Hpanic.
  eexists. split; [reflexivity|]. split; [reflexivity|]. split; [reflexivity|].
  cbn. destruct (metrics a1) as [m|]; cbn; [|reflexivity].
  eexists. split; [reflexivity|]. split_and!.
  - rewrite counter_IncCounter. now rewrite decide_True.
  - intros name labels Hne. rewrite counter_IncCounter.
    rewrite decide_False; [reflexivity|]. congruence.
  - reflexivity.
Qed.

(** A handler that returns is passed through untouched. *)
Lemma recoveryInterceptor_transparent (ctx : Ctx) (req : string) (info : UnaryServerInfo)
      (handler : UnaryHandler) (a a1 : GRPCAdapter)
      (resp : option string) (err : option error) :
  handler ctx req a = (Return resp err, a1) →
  recoveryInterceptor ctx req info handler a = (Return resp err, a1).
Proof. intros H. unfold recoveryInterceptor. now rewrite H. Qed.

(** Through the whole default chain the caller of a panicking handler gets
    the INTERNAL status error, and an adapter with a collector has counted
    the panic once: the outer interceptors touch other counters only. *)
Lemma default_chain_recovers (now : Z) (ctx : Ctx) (req : string) (info : UnaryServerInfo)
      (handler : UnaryHandler) (a a1 : GRPCAdapter) (m : Collector) (r : string) :
  handler (WithTimeout now ctx (Timeout (config a))) req a = (Panics r, a1) →
  metrics a1 = Some m →
  ∃ a',
    chain (default_interceptors now) info handler ctx req a
    = (Return None (Some internal_error), a')
    ∧ panics_total a' (FullMethod info)
      = Some (S (counter m "grpc.panics_total" [("method", FullMethod info)])).
Proof.
  intros Hpanic Hm.
  cbn [chain default_interceptors].
  unfold loggingInterceptor, metricsInterceptor, recoveryInterceptor, timeoutInterceptor.
  rewrite Hpanic. eexists. split; [reflexivity|].
  unfold panics_total, withMetrics. cbn. rewrite Hm. cbn. f_equal.
  repeat (rewrite counter_IncCounter || rewrite counter_ObserveHistogram).
  repeat case_decide; congruence.
Qed.

(** C5, counterexample.  An adapter built without a collector, as
    [NewGRPCAdapter] allows: the panic is turned into the INTERNAL error,
    but no [grpc.panics_total] counter exists afterwards, so none was
    incremented. *)
Lemma recoveryInterceptor_counts_nothing_without_collector :
  recoveryInterceptor (mkCtx None) "ping" (mkInfo "/bridge.Bridge/SendMessage")
                      (fun _ _ a => (Panics "nil map", a))
                      (NewGRPCAdapter None None)
  = (Return None (Some internal_error), NewGRPCAdapter None None)
  ∧ panics_total (NewGRPCAdapter None None) "/bridge.Bridge/SendMessage" = None.
Proof. split; reflexivity. Qed.

(** A panicking handler under an adapter with an empty collector: the
    counter reads one afterwards. *)
Lemma recoveryInterceptor_recovers_witness :
  ∃ a',
    recoveryInterceptor (mkCtx None) "ping" (mkInfo "/bridge.Bridge/SendMessage")
                        (fun _ _ a => (Panics "nil map", a))
                        (NewGRPCAdapter None (Some (mkCollector ∅ ∅)))
    = (Return None (Some (StatusErr (mkStatus codes.Internal "internal error" []))), a')
    ∧ panics_total a' "/bridge.Bridge/SendMessage" = Some 1%nat.
Proof.
  destruct (recoveryInterceptor_recovers
              (mkCtx None) "ping" (mkInfo "/bridge.Bridge/SendMessage")
              (fun _ _ a => (Panics "nil map", a))
              (NewGRPCAdapter None (Some (mkCollector ∅ ∅)))
              (NewGRPCAdapter None (Some (mkCollector ∅ ∅)))
              "nil map" eq_refl)
    as (a' & Hret & _ & _ & m' & Hm' & Hcount & _).
  exists a'. split; [exact Hret|].
  unfold panics_total. rewrite Hm'. cbn [fmap option_fmap option_map FullMethod] in *.
  f_equal. exact Hcount.
Defined.

End GRPCFacts.

(** ** The discovery registry *)

Module DiscoveryFacts.
Import Go Discovery.

(** *** Non-blocking delivery *)

Lemma trySend_ticks (c : nat) (ev : ServiceChangeEvent) (w : World) :
  ticks (trySend c ev w).2 = ticks w.
Proof.
  unfold trySend. destruct (chans w !! c) as [ch|]; [|reflexivity].
  destruct (length (chan_buf ch) <? chan_cap ch)%nat; reflexivity.
Qed.

Lemma trySend_queued (c c' : nat) (ev : ServiceChangeEvent) (w : World) :
  queued (trySend c ev w).2 c'
  = if decide (c = c') then
      if decide (0 < room w c)%nat then queued w c ++ [ev] else queued w c
    else queued w c'.
Proof.
  unfold trySend, queued, room.
  destruct (chans w !! c) as [ch|] eqn:Hc.
  - destruct (Nat.ltb_spec (length (chan_buf ch)) (chan_cap ch)); cbn.
    + rewrite lookup_insert. destruct (decide (c = c')) as [<-|Hne].
      * rewrite decide_True by lia. reflexivity.
      * reflexivity.
    + destruct (decide (c = c')) as [<-|Hne]; [|reflexivity].
      rewrite Hc, decide_False by lia. reflexivity.
  - cbn. destruct (decide (c = c')) as [<-|Hne]; [|reflexivity].
    rewrite Hc. now destruct (decide (0 < 0)%nat).
Qed.

Lemma trySend_room (c c' : nat) (ev : ServiceChangeEvent) (w : World) :
  room (trySend c ev w).2 c'
  = if decide (c = c') then Nat.pred (room w c) else room w c'.
Proof.
  unfold trySend, room.
  destruct (chans w !! c) as [ch|] eqn:Hc.
  - destruct (Nat.ltb_spec (length (chan_buf ch)) (chan_cap ch)); cbn.
    + rewrite lookup_insert. destruct (decide (c = c')) as [<-|Hne]; [|reflexivity].
      cbn. rewrite length_app. cbn. lia.
    + destruct (decide (c = c')) as [<-|Hne]; [|reflexivity].
      rewrite Hc. lia.
  - cbn. destruct (decide (c = c')) as [<-|Hne]; [|reflexivity].
    now rewrite Hc.
Qed.

(** Delivery of one event along a list of listeners. *)
Lemma deliver_queued (ev : ServiceChangeEvent) (l : list (string * nat)) :
  ∀ w c,
    queued (foldl (fun w '(id, listener) => (trySend listener ev w).2) w l) c
    = queued w c
      ++ replicate (Nat.min (room w c) (length (filter (fun kv => kv.2 = c) l))) ev.
Proof.
  induction l as [|[id c0] l IH]; intros w c; cbn [foldl].
  - cbn. rewrite Nat.min_0_r. cbn. now rewrite app_nil_r.
  - rewrite IH, trySend_queued, trySend_room.
    rewrite filter_cons. cbn [snd].
    destruct (decide (c0 = c)) as [->|Hne].
    + destruct (decide (0 < room w c)%nat) as [Hroom|Hfull].
      * cbn [length]. rewrite <- app_assoc. f_equal. cbn [app].
        replace (Nat.min (room w c) (S (length (filter (λ kv, kv.2 = c) l))))
          with (S (Nat.min (Nat.pred (room w c)) (length (filter (λ kv, kv.2 = c) l))))
          by lia.
        reflexivity.
      * f_equal. f_equal. lia.
    + reflexivity.
Qed.

Lemma deliver_ticks (ev : ServiceChangeEvent) (l : list (string * nat)) :
  ∀ w, ticks (foldl (fun w '(id, listener) => (trySend listener ev w).2) w l) = ticks w.
Proof.
  induction l as [|[id c0] l IH]; intros w; cbn [foldl]; [reflexivity|].
  now rewrite IH, trySend_ticks.
Qed.

Lemma deliver_room (ev : ServiceChangeEvent) (l : list (string * nat)) :
  ∀ w c,
    room (foldl (fun w '(id, listener) => (trySend listener ev w).2) w l) c
    = (room w c - length (filter (fun kv => kv.2 = c) l))%nat.
Proof.
  induction l as [|[id c0] l IH]; intros w c; cbn [foldl].
  - cbn. lia.
  - rewrite IH, trySend_room, filter_cons. cbn [snd].
    destruct (decide (c0 = c)) as [->|Hne]; [cbn [length]; lia | reflexivity].
Qed.

Lemma notifyListeners_room (d : DiscoveryService) (ev : ServiceChangeEvent) (w : World)
      (c : nat) :
  room (notifyListeners d ev w) c = (room w c - bound_to d c)%nat.
Proof. unfold notifyListeners, bound_to. apply deliver_room. Qed.

Lemma notifyListeners_emitted (d : DiscoveryService) (ev : ServiceChangeEvent) (w : World) :
  emitted_once d ev w (notifyListeners d ev w).
Proof. intros c. unfold notifyListeners, bound_to. apply deliver_queued. Qed.

Lemma notifyListeners_ticks (d : DiscoveryService) (ev : ServiceChangeEvent) (w : World) :
  ticks (notifyListeners d ev w) = ticks w.
Proof. apply deliver_ticks. Qed.

Lemma queued_tick (w : World) (c : nat) : queued (tick w) c = queued w c.
Proof. reflexivity. Qed.

Lemma room_tick (w : World) (c : nat) : room (tick w) c = room w c.
Proof. reflexivity. Qed.

Lemma emitted_once_tick (d : DiscoveryService) (ev : ServiceChangeEvent) (w : World) :
  emitted_once d ev w (notifyListeners d ev (tick w)).
Proof.
  intros c. rewrite (notifyListeners_emitted d ev (tick w) c).
  now rewrite queued_tick, room_tick.
Qed.

(** A listener bound to a channel counts among those bound to it. *)
Lemma bound_to_pos (d : DiscoveryService) (lid : string) (c : nat) :
  eventListeners d !! lid = Some c → (0 < bound_to d c)%nat.
Proof.
  intros H. unfold bound_to.
  assert (Hin : (lid, c) ∈ filter (fun kv : string * nat => kv.2 = c)
                                  (map_to_list (eventListeners d))).
  { apply list_elem_of_filter. split; [reflexivity|].
    now apply elem_of_map_to_list. }
  destruct (filter _ _); [inversion Hin | cbn; lia].
Qed.

Lemma has_room_pos (w : World) (c : nat) : has_room w c ↔ (0 < room w c)%nat.
Proof.
  unfold has_room, room. split.
  - intros (ch & -> & Hlt). lia.
  - destruct (chans w !! c) as [ch|]; [|lia]. intros H. exists ch. split; [reflexivity|lia].
Qed.

(** Every listener whose channel has room receives the event: no filter is
    consulted on the way. *)
Lemma notifyListeners_reaches (d : DiscoveryService) (ev : ServiceChangeEvent)
      (w : World) (lid : string) (c : nat) :
  eventListeners d !! lid = Some c →
  has_room w c →
  ∃ k, queued (notifyListeners d ev w) c = queued w c ++ ev :: replicate k ev.
Proof.
  intros Hl Hroom. apply has_room_pos in Hroom. apply bound_to_pos in Hl.
  rewrite (notifyListeners_emitted d ev w c).
  destruct (Nat.min (room w c) (bound_to d c)) as [|k] eqn:E; [lia|].
  exists k. reflexivity.
Qed.

(** The same, for a world in which clock readings were taken since. *)
Lemma notifyListeners_queues (d : DiscoveryService) (ev : ServiceChangeEvent)
      (w w' : World) (lid : string) (c : nat) :
  eventListeners d !! lid = Some c →
  has_room w c →
  chans w' = chans w →
  ev ∈ queued (notifyListeners d ev w') c.
Proof.
  intros Hl Hroom Hch.
  assert (Hroom' : has_room w' c) by (unfold has_room; now rewrite Hch).
  destruct (notifyListeners_reaches d ev w' lid c Hl Hroom') as [k Hk].
  rewrite Hk. apply elem_of_app. right. apply list_elem_of_here.
Qed.

(** A full channel loses the event and keeps its queue. *)
Lemma notifyListeners_full (d : DiscoveryService) (ev : ServiceChangeEvent)
      (w : World) (c : nat) :
  room w c = 0%nat → queued (notifyListeners d ev w) c = queued w c.
Proof.
  intros H. rewrite (notifyListeners_emitted d ev w c), H. cbn. apply app_nil_r.
Qed.

(** *** Registration *)

Lemma valid_check (info : ServiceInfo) :
  valid info →
  (ID info =? "")%string || (Name info =? "")%string
  || (Address info =? "")%string || (Port info =? 0) = false.
Proof.
  intros (Hid & Hname & Haddr & Hport).
  destruct (String.eqb_spec (ID info) ""); [contradiction|].
  destruct (String.eqb_spec (Name info) ""); [contradiction|].
  destruct (String.eqb_spec (Address info) ""); [contradiction|].
  destruct (Z.eqb_spec (Port info) 0); [contradiction|].
  reflexivity.
Qed.

Lemma fresh_entry_ID (d : DiscoveryService) (info : ServiceInfo) (now : Z) :
  ID (fresh_entry d info now) = ID info.
Proof. unfold fresh_entry. now destruct (Status info =? "")%string. Qed.

Section Clock.

Variable clock : nat -> Z.

(** Re-registration: the entry is overwritten and one [updated] event goes
    out. *)
Lemma RegisterService_existing (d : DiscoveryService) (info old : ServiceInfo) (w : World) :
  initialized d = true →
  valid info →
  services d !! ID info = Some old →
  RegisterService clock d info w
  = (None,
     incConnectionsTotal (set_services d (<[ID info := info]> (services d))),
     notifyListeners (set_services d (<[ID info := info]> (services d)))
                     (mkEvent ServiceChangeTypeUpdated info (millis (clock (ticks w))))
                     (tick w)).
Proof.
  intros Hinit Hvalid Hold. unfold RegisterService.
  rewrite Hinit, (valid_check info Hvalid), Hold. reflexivity.
Qed.

(** First registration: the completed entry is inserted and one [added]
    event goes out. *)
Lemma RegisterService_fresh (d : DiscoveryService) (info : ServiceInfo) (w : World) :
  initialized d = true →
  valid info →
  services d !! ID info = None →
  RegisterService clock d info w
  = (None,
     incConnectionsTotal
       (set_services d (<[ID info := fresh_entry d info (millis (clock (ticks w)))]>
                          (services d))),
     notifyListeners
       (set_services d (<[ID info := fresh_entry d info (millis (clock (ticks w)))]>
                          (services d)))
       (mkEvent ServiceChangeTypeAdded (fresh_entry d info (millis (clock (ticks w))))
                (millis (clock (S (ticks w)))))
       (tick (tick w))).
Proof.
  intros Hinit Hvalid Hnew. unfold RegisterService.
  rewrite Hinit, (valid_check info Hvalid), Hnew. cbn [negb].
  unfold Now. cbn [ticks chans].
  change (set_LastUpdated
            (if (Status info =? "")%string
             then set_Status info (DefaultServiceStatus (config d)) else info)
            (millis (clock (ticks w))))
    with (fresh_entry d info (millis (clock (ticks w)))).
  rewrite fresh_entry_ID. reflexivity.
Qed.

Lemma RegisterService_invalid (d : DiscoveryService) (info : ServiceInfo) (w : World) :
  initialized d = true →
  ID info = "" ∨ Name info = "" ∨ Address info = "" ∨ Port info = 0 →
  RegisterService clock d info w = (Some ErrInvalidServiceInfo, d, w).
Proof.
  intros Hinit H. unfold RegisterService. rewrite Hinit. cbn [negb].
  assert ((ID info =? "")%string || (Name info =? "")%string
          || (Address info =? "")%string || (Port info =? 0) = true) as ->; [|reflexivity].
  destruct H as [H | [H | [H | H]]]; rewrite H; cbn;
    rewrite ?orb_true_r; reflexivity.
Qed.

Lemma emitted_once_listeners (d d' : DiscoveryService) (ev : ServiceChangeEvent)
      (w w' : World) :
  eventListeners d' = eventListeners d →
  emitted_once d' ev w w' → emitted_once d ev w w'.
Proof.
  intros Hl H c. rewrite (H c). unfold bound_to. now rewrite Hl.
Qed.

(** C2.  In an initialized registry, registering two valid [ServiceInfo]
    values with the same ID one after the other succeeds both times and
    leaves the listeners as they were.  After the second call the service
    map has the same keys, hence as many entries, as after the first, and
    the entry under the ID is the second value; between the worlds before
    and after the second call exactly one event has gone out to the
    listeners, of type [updated], carrying the second value and stamped with
    the time of the call: every channel holds what it held followed by one
    copy of that event for each listener bound to it, as far as it has
    room.  If the ID was not registered before the first call, the first
    call adds one entry, the caller's value completed with the default
    status and the time stamp, and sends out exactly one event in the same
    sense, of type [added] and carrying the stored entry; so a listener
    whose channel has room for two events finds [added] then [updated]
    appended to it. *)
Theorem RegisterService_same_ID_twice (d : DiscoveryService) (info1 info2 : ServiceInfo)
        (w : World) :
  initialized d = true →
  valid info1 →
  valid info2 →
  ID info1 = ID info2 →
  ∃ d1 w1 d2 w2,
    RegisterService clock d info1 w = (None, d1, w1)
    ∧ RegisterService clock d1 info2 w1 = (None, d2, w2)
    ∧ eventListeners d1 = eventListeners d
    ∧ eventListeners d2 = eventListeners d
    ∧ services d2 = <[ID info2 := info2]> (services d1)
    ∧ services d2 !! ID info2 = Some info2
    ∧ dom (services d2) = dom (services d1)
    ∧ size (services d2) = size (services d1)
    ∧ emitted_once d (mkEvent ServiceChangeTypeUpdated info2 (millis (clock (ticks w1))))
                   w1 w2
    ∧ (services d !! ID info1 = None →
       services d1
       = <[ID info1 := fresh_entry d info1 (millis (clock (ticks w)))]> (services d)
       ∧ size (services d1) = S (size (services d))
       ∧ emitted_once d
           (mkEvent ServiceChangeTypeAdded
                    (fresh_entry d info1 (millis (clock (ticks w))))
                    (millis (clock (S (ticks w)))))
           w w1
       ∧ ticks w1 = S (S (ticks w))
       ∧ ∀ c lid,
           eventListeners d !! lid = Some c →
           (bound_to d c = 1)%nat →
           (2 ≤ room w c)%nat →
           queued w2 c
           = queued w c
             ++ [mkEvent ServiceChangeTypeAdded
                         (fresh_entry d info1 (millis (clock (ticks w))))
                         (millis (clock (S (ticks w))));
                 mkEvent ServiceChangeTypeUpdated info2
                         (millis (clock (S (S (ticks w)))))]).
Proof.
  intros Hinit Hv1 Hv2 Hid.
  assert (Hfirst : ∃ d1 w1 stored,
             RegisterService clock d info1 w = (None, d1, w1)
             ∧ initialized d1 = true
             ∧ eventListeners d1 = eventListeners d
             ∧ services d1 = <[ID info1 := stored]> (services d)
             ∧ (services d !! ID info1 = None →
                stored = fresh_entry d info1 (millis (clock (ticks w)))
                ∧ ticks w1 = S (S (ticks w))
                ∧ emitted_once d
                    (mkEvent ServiceChangeTypeAdded
                             (fresh_entry d info1 (millis (clock (ticks w))))
                             (millis (clock (S (ticks w)))))
                    w w1)).
  { destruct (services d !! ID info1) as [old|] eqn:Hold.
    - eexists _, _, info1. rewrite (RegisterService_existing d info1 old w Hinit Hv1 Hold).
      split_and!; [reflexivity | exact Hinit | reflexivity | reflexivity | discriminate].
    - eexists _, _, _. rewrite (RegisterService_fresh d info1 w Hinit Hv1 Hold).
      split_and!; [reflexivity | exact Hinit | reflexivity | reflexivity |].
      intros _. split_and!; [reflexivity | now rewrite notifyListeners_ticks |].
      eapply (emitted_once_listeners d); [|intros c;
        rewrite (notifyListeners_emitted _ _ (tick (tick w)) c); reflexivity].
      reflexivity. }
  destruct Hfirst as (d1 & w1 & stored & Hr1 & Hinit1 & Hl1 & Hs1 & Hadded).
  assert (Hold2 : services d1 !! ID info2 = Some stored).
  { rewrite Hs1, Hid. apply lookup_insert_eq. }
  assert (Hupd : emitted_once d
                   (mkEvent ServiceChangeTypeUpdated info2 (millis (clock (ticks w1))))
                   w1
                   (notifyListeners (set_services d1 (<[ID info2 := info2]> (services d1)))
                      (mkEvent ServiceChangeTypeUpdated info2 (millis (clock (ticks w1))))
                      (tick w1))).
  { eapply (emitted_once_listeners d); [|intros c;
      rewrite (notifyListeners_emitted _ _ (tick w1) c); reflexivity].
    exact Hl1. }
  exists d1, w1. eexists _, _.
  rewrite (RegisterService_existing d1 info2 stored w1 Hinit1 Hv2 Hold2).
  split_and!; try reflexivity; try exact Hr1; try exact Hl1; try exact Hupd.
  - cbn. apply lookup_insert_eq.
  - cbn. apply dom_insert_lookup_L. eauto.
  - cbn. apply map_size_insert_Some. eauto.
  - intros Hnew. destruct (Hadded Hnew) as (-> & Hticks & Hadd).
    split_and!; [exact Hs1 | | exact Hadd | exact Hticks |].
    + rewrite Hs1. now apply map_size_insert_None.
    + intros c lid Hlid Hone Hroom.
      rewrite (Hupd c), (Hadd c), Hone, Hticks.
      assert (Hroom1 : room w1 c = Nat.pred (room w c)).
      { rewrite (RegisterService_fresh d info1 w Hinit Hv1 Hnew) in Hr1.
        injection Hr1 as _ <-.
        rewrite notifyListeners_room, !room_tick.
        change (bound_to (set_services d _) c) with (bound_to d c).
        rewrite Hone. lia. }
      rewrite Hroom1.
      replace (Nat.min (room w c) 1) with 1%nat by lia.
      replace (Nat.min (Nat.pred (room w c)) 1) with 1%nat by lia.
      cbn [replicate]. now rewrite <- app_assoc.
Qed.

(** C10.  When the ID of a valid [ServiceInfo] is already registered,
    [RegisterService] stores the value exactly as the caller passed it, an
    empty [Status] and whatever [LastUpdated] it carries included, and
    leaves the other entries alone; whereas a first registration of the
    same value stores it with an empty [Status] replaced by the configured
    default and [LastUpdated] set to the current time in milliseconds. *)
Theorem RegisterService_existing_stored_verbatim (d : DiscoveryService)
        (info old : ServiceInfo) (w : World) :
  initialized d = true →
  valid info →
  services d !! ID info = Some old →
  ∃ d' w',
    RegisterService clock d info w = (None, d', w')
    ∧ services d' !! ID info = Some info
    ∧ (∀ id, id ≠ ID info → services d' !! id = services d !! id)
    ∧ ∀ d0, initialized d0 = true → services d0 !! ID info = None →
            ∃ d0' w0',
              RegisterService clock d0 info w = (None, d0', w0')
              ∧ services d0' !! ID info
                = Some (set_LastUpdated
                          (if (Status info =? "")%string
                           then set_Status info (DefaultServiceStatus (config d0))
                           else info)
                          (millis (clock (ticks w)))).
Proof.
  intros Hinit Hvalid Hold. eexists _, _.
  rewrite (RegisterService_existing d info old w Hinit Hvalid Hold).
  split_and!; [reflexivity | apply lookup_insert_eq | |].
  - intros id Hne. cbn. now apply lookup_insert_ne.
  - intros d0 Hinit0 Hnew. eexists _, _.
    rewrite (RegisterService_fresh d0 info w Hinit0 Hvalid Hnew).
    split; [reflexivity|]. cbn. apply lookup_insert_eq.
Qed.

End Clock.

(** *** Health checks *)

Section Health.

Variable clock : nat -> Z.

Lemma updateServiceStatus_changed (d : DiscoveryService) (id status : string)
      (info : ServiceInfo) (w : World) :
  services d !! id = Some info →
  Status info ≠ status →
  updateServiceStatus clock d id status w
  = (incConnectionsTotal
       (set_services d
          (<[id := set_LastUpdated (set_Status info status) (millis (clock (ticks w)))]>
             (services d))),
     notifyListeners
       (set_services d
          (<[id := set_LastUpdated (set_Status info status) (millis (clock (ticks w)))]>
             (services d)))
       (mkEvent ServiceChangeTypeUpdated
                (set_LastUpdated (set_Status info status) (millis (clock (ticks w))))
                (millis (clock (ticks w))))
       (tick w)).
Proof.
  intros Hinfo Hne. unfold updateServiceStatus. rewrite Hinfo.
  unfold Now. destruct (String.eqb_spec (Status info) status); [contradiction|].
  reflexivity.
Qed.

(** Setting the status a service already has re-stamps the entry and sends
    nothing. *)
Lemma updateServiceStatus_same (d : DiscoveryService) (id : string)
      (info : ServiceInfo) (w : World) :
  services d !! id = Some info →
  updateServiceStatus clock d id (Status info) w
  = (set_services d
       (<[id := set_LastUpdated (set_Status info (Status info)) (millis (clock (ticks w)))]>
          (services d)),
     tick w).
Proof.
  intros Hinfo. unfold updateServiceStatus. rewrite Hinfo.
  unfold Now. rewrite String.eqb_refl. reflexivity.
Qed.

(** C6.  For a registered service and a health check that ends without
    error (registry initialized, health checks enabled): if the verdict is
    unhealthy while the status is [running], the status becomes [failed];
    if the verdict is healthy while the status is not [running], it becomes
    [running]; in both cases the entry is re-stamped and exactly one event,
    of type [updated] and carrying the new entry, is sent out.  In the two
    remaining cases the status does not change: registry and channels are
    left exactly as they were, so no event is sent. *)
Theorem CheckServiceHealth_flips_status (healthChecker : HealthChecker)
        (d : DiscoveryService) (id : string) (info : ServiceInfo) (healthy : bool)
        (w : World) :
  initialized d = true →
  EnableHealthChecks (config d) = true →
  services d !! id = Some info →
  healthChecker info = (healthy, None) →
  ∃ d' w',
    CheckServiceHealth clock healthChecker d id w = ((healthy, None), d', w')
    ∧ let flipped (status : string) : Prop :=
        let info' := set_LastUpdated (set_Status info status) (millis (clock (ticks w))) in
        Status info' = status
        ∧ services d' = <[id := info']> (services d)
        ∧ eventListeners d' = eventListeners d
        ∧ emitted_once d' (mkEvent ServiceChangeTypeUpdated info' (LastUpdated info')) w w'
      in
      match healthy, (Status info =? ServiceStatusRunning)%string with
      | false, true => flipped ServiceStatusFailed
      | true, false => flipped ServiceStatusRunning
      | _, _ => d' = d ∧ w' = w
      end.
Proof.
  intros Hinit Hen Hinfo Hcheck. unfold CheckServiceHealth.
  rewrite Hinit, Hen, Hinfo, Hcheck. cbn [negb].
  destruct healthy, (String.eqb_spec (Status info) ServiceStatusRunning) as [Hrun|Hnot];
    cbn [andb negb].
  - eexists _, _. split; [reflexivity|]. split; reflexivity.
  - rewrite (updateServiceStatus_changed d id ServiceStatusRunning info w Hinfo Hnot).
    eexists _, _. split; [reflexivity|]. cbn zeta.
    split_and!; try reflexivity.
    intros c. rewrite (notifyListeners_emitted _ _ (tick w) c). reflexivity.
  - assert (Hne : Status info ≠ ServiceStatusFailed) by (rewrite Hrun; discriminate).
    rewrite (updateServiceStatus_changed d id ServiceStatusFailed info w Hinfo Hne).
    eexists _, _. split; [reflexivity|]. cbn zeta.
    split_and!; try reflexivity.
    intros c. rewrite (notifyListeners_emitted _ _ (tick w) c). reflexivity.
  - eexists _, _. split; [reflexivity|]. split; reflexivity.
Qed.

End Health.

(** *** Lookup by filter *)

(** The metadata loop of [Matches]: the filter's map is included in the
    service's. *)
Lemma Matches_metadata_loop (f : ServiceFilter) (service : ServiceInfo) :
  (if (0 <? size (f_Metadata f))%nat
   then forallb (fun '(k, v) =>
                   match Metadata service !! k with
                   | Some serviceValue => (serviceValue =? v)%string
                   | None => false
                   end) (map_to_list (f_Metadata f))
   else true) = true
  ↔ ∀ k v, f_Metadata f !! k = Some v → Metadata service !! k = Some v.
Proof.
  destruct (Nat.ltb_spec 0 (size (f_Metadata f))) as [Hpos|Hzero].
  - rewrite forallb_forall. split.
    + intros H k v Hkv.
      apply elem_of_map_to_list, list_elem_of_In in Hkv.
      specialize (H (k, v) Hkv). cbn in H.
      destruct (Metadata service !! k) as [sv|]; [|discriminate].
      apply String.eqb_eq in H. congruence.
    + intros H [k v] Hin.
      apply list_elem_of_In, elem_of_map_to_list in Hin.
      rewrite (H k v Hin). apply String.eqb_refl.
  - split; [|reflexivity]. intros _ k v Hkv.
    assert (f_Metadata f = ∅) as Hempty by (apply map_size_empty_iff; lia).
    rewrite Hempty, lookup_empty in Hkv. discriminate.
Qed.

(** One guard of [Matches]: it rejects exactly when the field is given and
    differs. *)
Lemma field_guard (wanted actual : string) :
  negb (wanted =? "")%string && negb (wanted =? actual)%string = false
  ↔ (wanted ≠ "" → wanted = actual).
Proof.
  destruct (String.eqb_spec wanted ""), (String.eqb_spec wanted actual);
    cbn; split; try tauto; try discriminate; congruence.
Qed.

Lemma Matches_spec (f : ServiceFilter) (service : ServiceInfo) :
  Matches f service = true ↔ matches_spec f service.
Proof.
  unfold Matches, matches_spec.
  rewrite <- Matches_metadata_loop, <- !field_guard.
  destruct (negb (f_ServiceType f =? "")%string
            && negb (f_ServiceType f =? Type_ service)%string);
    [split; [discriminate | intros [? _]; discriminate]|].
  destruct (negb (f_Version f =? "")%string
            && negb (f_Version f =? Version service)%string);
    [split; [discriminate | intros (_ & ? & _); discriminate]|].
  destruct (negb (f_Name f =? "")%string && negb (f_Name f =? Name service)%string);
    [split; [discriminate | intros (_ & _ & ? & _); discriminate]|].
  destruct (negb (f_Address f =? "")%string
            && negb (f_Address f =? Address service)%string);
    [split; [discriminate | intros (_ & _ & _ & ? & _); discriminate]|].
  tauto.
Qed.

Lemma FindServices_results (d : DiscoveryService) (f : ServiceFilter) :
  initialized d = true →
  FindServices d f
  = (filter (fun info => Matches f info = true) (map_to_list (services d)).*2, None).
Proof.
  intros Hinit. unfold FindServices. rewrite Hinit. cbn [negb]. f_equal.
  assert (Hfold : ∀ (l : list (string * ServiceInfo)) (acc : list ServiceInfo),
             foldl (fun results '(_, info) =>
                      if Matches f info then results ++ [info] else results) acc l
             = acc ++ filter (fun info => Matches f info = true) l.*2).
  { induction l as [|[id info] l IH]; intros acc; cbn [foldl fmap list_fmap].
    - now rewrite filter_nil, app_nil_r.
    - rewrite IH, filter_cons. cbn [snd].
      destruct (Matches f info); cbn.
      + now rewrite <- app_assoc.
      + reflexivity. }
  apply (Hfold _ []).
Qed.

(** C7.  In an initialized registry [FindServices] succeeds, and for every
    filter it returns a service exactly when that service is registered and
    each non-empty filter field (type, version, name, address) equals the
    service's field and every key-value pair of the filter's metadata is
    present with the same value in the service's metadata.  An empty field
    therefore matches anything, and a registered service lacking a key of
    the filter's metadata is not returned. *)
Theorem FindServices_returns_exactly_matches (d : DiscoveryService) (f : ServiceFilter) :
  initialized d = true →
  ∃ results,
    FindServices d f = (results, None)
    ∧ (∀ service,
          service ∈ results
          ↔ (∃ id, services d !! id = Some service) ∧ matches_spec f service)
    ∧ (∀ id service k v,
          services d !! id = Some service →
          f_Metadata f !! k = Some v →
          Metadata service !! k = None →
          service ∉ results).
Proof.
  intros Hinit. eexists. split; [apply (FindServices_results d f Hinit)|].
  assert (Hiff : ∀ service,
             service ∈ filter (fun info => Matches f info = true)
                              (map_to_list (services d)).*2
             ↔ (∃ id, services d !! id = Some service) ∧ matches_spec f service).
  { intros service. rewrite list_elem_of_filter, Matches_spec, list_elem_of_fmap.
    split.
    - intros (Hm & [id s] & -> & Hin). apply elem_of_map_to_list in Hin. eauto.
    - intros ((id & Hid) & Hm). split; [exact Hm|].
      exists (id, service). split; [reflexivity|]. now apply elem_of_map_to_list. }
  split; [exact Hiff|].
  intros id service k v Hreg Hf Hmiss Hin.
  apply Hiff in Hin as (_ & _ & _ & _ & _ & Hmeta).
  specialize (Hmeta k v Hf). congruence.
Qed.

(** *** Watching *)

Section Watch.

Variable clock : nat -> Z.

(** What the replay loop queues: events for the channel being registered
    only, each of type [added] and for an entry the filter matches. *)
Lemma replay_queued (F : ServiceFilter) (c : nat) (entries : list (string * ServiceInfo)) :
  ∀ w, ∃ replayed,
    queued (replay clock F c w entries) c = queued w c ++ replayed
    ∧ (∀ c', c' ≠ c → queued (replay clock F c w entries) c' = queued w c')
    ∧ Forall (fun ev => ev_Type ev = ServiceChangeTypeAdded
                        ∧ Matches F (ev_ServiceInfo ev) = true
                        ∧ ∃ id, (id, ev_ServiceInfo ev) ∈ entries) replayed.
Proof.
  unfold replay.
  induction entries as [|[id info] entries IH]; intros w; cbn [foldl].
  - exists []. rewrite app_nil_r. split_and!; [reflexivity | reflexivity | constructor].
  - set (w1 := if Matches F info
               then let '(t, w1) := Now clock w in
                    (trySend c (mkEvent ServiceChangeTypeAdded info (millis t)) w1).2
               else w).
    destruct (IH w1) as (rest & Hq & Hother & Hall).
    assert (Hweaken : Forall (fun ev => ev_Type ev = ServiceChangeTypeAdded
                        ∧ Matches F (ev_ServiceInfo ev) = true
                        ∧ ∃ id0, (id0, ev_ServiceInfo ev) ∈ (id, info) :: entries) rest).
    { eapply Forall_impl; [exact Hall|]. intros ev (Ht & Hm & id0 & Hin).
      split_and!; [exact Ht | exact Hm |]. exists id0. now apply list_elem_of_further. }
    subst w1. destruct (Matches F info) eqn:Hm.
    + unfold Now in *. cbn [fst snd] in *.
      set (ev := mkEvent ServiceChangeTypeAdded info (millis (clock (ticks w)))) in *.
      rewrite trySend_queued in Hq. rewrite decide_True in Hq by reflexivity.
      change (room (mkWorld (chans w) (S (ticks w))) c) with (room w c) in Hq.
      change (queued (mkWorld (chans w) (S (ticks w))) c) with (queued w c) in Hq.
      assert (Hothers : ∀ c', c' ≠ c →
                queued (foldl (fun w0 '(_, info0) =>
                                 if Matches F info0
                                 then let '(t, w2) := (clock (ticks w0),
                                                       mkWorld (chans w0) (S (ticks w0))) in
                                      (trySend c (mkEvent ServiceChangeTypeAdded info0
                                                          (millis t)) w2).2
                                 else w0)
                              (trySend c ev (mkWorld (chans w) (S (ticks w)))).2 entries) c'
                = queued w c').
      { intros c' Hne. rewrite (Hother c' Hne), trySend_queued.
        rewrite decide_False by congruence. reflexivity. }
      destruct (decide (0 < room w c)%nat).
      * exists (ev :: rest). rewrite Hq, <- app_assoc.
        split_and!; [reflexivity | exact Hothers |].
        constructor; [|exact Hweaken].
        split_and!; [reflexivity | exact Hm |]. exists id. apply list_elem_of_here.
      * exists rest. split_and!; [exact Hq | exact Hothers | exact Hweaken].
    + exists rest. split_and!; [exact Hq | exact Hother | exact Hweaken].
Qed.

Lemma WatchServices_registers (d : DiscoveryService) (F : ServiceFilter) (c : nat) (w : World) :
  initialized d = true →
  EnableWatching (config d) = true →
  WatchServices clock d F (Some c) w
  = (("listener-" +:+ pretty (clock (ticks w)), None),
     set_eventListeners d (<["listener-" +:+ pretty (clock (ticks w)) := c]> (eventListeners d)),
     replay clock F c (tick w) (map_to_list (services d))).
Proof.
  intros Hinit Hen. unfold WatchServices. rewrite Hinit, Hen. reflexivity.
Qed.

Lemma DeregisterService_registered (d : DiscoveryService) (id : string)
      (info : ServiceInfo) (w : World) :
  initialized d = true →
  services d !! id = Some info →
  DeregisterService clock d id w
  = (None,
     incConnectionFailures (set_services d (delete id (services d))),
     notifyListeners (set_services d (delete id (services d)))
                     (mkEvent ServiceChangeTypeRemoved info (millis (clock (ticks w))))
                     (tick w)).
Proof.
  intros Hinit Hinfo. unfold DeregisterService. rewrite Hinit, Hinfo. reflexivity.
Qed.

Lemma replay_cons (F : ServiceFilter) (c : nat) (w : World) (id : string)
      (info : ServiceInfo) (entries : list (string * ServiceInfo)) :
  replay clock F c w ((id, info) :: entries)
  = replay clock F c
      (if Matches F info
       then (trySend c (mkEvent ServiceChangeTypeAdded info (millis (clock (ticks w))))
                     (tick w)).2
       else w)
      entries.
Proof.
  unfold replay. cbn [foldl]. unfold Now, tick. now destruct (Matches F info).
Qed.

(** The replay loop, exactly: the events it builds are queued in the
    channel in order for as long as the channel has room, and nothing else
    is written. *)
Lemma replay_exact (F : ServiceFilter) (c : nat) (entries : list (string * ServiceInfo)) :
  ∀ w,
    queued (replay clock F c w entries) c
    = queued w c ++ take (room w c) (replay_events clock F (ticks w) entries)
    ∧ (∀ c', c' ≠ c → queued (replay clock F c w entries) c' = queued w c').
Proof.
  induction entries as [|[id info] entries IH]; intros w.
  - cbn. rewrite take_nil, app_nil_r. split; reflexivity.
  - rewrite replay_cons. cbn [replay_events].
    destruct (Matches F info) eqn:Hm; [|apply IH].
    set (ev := mkEvent ServiceChangeTypeAdded info (millis (clock (ticks w)))).
    destruct (IH (trySend c ev (tick w)).2) as [Hq Hother].
    rewrite trySend_ticks in Hq. cbn [ticks tick] in Hq.
    rewrite trySend_queued, trySend_room in Hq.
    rewrite !decide_True in Hq by reflexivity.
    rewrite room_tick, queued_tick in Hq.
    split.
    + rewrite Hq. destruct (decide (c = c)) as [_|?]; [|congruence].
      destruct (room w c) as [|r].
      * rewrite decide_False by lia. reflexivity.
      * rewrite decide_True by lia. cbn [Nat.pred take]. now rewrite <- app_assoc.
    + intros c' Hne. rewrite (Hother c' Hne), trySend_queued.
      rewrite decide_False by congruence. apply queued_tick.
Qed.

(** The replayed events are [added] events for the entries the filter
    matches, in the order of the entries, stamped with successive clock
    readings. *)
Lemma replay_events_spec (F : ServiceFilter) (entries : list (string * ServiceInfo)) :
  ∀ k,
    ev_ServiceInfo <$> replay_events clock F k entries
    = filter (fun info => Matches F info = true) entries.*2
    ∧ Forall (fun ev => ev_Type ev = ServiceChangeTypeAdded) (replay_events clock F k entries)
    ∧ ev_Timestamp <$> replay_events clock F k entries
      = (fun i => millis (clock i)) <$> seq k (length (replay_events clock F k entries)).
Proof.
  induction entries as [|[id info] entries IH]; intros k; cbn [replay_events].
  - split_and!; [reflexivity | constructor | reflexivity].
  - cbn [fmap list_fmap snd]. rewrite filter_cons.
    destruct (Matches F info) eqn:Hm.
    + destruct (IH (S k)) as (Hs & Ht & Hstamp).
      rewrite decide_True by reflexivity.
      split_and!.
      * cbn. f_equal. exact Hs.
      * constructor; [reflexivity | exact Ht].
      * cbn. f_equal. exact Hstamp.
    + rewrite decide_False by congruence. apply IH.
Qed.

(** C9.  A successful [WatchServices] with filter [F] and channel [c]
    (registry initialized, watching enabled) binds a new listener id to
    [c], and [F] bears on the replay alone.  (a) The replay appends to [c],
    for as long as [c] has room, one [added] event for each registered
    service that [F] matches, namely the services [FindServices] returns
    for [F], in that order; no other channel is written to.  (b) The
    registry after the call is the same whatever the filter, so nothing of
    [F] is kept.  (c) Any event passed to [notifyListeners] afterwards goes
    out once to the listeners: every channel receives one copy for each
    listener bound to it as far as it has room, without any test against a
    filter, and a full channel loses it.  In particular (d) registering a
    new valid service, (e) re-registering a registered one and (f)
    deregistering one send their [added], [updated] and [removed] event out
    in this way, and while [c] has room the event is queued in [c], whether
    [F] matches the service or not. *)
Theorem WatchServices_filter_limits_replay_only (d : DiscoveryService) (F : ServiceFilter)
        (c : nat) (w : World) :
  initialized d = true →
  EnableWatching (config d) = true →
  ∃ lid d1 w1,
    WatchServices clock d F (Some c) w = ((lid, None), d1, w1)
    ∧ eventListeners d1 = <[lid := c]> (eventListeners d)
    ∧ services d1 = services d
    ∧ queued w1 c
      = queued w c
        ++ take (room w c)
                (replay_events clock F (S (ticks w)) (map_to_list (services d)))
    ∧ ev_ServiceInfo <$> replay_events clock F (S (ticks w)) (map_to_list (services d))
      = (FindServices d F).1
    ∧ Forall (fun ev => ev_Type ev = ServiceChangeTypeAdded)
             (replay_events clock F (S (ticks w)) (map_to_list (services d)))
    ∧ (∀ c', c' ≠ c → queued w1 c' = queued w c')
    ∧ (∀ F', (WatchServices clock d F' (Some c) w).1 = ((lid, None), d1))
    ∧ (∀ d2 w2 ev,
          emitted_once d2 ev w2 (notifyListeners d2 ev w2)
          ∧ ∀ lid' c',
              eventListeners d2 !! lid' = Some c' →
              (has_room w2 c' → ev ∈ queued (notifyListeners d2 ev w2) c')
              ∧ (room w2 c' = 0%nat →
                 queued (notifyListeners d2 ev w2) c' = queued w2 c'))
    ∧ (∀ info,
          valid info →
          services d1 !! ID info = None →
          ∃ d2 w2,
            RegisterService clock d1 info w1 = (None, d2, w2)
            ∧ eventListeners d2 = eventListeners d1
            ∧ emitted_once d1
                (mkEvent ServiceChangeTypeAdded
                         (fresh_entry d1 info (millis (clock (ticks w1))))
                         (millis (clock (S (ticks w1)))))
                w1 w2
            ∧ (has_room w1 c →
               mkEvent ServiceChangeTypeAdded
                       (fresh_entry d1 info (millis (clock (ticks w1))))
                       (millis (clock (S (ticks w1))))
               ∈ queued w2 c))
    ∧ (∀ info old,
          valid info →
          services d1 !! ID info = Some old →
          ∃ d2 w2,
            RegisterService clock d1 info w1 = (None, d2, w2)
            ∧ eventListeners d2 = eventListeners d1
            ∧ emitted_once d1
                (mkEvent ServiceChangeTypeUpdated info (millis (clock (ticks w1))))
                w1 w2
            ∧ (has_room w1 c →
               mkEvent ServiceChangeTypeUpdated info (millis (clock (ticks w1)))
               ∈ queued w2 c))
    ∧ (∀ id info,
          services d1 !! id = Some info →
          ∃ d2 w2,
            DeregisterService clock d1 id w1 = (None, d2, w2)
            ∧ eventListeners d2 = eventListeners d1
            ∧ emitted_once d1
                (mkEvent ServiceChangeTypeRemoved info (millis (clock (ticks w1))))
                w1 w2
            ∧ (has_room w1 c →
               mkEvent ServiceChangeTypeRemoved info (millis (clock (ticks w1)))
               ∈ queued w2 c)).
Proof.
  intros Hinit Hen.
  eexists _, _, _. split; [apply (WatchServices_registers d F c w Hinit Hen)|].
  split; [reflexivity|]. split; [reflexivity|].
  destruct (replay_exact F c (map_to_list (services d)) (tick w)) as [Hq Hother].
  destruct (replay_events_spec F (map_to_list (services d)) (S (ticks w)))
    as (Hsvc & Htypes & _).
  set (lid := "listener-" +:+ pretty (clock (ticks w))) in *.
  set (d1 := set_eventListeners d (<[lid := c]> (eventListeners d))) in *.
  set (w1 := replay clock F c (tick w) (map_to_list (services d))) in *.
  assert (Hbound : ∀ services', eventListeners (set_services d1 services') !! lid = Some c).
  { intros services'. cbn. apply lookup_insert_eq. }
  assert (Hsent : ∀ services' ev,
             emitted_once d1 ev w1 (notifyListeners (set_services d1 services') ev (tick w1))).
  { intros services' ev c'.
    rewrite (notifyListeners_emitted _ _ (tick w1) c'). reflexivity. }
  split_and!.
  - exact Hq.
  - rewrite Hsvc, (FindServices_results d F Hinit). reflexivity.
  - exact Htypes.
  - exact Hother.
  - intros F'. now rewrite (WatchServices_registers d F' c w Hinit Hen).
  - intros d2 w2 ev. split; [apply notifyListeners_emitted|].
    intros lid' c' Hl. split.
    + intros Hroom. now apply (notifyListeners_queues d2 ev w2 w2 lid' c').
    + apply notifyListeners_full.
  - intros info Hvalid Hnew. eexists _, _.
    rewrite (RegisterService_fresh clock d1 info w1 Hinit Hvalid Hnew).
    split_and!; [reflexivity | reflexivity | |].
    + intros c'. rewrite (notifyListeners_emitted _ _ (tick (tick w1)) c'). reflexivity.
    + intros Hroom.
      eapply (notifyListeners_queues _ _ w1 _ lid c); [apply Hbound | exact Hroom | reflexivity].
  - intros info old Hvalid Hold. eexists _, _.
    rewrite (RegisterService_existing clock d1 info old w1 Hinit Hvalid Hold).
    split_and!; [reflexivity | reflexivity | apply Hsent |].
    intros Hroom.
    eapply (notifyListeners_queues _ _ w1 _ lid c); [apply Hbound | exact Hroom | reflexivity].
  - intros id info Hinfo. eexists _, _.
    rewrite (DeregisterService_registered d1 id info w1 Hinit Hinfo).
    split_and!; [reflexivity | reflexivity | apply Hsent |].
    intros Hroom.
    eapply (notifyListeners_queues _ _ w1 _ lid c); [apply Hbound | exact Hroom | reflexivity].
Qed.

End Watch.

(** *** The registry run on sample values *)

Lemma valid_echo : valid Samples.echo.
Proof. repeat split; discriminate. Defined.

Lemma valid_echo_moved : valid Samples.echo_moved.
Proof. repeat split; discriminate. Defined.

Lemma valid_billing : valid Samples.billing.
Proof. repeat split; discriminate. Defined.

(** The listener of the sample registry sees [added] then [updated] when
    [echo] is registered twice. *)
Example RegisterService_twice_events :
  queued (RegisterService Samples.clock
            (RegisterService Samples.clock Samples.registry Samples.echo Samples.world).1.2
            Samples.echo_moved
            (RegisterService Samples.clock Samples.registry Samples.echo Samples.world).2).2
         0%nat
  = [ mkEvent ServiceChangeTypeAdded
        (mkServiceInfo "svc-1" "echo" "grpc" "v1" "127.0.0.1" 9000 {[ "env" := "prod" ]}
                       "running" 1700000000000)
        1700000000001;
      mkEvent ServiceChangeTypeUpdated Samples.echo_moved 1700000000002 ].
Proof. vm_compute. reflexivity. Qed.

(** [echo] registered, then registered again from its new port: the
    listener on channel 0 receives [added], then [updated]. *)
Lemma RegisterService_same_ID_twice_witness :
  ∃ d1 w1 d2 w2,
    RegisterService Samples.clock Samples.registry Samples.echo Samples.world
    = (None, d1, w1)
    ∧ RegisterService Samples.clock d1 Samples.echo_moved w1 = (None, d2, w2)
    ∧ services d2 !! "svc-1" = Some Samples.echo_moved
    ∧ size (services d2) = size (services d1)
    ∧ eventListeners d2 = eventListeners Samples.registry
    ∧ queued w2 0%nat
      = [ mkEvent ServiceChangeTypeAdded
            (mkServiceInfo "svc-1" "echo" "grpc" "v1" "127.0.0.1" 9000
                           {[ "env" := "prod" ]} "running" 1700000000000)
            1700000000001;
          mkEvent ServiceChangeTypeUpdated Samples.echo_moved 1700000000002 ].
Proof.
  destruct (RegisterService_same_ID_twice Samples.clock Samples.registry
              Samples.echo Samples.echo_moved Samples.world
              eq_refl valid_echo valid_echo_moved eq_refl)
    as (d1 & w1 & d2 & w2 & H1 & H2 & _ & Hl2 & _ & Hlook & _ & Hsize & _ & Hfresh).
  destruct (Hfresh (lookup_empty _)) as (_ & _ & _ & _ & Hq).
  assert (Hbound : (bound_to Samples.registry 0 = 1)%nat) by (vm_compute; reflexivity).
  assert (Hroom : (2 ≤ room Samples.world 0)%nat) by (vm_compute; lia).
  exists d1, w1, d2, w2.
  split_and!; [exact H1 | exact H2 | exact Hlook | exact Hsize | exact Hl2 |].
  rewrite (Hq 0%nat "listener-0" ltac:(apply lookup_singleton_eq) Hbound Hroom).
  vm_compute. reflexivity.
Defined.

(** [echo] is stored as [running] with a stamp; registering [echo_moved]
    over it stores the empty status and the zero stamp it carries. *)
Lemma RegisterService_existing_stored_verbatim_witness :
  services Samples.registry2 !! ID Samples.echo_moved = Some
    (mkServiceInfo "svc-1" "echo" "grpc" "v1" "127.0.0.1" 9000 {[ "env" := "prod" ]}
                   "running" 1700000000000)
  ∧ ∃ d' w',
      RegisterService Samples.clock Samples.registry2 Samples.echo_moved Samples.world2
      = (None, d', w')
      ∧ services d' !! "svc-1" = Some Samples.echo_moved
      ∧ Status Samples.echo_moved = ""
      ∧ LastUpdated Samples.echo_moved = 0.
Proof.
  assert (Hold : services Samples.registry2 !! ID Samples.echo_moved = Some
            (mkServiceInfo "svc-1" "echo" "grpc" "v1" "127.0.0.1" 9000 {[ "env" := "prod" ]}
                           "running" 1700000000000))
    by (vm_compute; reflexivity).
  split; [exact Hold|].
  destruct (RegisterService_existing_stored_verbatim Samples.clock Samples.registry2
              Samples.echo_moved _ Samples.world2 eq_refl valid_echo_moved Hold)
    as (d' & w' & Hr & Hs & _).
  exists d', w'. split_and!; [exact Hr | exact Hs | reflexivity | reflexivity].
Defined.

(** [billing] is registered as [starting]; the default checker finds it
    unhealthy, which changes nothing; a checker that finds it healthy turns
    it to [running], and one that then finds it unhealthy to [failed]. *)
Example CheckServiceHealth_default_checker_keeps_starting :
  CheckServiceHealth Samples.clock (DefaultCheckHealth false)
                     Samples.registry2 "svc-2" Samples.world2
  = ((false, None), Samples.registry2, Samples.world2).
Proof. vm_compute. reflexivity. Qed.

Example CheckServiceHealth_healthy_then_unhealthy :
  (ev_Type <$>
     queued (CheckServiceHealth Samples.clock (fun _ => (false, None))
               (CheckServiceHealth Samples.clock (fun _ => (true, None))
                  Samples.registry2 "svc-2" Samples.world2).1.2
               "svc-2"
               (CheckServiceHealth Samples.clock (fun _ => (true, None))
                  Samples.registry2 "svc-2" Samples.world2).2).2
            0%nat)
  = [ServiceChangeTypeAdded; ServiceChangeTypeAdded;
     ServiceChangeTypeUpdated; ServiceChangeTypeUpdated]
  ∧ Status <$> (services
       (CheckServiceHealth Samples.clock (fun _ => (false, None))
               (CheckServiceHealth Samples.clock (fun _ => (true, None))
                  Samples.registry2 "svc-2" Samples.world2).1.2
               "svc-2"
               (CheckServiceHealth Samples.clock (fun _ => (true, None))
                  Samples.registry2 "svc-2" Samples.world2).2).1.2 !! "svc-2")
    = Some "failed".
Proof. split; vm_compute; reflexivity. Qed.

(** [billing], registered as [starting] and found healthy, becomes
    [running]. *)
Lemma CheckServiceHealth_flips_status_witness :
  ∃ d' w',
    CheckServiceHealth Samples.clock (fun _ => (true, None))
                       Samples.registry2 "svc-2" Samples.world2
    = ((true, None), d', w')
    ∧ Status <$> services d' !! "svc-2" = Some "running".
Proof.
  assert (Hinfo : services Samples.registry2 !! "svc-2" = Some
            (mkServiceInfo "svc-2" "billing" "http" "v3" "10.0.0.7" 8080 ∅
                           "starting" 1700000000002))
    by (vm_compute; reflexivity).
  destruct (CheckServiceHealth_flips_status Samples.clock (fun _ => (true, None))
              Samples.registry2 "svc-2" _ true Samples.world2
              eq_refl eq_refl Hinfo eq_refl)
    as (d' & w' & Hr & Hflip).
  exists d', w'. split; [exact Hr|].
  cbn in Hflip. destruct Hflip as (_ & Hs & _).
  rewrite Hs, lookup_insert_eq. reflexivity.
Defined.

(** The filter [{env: "prod"}] finds [echo] and leaves [billing] out. *)
Example FindServices_prod_only :
  (ID <$> (FindServices Samples.registry2 Samples.prod_only).1) = ["svc-1"].
Proof. vm_compute. reflexivity. Qed.

(** The sample registry searched with the filter [{env: "prod"}]. *)
Lemma FindServices_returns_exactly_matches_witness :
  ∃ results,
    FindServices Samples.registry2 Samples.prod_only = (results, None)
    ∧ ∀ service,
        service ∈ results
        ↔ (∃ id, services Samples.registry2 !! id = Some service)
          ∧ matches_spec Samples.prod_only service.
Proof.
  destruct (FindServices_returns_exactly_matches Samples.registry2 Samples.prod_only eq_refl)
    as (results & Hr & Hiff & _).
  exists results. split; [exact Hr | exact Hiff].
Defined.

(** A watcher asking for [{env: "prod"}] on channel 1 is replayed [echo]
    only; its single slot is then taken.  Had the channel two slots, the
    registration of a service without the key would reach it all the
    same. *)
Example WatchServices_replays_matches_only :
  (ID ∘ ev_ServiceInfo) <$>
    queued (WatchServices Samples.clock Samples.registry2 Samples.prod_only
                          (Some 1%nat) Samples.world2).2 1%nat
  = ["svc-1"].
Proof. vm_compute. reflexivity. Qed.

Example watcher_receives_unmatched_service :
  (fun ev => (ev_Type ev, ID (ev_ServiceInfo ev))) <$>
    queued
      (RegisterService Samples.clock
         (WatchServices Samples.clock
            (RegisterService Samples.clock Samples.registry Samples.echo Samples.world).1.2
            Samples.prod_only (Some 0%nat)
            (RegisterService Samples.clock Samples.registry Samples.echo Samples.world).2).1.2
         Samples.billing
         (WatchServices Samples.clock
            (RegisterService Samples.clock Samples.registry Samples.echo Samples.world).1.2
            Samples.prod_only (Some 0%nat)
            (RegisterService Samples.clock Samples.registry Samples.echo Samples.world).2).2).2
      0%nat
  = [(ServiceChangeTypeAdded, "svc-1");   (* the first registration *)
     (ServiceChangeTypeAdded, "svc-1");   (* the replay to the new watcher *)
     (ServiceChangeTypeAdded, "svc-2");   (* billing, for listener-0 *)
     (ServiceChangeTypeAdded, "svc-2")]   (* billing, for the new watcher *)
  ∧ Matches Samples.prod_only Samples.billing = false.
Proof. split; vm_compute; reflexivity. Qed.

Lemma valid_audit : valid Samples.audit.
Proof. repeat split; discriminate. Defined.

(** A watcher asking for [{env: "prod"}] on the empty channel 2 of the
    sample registry: [echo] is replayed to it, [billing] is not; the
    registration of [audit], which the filter does not match, reaches it
    all the same. *)
Lemma WatchServices_filter_limits_replay_only_witness :
  ∃ lid d1 w1 d2 w2,
    WatchServices Samples.clock Samples.registry2 Samples.prod_only (Some 2%nat)
                  Samples.world3
    = ((lid, None), d1, w1)
    ∧ (ID ∘ ev_ServiceInfo) <$> queued w1 2%nat = ["svc-1"]
    ∧ Matches Samples.prod_only Samples.audit = false
    ∧ RegisterService Samples.clock d1 Samples.audit w1 = (None, d2, w2)
    ∧ (fun ev => (ev_Type ev, ID (ev_ServiceInfo ev))) <$> queued w2 2%nat
      = [(ServiceChangeTypeAdded, "svc-1"); (ServiceChangeTypeAdded, "svc-3")].
Proof.
  destruct (WatchServices_filter_limits_replay_only Samples.clock Samples.registry2
              Samples.prod_only 2%nat Samples.world3 eq_refl eq_refl)
    as (lid & d1 & w1 & Hr & _ & Hs & Hq & _ & _ & _ & _ & _ & Hreg & _).
  assert (Hnew : services d1 !! ID Samples.audit = None)
    by (rewrite Hs; vm_compute; reflexivity).
  destruct (Hreg Samples.audit valid_audit Hnew) as (d2 & w2 & Hr2 & _ & Hsent & _).
  exists lid, d1, w1, d2, w2.
  split_and!; [exact Hr | | reflexivity | exact Hr2 |].
  - rewrite Hq. vm_compute. reflexivity.
  - rewrite (Hsent 2%nat), Hq.
    pose proof (f_equal (fun x => x.1.2) Hr) as Hd1.
    pose proof (f_equal snd Hr) as Hw1.
    cbn [fst snd] in Hd1, Hw1. subst d1 w1.
    vm_compute. reflexivity.
Defined.

End DiscoveryFacts.

(* ===================================================================== *)
(** * Part III.  Further properties of the same code                      *)
(* ===================================================================== *)

(** ** The base adapter: averages, counters, errors *)

Module AdapterMore.
Import Go Adapter.

Lemma wrap64_small (z : Z) : - 2 ^ 63 ≤ z < 2 ^ 63 → wrap64 z = z.
Proof.
  intros H. unfold wrap64.
  rewrite Z.mod_small by lia. lia.
Qed.

Lemma wrap64_add_l (x y : Z) : wrap64 (wrap64 x + y) = wrap64 (x + y).
Proof.
  unfold wrap64.
  replace ((x + 2 ^ 63) mod 2 ^ 64 - 2 ^ 63 + y + 2 ^ 63)
    with ((x + 2 ^ 63) mod 2 ^ 64 + y) by lia.
  rewrite Zplus_mod_idemp_l. do 2 f_equal. lia.
Qed.

(** Away from overflow, a blend lies between the old average and the
    sample. *)
Lemma blend_between (prev d : Z) :
  - 2 ^ 59 ≤ prev ≤ 2 ^ 59 →
  - 2 ^ 59 ≤ d ≤ 2 ^ 59 →
  Z.min prev d ≤ blend prev d ≤ Z.max prev d.
Proof.
  intros Hp Hd. unfold blend.
  destruct (Z.eqb_spec prev 0) as [->|Hnz]; [lia|].
  unfold div64, add64, mul64.
  rewrite (wrap64_small (prev * 9)) by lia.
  rewrite (wrap64_small (prev * 9 + d)) by lia.
  assert (Hq : Z.min prev d ≤ Z.quot (prev * 9 + d) 10 ≤ Z.max prev d).
  { pose proof (Z.quot_rem' (prev * 9 + d) 10) as Heq.
    destruct (Z_le_gt_dec 0 (prev * 9 + d)) as [Hs|Hs].
    - pose proof (Z.rem_bound_pos (prev * 9 + d) 10 Hs ltac:(lia)). lia.
    - pose proof (Z.rem_bound_pos_neg (prev * 9 + d) 10 ltac:(lia) ltac:(lia)). lia. }
  rewrite wrap64_small by lia. exact Hq.
Qed.

(** X1.  As long as the stored average and the sample are at most 2^59
    nanoseconds in absolute value (some eighteen years), the average stored
    by [recordLatency] lies between the average stored before and the
    sample: the moving average never overshoots either of them. *)
Theorem recordLatency_between (a : BaseAdapter) (d : Z) :
  - 2 ^ 59 ≤ AverageLatency (stats a) ≤ 2 ^ 59 →
  - 2 ^ 59 ≤ d ≤ 2 ^ 59 →
  Z.min (AverageLatency (stats a)) d
  ≤ AverageLatency (stats (recordLatency a d))
  ≤ Z.max (AverageLatency (stats a)) d.
Proof.
  intros Ha Hd.
  replace (AverageLatency (stats (recordLatency a d)))
    with (blend (AverageLatency (stats a)) d).
  - now apply blend_between.
  - unfold recordLatency, blend.
    now destruct (AverageLatency (stats a) =? 0).
Qed.

(** An average of 40 ms and a sample of 90 ms. *)
Lemma recordLatency_between_witness :
  Z.min 40000000 90000000
  ≤ AverageLatency
      (stats (recordLatency
                (set_stats (NewBaseAdapter "queue" "messaging")
                           (mkStats 0 0 0 0 0 0 40000000 0 1 0))
                90000000))
  ≤ Z.max 40000000 90000000.
Proof.
  apply (recordLatency_between
           (set_stats (NewBaseAdapter "queue" "messaging")
                      (mkStats 0 0 0 0 0 0 40000000 0 1 0))
           90000000); cbn; lia.
Defined.

(** X2.  If every sample of a run lies in an interval [lo, hi] within
    ±2^59 ns, and the adapter starts with no average (zero) or with one in
    the interval, then every average stored during the run lies in
    [lo, hi]. *)
Theorem averages_stay_in_range (lo hi : Z) (samples : list Z) :
  ∀ a : BaseAdapter,
    - 2 ^ 59 ≤ lo →
    hi ≤ 2 ^ 59 →
    AverageLatency (stats a) = 0 ∨ lo ≤ AverageLatency (stats a) ≤ hi →
    Forall (fun d => lo ≤ d ≤ hi) samples →
    Forall (fun avg => lo ≤ avg ≤ hi) (averages a samples).
Proof.
  induction samples as [|d rest IH]; intros a Hlo Hhi Hstart Hall; cbn [averages].
  - constructor.
  - apply Forall_cons in Hall as [Hd Hrest].
    assert (Hnew : lo ≤ AverageLatency (stats (recordLatency a d)) ≤ hi).
    { replace (AverageLatency (stats (recordLatency a d)))
        with (blend (AverageLatency (stats a)) d)
        by (unfold recordLatency, blend; now destruct (AverageLatency (stats a) =? 0)).
      destruct Hstart as [Hz|Hin].
      - rewrite Hz. cbn. exact Hd.
      - pose proof (blend_between (AverageLatency (stats a)) d ltac:(lia) ltac:(lia)).
        lia. }
    constructor; [exact Hnew|].
    apply IH; auto.
Qed.

(** Latencies between 2 ms and 9 ms on a fresh adapter. *)
Lemma averages_stay_in_range_witness :
  Forall (fun avg => 2000000 ≤ avg ≤ 9000000)
         (averages (NewBaseAdapter "queue" "messaging")
                   [9000000; 2000000; 2000000; 7000000]).
Proof.
  apply (averages_stay_in_range 2000000 9000000
           [9000000; 2000000; 2000000; 7000000]
           (NewBaseAdapter "queue" "messaging")).
  - lia.
  - lia.
  - left. reflexivity.
  - repeat constructor; lia.
Defined.

(** The counters after a run, tracked from any starting point. *)
Lemma run_counters (calls : list call) :
  ∀ (a : BaseAdapter) (s r e : nat),
    MessagesSent (stats a) = wrap64 (Z.of_nat s) →
    MessagesReceived (stats a) = wrap64 (Z.of_nat r) →
    Errors (stats a) = wrap64 (Z.of_nat e) →
    let tally (kind : call → bool) (n : nat) : nat :=
      foldl (fun (n : nat) (c : call) => if is_resetStats c then 0%nat else if kind c then S n else n)
            n calls in
    MessagesSent (stats (run a calls)) = wrap64 (Z.of_nat (tally is_send s))
    ∧ MessagesReceived (stats (run a calls)) = wrap64 (Z.of_nat (tally is_receive r))
    ∧ Errors (stats (run a calls)) = wrap64 (Z.of_nat (tally is_setError e))
    ∧ MaxConnections (stats (run a calls)) = MaxConnections (stats a)
    ∧ name (run a calls) = name a
    ∧ adapterType (run a calls) = adapterType a.
Proof.
  unfold run.
  induction calls as [|c calls IH]; intros a s r e Hs Hr He; cbn [foldl].
  - cbn. split_and!; auto.
  - assert (Hbump : ∀ x n, x = wrap64 (Z.of_nat n) → add64 x 1 = wrap64 (Z.of_nat (S n))).
    { intros x n ->. unfold add64. rewrite wrap64_add_l. f_equal. lia. }
    destruct c as [ | now | | | now | now | err | duration | ].
    + exact (IH (Initialize a) s r e Hs Hr He).
    + exact (IH (Connect a now) s r e Hs Hr He).
    + exact (IH (Disconnect a) s r e Hs Hr He).
    + exact (IH (Shutdown a) s r e Hs Hr He).
    + exact (IH (Send a now) (S s) r e (Hbump _ _ Hs) Hr He).
    + exact (IH (Receive a now) s (S r) e Hs (Hbump _ _ Hr) He).
    + exact (IH (setError a err) s r (S e) Hs Hr (Hbump _ _ He)).
    + cbn [step]. rewrite AdapterFacts.recordLatency_frame.
      exact (IH (set_stats a (set_AverageLatency (stats a)
                                (blend (AverageLatency (stats a)) duration)))
                s r e Hs Hr He).
    + exact (IH (resetStats a) 0%nat 0%nat 0%nat eq_refl eq_refl eq_refl).
Qed.

(** X3.  On an adapter made by [NewBaseAdapter], after any sequence of
    calls, [MessagesSent], [MessagesReceived] and [Errors] hold the number
    of [Send], [Receive] and [setError] calls made since the last
    [resetStats] (modulo 2^64, as int64 counters), while [MaxConnections],
    the name and the type are what they were at construction. *)
Theorem run_counts_calls (n t : string) (calls : list call) :
  MessagesSent (stats (run (NewBaseAdapter n t) calls))
  = wrap64 (Z.of_nat (since_reset is_send calls))
  ∧ MessagesReceived (stats (run (NewBaseAdapter n t) calls))
    = wrap64 (Z.of_nat (since_reset is_receive calls))
  ∧ Errors (stats (run (NewBaseAdapter n t) calls))
    = wrap64 (Z.of_nat (since_reset is_setError calls))
  ∧ MaxConnections (stats (run (NewBaseAdapter n t) calls)) = 1
  ∧ name (run (NewBaseAdapter n t) calls) = n
  ∧ adapterType (run (NewBaseAdapter n t) calls) = t.
Proof.
  exact (run_counters calls (NewBaseAdapter n t) 0 0 0 eq_refl eq_refl eq_refl).
Qed.

Example run_counts_sample :
  let a := run (NewBaseAdapter "queue" "messaging")
               [CallConnect 5; CallSend 6; CallSend 7; CallReceive 8;
                CallSetError (ErrorsNew "broken pipe"); CallResetStats;
                CallConnect 9; CallSend 10] in
  (MessagesSent (stats a), MessagesReceived (stats a), Errors (stats a),
   status a, lastError a)
  = (1, 0, 0, StatusConnected, Some (ErrorsNew "broken pipe")).
Proof. reflexivity. Qed.

Lemma run_lastError (calls : list call) :
  ∀ a, forallb (fun c => negb (is_setError c)) calls = true →
       lastError (run a calls) = lastError a.
Proof.
  unfold run. induction calls as [|c calls IH]; intros a Hno; [reflexivity|].
  cbn [forallb] in Hno. apply andb_prop in Hno as [Hc Hrest].
  cbn [foldl]. rewrite (IH _ Hrest).
  destruct c; try reflexivity; try discriminate.
  cbn. unfold recordLatency. now destruct (AverageLatency (stats a) =? 0).
Qed.

(** X4.  Nothing but [setError] changes what [LastError] returns: after
    [setError err], any sequence of later calls without another [setError]
    (reconnecting, sending, even [resetStats], which zeroes the error
    counter) leaves [LastError] at [err]; and the [error] status is not
    sticky, a later [Connect] reports [connected]. *)
Theorem lastError_outlives_recovery (a : BaseAdapter) (err : error)
        (calls : list call) (now : Z) :
  forallb (fun c => negb (is_setError c)) calls = true →
  status (setError a err) = StatusError
  ∧ lastError (run (setError a err) calls) = Some err
  ∧ lastError (Connect (run (setError a err) calls) now) = Some err
  ∧ status (Connect (run (setError a err) calls) now) = StatusConnected
  ∧ Errors (stats (run (setError a err) (calls ++ [CallResetStats]))) = 0.
Proof.
  intros Hno. split; [reflexivity|].
  pose proof (run_lastError calls (setError a err) Hno) as H.
  split_and!; [exact H | exact H | reflexivity |].
  unfold run. rewrite foldl_app. reflexivity.
Qed.

(** An error, then a reconnect and a reset. *)
Lemma lastError_outlives_recovery_witness :
  lastError (run (setError (NewBaseAdapter "queue" "messaging") (ErrorsNew "broken pipe"))
                 [CallDisconnect; CallConnect 9; CallResetStats; CallSend 10])
  = Some (ErrorsNew "broken pipe").
Proof.
  exact (proj1 (proj2 (lastError_outlives_recovery
                         (NewBaseAdapter "queue" "messaging") (ErrorsNew "broken pipe")
                         [CallDisconnect; CallConnect 9; CallResetStats; CallSend 10]
                         0 eq_refl))).
Defined.

End AdapterMore.

(** ** The connection pool: cursor, fairness, teardown *)

Module PoolMore.
Import Go Pool PoolFacts.

Lemma cursor_ok_nat (p : ConnectionPool) :
  cursor_ok p →
  ∃ c x, currentIndex p = Z.of_nat c
         ∧ (c < length (connections p))%nat
         ∧ connections p !! c = Some x.
Proof.
  intros [H0 H1]. exists (Z.to_nat (currentIndex p)).
  assert (Hlt : (Z.to_nat (currentIndex p) < length (connections p))%nat) by lia.
  destruct (lookup_lt_is_Some_2 _ _ Hlt) as [x Hx].
  exists x. split_and!; [lia | exact Hlt | exact Hx].
Qed.

(** X5.  A pool whose cursor points into its slice can be asked for a
    connection any number of times: no call panics or fails, each returns a
    connection of the pool, the slice of connections is never changed, and
    the cursor still points into the slice afterwards. *)
Theorem Get_keeps_cursor_valid (k : nat) :
  ∀ p : ConnectionPool,
    cursor_ok p →
    Forall (fun r => ∃ c, r = Ok c ∧ c ∈ connections p) (GetN k p).1
    ∧ length (GetN k p).1 = k
    ∧ connections (GetN k p).2 = connections p
    ∧ cursor_ok (GetN k p).2.
Proof.
  induction k as [|k IH]; intros p Hok; cbn [GetN].
  - cbn. split_and!; [constructor | reflexivity | reflexivity | exact Hok].
  - destruct (cursor_ok_nat p Hok) as (c & x & Hcur & Hlt & Hx).
    rewrite (Get_at p c x Hcur Hx).
    set (p1 := set_currentIndex p (Z.of_nat (S c mod length (connections p)))).
    assert (Hok1 : cursor_ok p1).
    { unfold cursor_ok, p1. cbn.
      pose proof (Nat.mod_upper_bound (S c) (length (connections p)) ltac:(lia)). lia. }
    destruct (IH p1 Hok1) as (Hall & Hlen & Hconn & Hok').
    destruct (GetN k p1) as [rs p2]. cbn [fst snd] in *.
    split_and!.
    + constructor; [|exact Hall].
      exists x. split; [reflexivity|]. apply list_elem_of_lookup. eauto.
    + cbn. now rewrite Hlen.
    + exact Hconn.
    + exact Hok'.
Qed.

(** Five calls on a pool of three whose cursor stands at 2. *)
Lemma Get_keeps_cursor_valid_witness :
  (GetN 5 (mkPool "svc:50051" [10; 11; 12]%nat 2 3 true)).1
  = [Ok 12%nat; Ok 10%nat; Ok 11%nat; Ok 12%nat; Ok 10%nat]
  ∧ cursor_ok (GetN 5 (mkPool "svc:50051" [10; 11; 12]%nat 2 3 true)).2.
Proof.
  split; [reflexivity|].
  apply (Get_keeps_cursor_valid 5 (mkPool "svc:50051" [10; 11; 12]%nat 2 3 true)).
  unfold cursor_ok. cbn. lia.
Defined.

(** X6.  Round-robin is fair from any starting point: on a pool of N
    connections with the cursor at position c < N, N successive calls
    return the connections from position c to the end followed by those
    before c, so every connection exactly as often as it occurs in the
    pool, and leave the pool as it was, cursor included. *)
Theorem Get_full_round_is_fair (p : ConnectionPool) (c : nat) :
  currentIndex p = Z.of_nat c →
  (c < length (connections p))%nat →
  GetN (length (connections p)) p
  = (Ok <$> (drop c (connections p) ++ take c (connections p)), p)
  ∧ (GetN (length (connections p)) p).1 ≡ₚ Ok <$> connections p.
Proof.
  intros Hcur Hlt.
  assert (Heq : GetN (length (connections p)) p
                = (Ok <$> (drop c (connections p) ++ take c (connections p)), p)).
  { replace (length (connections p))
      with ((length (connections p) - c) + c)%nat at 1 by lia.
    rewrite GetN_app.
    rewrite (GetN_run (length (connections p) - c) p c Hcur) by lia.
    cbn [fst snd].
    replace (c + (length (connections p) - c))%nat with (length (connections p)) by lia.
    rewrite Nat.Div0.mod_same.
    rewrite (GetN_run c (set_currentIndex p (Z.of_nat 0)) 0 eq_refl);
      rewrite ?set_currentIndex_connections; [|lia|lia].
    cbn [fst snd drop]. rewrite Nat.add_0_l, Nat.mod_small by lia.
    rewrite fmap_app. f_equal.
    - f_equal. rewrite take_ge; [reflexivity|]. rewrite length_drop. lia.
    - rewrite <- Hcur. now destruct p. }
  split; [exact Heq|].
  rewrite Heq. cbn [fst]. apply fmap_Permutation.
  rewrite Permutation_app_comm. now rewrite take_drop.
Qed.

Lemma Get_full_round_is_fair_witness :
  GetN 3 (mkPool "svc:50051" [10; 11; 12]%nat 1 3 true)
  = ([Ok 11%nat; Ok 12%nat; Ok 10%nat], mkPool "svc:50051" [10; 11; 12]%nat 1 3 true).
Proof.
  exact (proj1 (Get_full_round_is_fair (mkPool "svc:50051" [10; 11; 12]%nat 1 3 true) 1
                                       eq_refl ltac:(cbn; lia))).
Defined.

Lemma CloseAll_closes (cs : list nat) (net : Net) :
  live (CloseAll net cs) = live net ∖ list_to_set cs.
Proof.
  revert net. unfold CloseAll.
  induction cs as [|c cs IH]; intros net; cbn [foldl list_to_set].
  - rewrite difference_empty_L. reflexivity.
  - rewrite IH. cbn [live CloseConn].
    apply set_eq. intros x. rewrite !elem_of_difference, elem_of_union. tauto.
Qed.

(** X7.  [Close] empties the pool and closes exactly the handles the pool
    held: the open handles afterwards are those open before minus the
    pool's, no dial is made, closing again changes nothing, and [Get] on
    the closed pool reports that no connection is available. *)
Theorem Close_releases_the_pool (p : ConnectionPool) (net : Net) :
  connections (Close p net).1 = []
  ∧ live (Close p net).2 = live net ∖ list_to_set (connections p)
  ∧ dials (Close p net).2 = dials net
  ∧ Close (Close p net).1 (Close p net).2 = Close p net
  ∧ Get (Close p net).1
    = (Err (ErrorsNew "no connections available in pool"), (Close p net).1).
Proof.
  unfold Close. cbn [fst snd].
  split_and!; try reflexivity.
  - exact (CloseAll_closes (connections p) net).
  - exact (CloseAll_dials (connections p) net).
Qed.

Section Initialize.

Variable dial : nat -> string -> option error.

(** X8.  Whatever [Initialize] did on a freshly built pool, succeed or fail
    at any dial, a [Close] afterwards leaves the pool empty and the set of
    open handles exactly as it was before [Initialize]: nothing leaks, and
    closing after a failed initialization is harmless. *)
Theorem Initialize_then_Close_leaks_nothing (p : ConnectionPool) (net : Net) :
  connections p = [] →
  Net_wf net →
  connections (Close (Initialize dial p net).1.2 (Initialize dial p net).2).1 = []
  ∧ live (Close (Initialize dial p net).1.2 (Initialize dial p net).2).2 = live net.
Proof.
  intros Hempty Hwf. split; [reflexivity|].
  unfold Close. cbn [snd]. rewrite CloseAll_closes.
  unfold Initialize.
  pose proof (Initialize_loop_spec dial (Z.to_nat (size p)) p net Hwf) as H.
  destruct (Initialize_loop dial (Z.to_nat (size p)) p net) as [[[e|] p'] net'];
    cbn [fst snd].
  - destruct H as (Hnil & Hlive & _). rewrite Hnil, Hlive, Hempty. set_solver.
  - destruct H as (new & Hconn & _ & _ & Hfresh & Hlive & _).
    rewrite Hempty in Hconn. cbn in Hconn. subst new.
    rewrite Hlive. set_solver.
Qed.

End Initialize.

Lemma Initialize_then_Close_leaks_nothing_witness :
  live (Close (Initialize (fun _ _ => None) (mkPool "svc:50051" [] 0 3 true)
                          (mkNet 4 {[ 1%nat ]})).1.2
              (Initialize (fun _ _ => None) (mkPool "svc:50051" [] 0 3 true)
                          (mkNet 4 {[ 1%nat ]})).2).2
  = {[ 1%nat ]}.
Proof.
  refine (proj2 (Initialize_then_Close_leaks_nothing
                   (fun _ _ => None) (mkPool "svc:50051" [] 0 3 true)
                   (mkNet 4 {[ 1%nat ]}) eq_refl _)).
  intros c Hc. cbn in Hc. apply elem_of_singleton in Hc. subst c. cbn. lia.
Defined.

End PoolMore.

(** ** The gRPC adapter: pools per target, accounting, the interceptor chain *)

Module GRPCMore.
Import Go Pool GRPC PoolFacts GRPCFacts.

(** X9.  The first [getConnection] for a target (TLS off, pool size n > 0,
    the next n dials accepted) dials exactly n times, stores under the
    target a pool holding the n new handles in dialling order, returns the
    first of them and leaves the cursor on the second; the pools of other
    targets are not touched. *)
Theorem getConnection_creates_the_pool (dial : nat -> string -> option error)
        (LoadX509KeyPair : string -> string -> option error)
        (a : GRPCAdapter) (tgt : string) (net : Net) :
  connections a !! tgt = None →
  EnableTLS (config a) = false →
  0 < PoolSize (config a) →
  (∀ j, (dials net ≤ j < dials net + Z.to_nat (PoolSize (config a)))%nat →
        dial j tgt = None) →
  getConnection dial LoadX509KeyPair a tgt net
  = (Ok (dials net),
     set_pools a
       (<[tgt := mkPool tgt (seq (dials net) (Z.to_nat (PoolSize (config a))))
                        (1 mod PoolSize (config a))
                        (PoolSize (config a)) (EnableHealthCheck (config a))]>
          (connections a)),
     mkNet (dials net + Z.to_nat (PoolSize (config a)))
           (list_to_set (seq (dials net) (Z.to_nat (PoolSize (config a)))) ∪ live net)).
Proof.
  intros Hnew Htls Hsize Hacc. unfold getConnection.
  rewrite Hnew, Htls. rewrite (proj2 (Z.ltb_ge _ 0)) by lia.
  unfold Initialize. cbn [size target].
  rewrite (Initialize_loop_all_accepted dial _ (mkPool tgt [] 0 _ _) net Hacc). cbn [Pool.connections app set_connections].
  destruct (Z.to_nat (PoolSize (config a))) as [|n] eqn:Hn; [lia|].
  rewrite (Get_at _ 0 (dials net)); [|reflexivity|reflexivity].
  unfold set_currentIndex, set_connections.
  cbn [target Pool.connections size healthChecks].
  rewrite length_seq, Nat2Z.inj_mod.
  replace (Z.of_nat (S n)) with (PoolSize (config a)) by lia.
  reflexivity.
Qed.

Lemma getConnection_creates_the_pool_witness :
  getConnection (fun _ _ => None) (fun _ _ => None)
                (mkAdapter (mkConfig "localhost:50051" 30 3 30 false "" "" "" true) ∅ None)
                "svc:50051" (mkNet 0 ∅)
  = (Ok 0%nat,
     mkAdapter (mkConfig "localhost:50051" 30 3 30 false "" "" "" true)
               {[ "svc:50051" := mkPool "svc:50051" [0; 1; 2]%nat 1 3 true ]} None,
     mkNet 3 ({[ 0%nat; 1%nat; 2%nat ]} ∪ ∅)).
Proof.
  exact (getConnection_creates_the_pool (fun _ _ => None) (fun _ _ => None)
           (mkAdapter (mkConfig "localhost:50051" 30 3 30 false "" "" "" true) ∅ None)
           "svc:50051" (mkNet 0 ∅) eq_refl eq_refl eq_refl (fun _ _ => eq_refl)).
Defined.

(** X10.  Once a target has a pool whose cursor points into it,
    [getConnection] for that target makes no dial and loads no key
    material: it returns the connection under the cursor, advances the
    cursor by one modulo the pool length, and leaves the transport and the
    pools of all other targets as they were. *)
Theorem getConnection_reuses_the_pool (dial : nat -> string -> option error)
        (LoadX509KeyPair : string -> string -> option error)
        (a : GRPCAdapter) (tgt : string) (net : Net) (pool : ConnectionPool) :
  connections a !! tgt = Some pool →
  cursor_ok pool →
  ∃ conn,
    Go.index (Pool.connections pool) (currentIndex pool) = Some conn
    ∧ getConnection dial LoadX509KeyPair a tgt net
      = (Ok conn,
         set_pools a
           (<[tgt := set_currentIndex pool
                       ((currentIndex pool + 1)
                          mod Z.of_nat (length (Pool.connections pool)))]>
              (connections a)),
         net).
Proof.
  intros Hpool [H0 H1]. unfold getConnection. rewrite Hpool.
  unfold Get, Go.index.
  destruct (Z.eqb_spec (Z.of_nat (length (Pool.connections pool))) 0); [lia|].
  destruct (Z.leb_spec 0 (currentIndex pool)); [|lia].
  destruct (Z.ltb_spec (currentIndex pool) (Z.of_nat (length (Pool.connections pool))));
    [|lia].
  cbn [andb].
  assert (Hlt : (Z.to_nat (currentIndex pool) < length (Pool.connections pool))%nat) by lia.
  destruct (lookup_lt_is_Some_2 _ _ Hlt) as [conn Hconn].
  rewrite Hconn. exists conn. split; [reflexivity|].
  rewrite Z.rem_mod_nonneg by lia. reflexivity.
Qed.

Lemma getConnection_reuses_the_pool_witness :
  getConnection (fun _ _ => Some (ErrorsNew "network down"))
                (fun _ _ => Some (ErrorsNew "no such file"))
                (mkAdapter (mkConfig "localhost:50051" 30 3 30 true "" "" "" true)
                           {[ "svc:50051" := mkPool "svc:50051" [0; 1; 2]%nat 2 3 true ]}
                           None)
                "svc:50051" (mkNet 3 {[ 0%nat; 1%nat; 2%nat ]})
  = (Ok 2%nat,
     mkAdapter (mkConfig "localhost:50051" 30 3 30 true "" "" "" true)
               {[ "svc:50051" := mkPool "svc:50051" [0; 1; 2]%nat 0 3 true ]} None,
     mkNet 3 {[ 0%nat; 1%nat; 2%nat ]}).
Proof.
  destruct (getConnection_reuses_the_pool
              (fun _ _ => Some (ErrorsNew "network down"))
              (fun _ _ => Some (ErrorsNew "no such file"))
              (mkAdapter (mkConfig "localhost:50051" 30 3 30 true "" "" "" true)
                         {[ "svc:50051" := mkPool "svc:50051" [0; 1; 2]%nat 2 3 true ]}
                         None)
              "svc:50051" (mkNet 3 {[ 0%nat; 1%nat; 2%nat ]})
              (mkPool "svc:50051" [0; 1; 2]%nat 2 3 true)
              ltac:(apply lookup_singleton_eq)
              ltac:(unfold cursor_ok; cbn; lia))
    as (conn & Hconn & Hget).
  rewrite Hget. cbn in Hconn. injection Hconn as <-.
  vm_compute. reflexivity.
Defined.

(** X11.  When the k-th dial of a first [getConnection] is refused
    (TLS off, the earlier ones accepted), the call fails with that dial's
    error wrapped as "failed to initialize connection pool: ...", the
    adapter is left exactly as it was (no pool is stored for the target, so
    the next call dials afresh), and every handle opened on the way has been
    closed again. *)
Theorem getConnection_refused_dial_stores_nothing
        (dial : nat -> string -> option error)
        (LoadX509KeyPair : string -> string -> option error)
        (a : GRPCAdapter) (tgt : string) (net : Net) (k : nat) (err : error) :
  connections a !! tgt = None →
  EnableTLS (config a) = false →
  Net_wf net →
  (k < Z.to_nat (PoolSize (config a)))%nat →
  (∀ j, (j < k)%nat → dial (dials net + j)%nat tgt = None) →
  dial (dials net + k)%nat tgt = Some err →
  ∃ net',
    getConnection dial LoadX509KeyPair a tgt net
    = (Err (Wrap err ("failed to initialize connection pool: " +:+ Error err)), a, net')
    ∧ live net' = live net
    ∧ dials net' = S (dials net + k).
Proof.
  intros Hnew Htls Hwf Hk Hbefore Hfail. unfold getConnection.
  rewrite Hnew, Htls. rewrite (proj2 (Z.ltb_ge _ 0)) by lia.
  unfold Initialize. cbn [size].
  set (pool := mkPool tgt [] 0 (PoolSize (config a)) (EnableHealthCheck (config a))).
  pose proof (Initialize_loop_spec dial (Z.to_nat (PoolSize (config a))) pool net Hwf) as H.
  destruct (Initialize_loop dial (Z.to_nat (PoolSize (config a))) pool net)
    as [[[e|] p'] net'] eqn:Hrun.
  - destruct H as (_ & Hlive & k' & Hk' & Hdk' & Hdials & Hnone).
    cbn [target pool] in *.
    assert (k' = (dials net + k)%nat) as ->.
    { destruct (Nat.lt_trichotomy k' (dials net + k)) as [Hlt | [Heq | Hgt]].
      - specialize (Hbefore (k' - dials net)%nat ltac:(lia)).
        replace (dials net + (k' - dials net))%nat with k' in Hbefore by lia. congruence.
      - exact Heq.
      - specialize (Hnone (dials net + k)%nat ltac:(lia)). congruence. }
    assert (e = err) as -> by congruence.
    exists net'. split_and!; [reflexivity | | exact Hdials].
    rewrite Hlive. cbn. set_solver.
  - pose proof (Initialize_loop_success_dials dial _ _ _ _ _ Hrun (dials net + k)%nat
                                              ltac:(lia)) as Hacc.
    cbn [target pool] in Hacc. congruence.
Qed.

Lemma getConnection_refused_dial_stores_nothing_witness :
  ∃ net',
    getConnection (fun k _ => if (k =? 2)%nat then Some (ErrorsNew "connection refused")
                              else None)
                  (fun _ _ => None)
                  (NewGRPCAdapter None None) "svc:50051" (mkNet 0 ∅)
    = (Err (Wrap (ErrorsNew "connection refused")
                 "failed to initialize connection pool: connection refused"),
       NewGRPCAdapter None None, net')
    ∧ live net' = ∅
    ∧ dials net' = 3%nat.
Proof.
  exact (getConnection_refused_dial_stores_nothing
           (fun k _ => if (k =? 2)%nat then Some (ErrorsNew "connection refused")
                       else None)
           (fun _ _ => None)
           (NewGRPCAdapter None None) "svc:50051" (mkNet 0 ∅) 2
           (ErrorsNew "connection refused")
           eq_refl eq_refl ltac:(intros c Hc; cbn in Hc; set_solver)
           ltac:(cbn; lia)
           ltac:(intros j Hj; destruct j as [|[|j]]; [reflexivity | reflexivity | lia])
           eq_refl).
Defined.

(** X12.  With a pool size of zero (TLS off), the first
    [getConnection] for a target dials nothing, stores an empty pool under
    the target and fails with "no connections available in pool"; from then
    on every [getConnection] for that target fails the same way and changes
    nothing, so the target stays unreachable through this adapter. *)
Theorem getConnection_empty_pool_is_kept
        (dial : nat -> string -> option error)
        (LoadX509KeyPair : string -> string -> option error)
        (a : GRPCAdapter) (tgt : string) (net : Net) :
  connections a !! tgt = None →
  EnableTLS (config a) = false →
  PoolSize (config a) = 0 →
  ∃ a',
    getConnection dial LoadX509KeyPair a tgt net
    = (Err (ErrorsNew "no connections available in pool"), a', net)
    ∧ connections a'
      = <[tgt := mkPool tgt [] 0 (PoolSize (config a)) (EnableHealthCheck (config a))]>
          (connections a)
    ∧ ∀ net2,
        getConnection dial LoadX509KeyPair a' tgt net2
        = (Err (ErrorsNew "no connections available in pool"), a', net2).
Proof.
  intros Hnew Htls Hsize. unfold getConnection at 1.
  rewrite Hnew, Htls. rewrite (proj2 (Z.ltb_ge _ 0)) by lia.
  rewrite Initialize_nonpositive_size by (cbn; lia).
  cbn. eexists. split; [reflexivity|]. split; [reflexivity|].
  intros net2. unfold getConnection. cbn [connections set_pools].
  rewrite lookup_insert_eq. cbn. unfold set_pools. cbn.
  rewrite Get_empty by reflexivity.
  now rewrite insert_insert_eq.
Qed.

Lemma getConnection_empty_pool_is_kept_witness :
  ∃ a',
    getConnection (fun _ _ => None) (fun _ _ => None)
                  (mkAdapter (mkConfig "localhost:50051" 30 0 30 false "" "" "" true) ∅ None)
                  "svc:50051" (mkNet 0 ∅)
    = (Err (ErrorsNew "no connections available in pool"), a', mkNet 0 ∅)
    ∧ getConnection (fun _ _ => None) (fun _ _ => None) a' "svc:50051" (mkNet 0 ∅)
      = (Err (ErrorsNew "no connections available in pool"), a', mkNet 0 ∅).
Proof.
  destruct (getConnection_empty_pool_is_kept
              (fun _ _ => None) (fun _ _ => None)
              (mkAdapter (mkConfig "localhost:50051" 30 0 30 false "" "" "" true) ∅ None)
              "svc:50051" (mkNet 0 ∅) (lookup_empty _) eq_refl eq_refl)
    as (a' & H1 & _ & H2).
  exists a'. split; [exact H1 | exact (H2 (mkNet 0 ∅))].
Defined.

(** X13.  With TLS enabled but no certificate file or no key file
    configured, a first [getConnection] for a target fails with "TLS
    certificate or key file not specified" wrapped as "failed to load TLS
    credentials: ...", before any dial and without reading any file; the
    adapter and the transport are left as they were. *)
Theorem getConnection_needs_certificate_and_key
        (dial : nat -> string -> option error)
        (LoadX509KeyPair : string -> string -> option error)
        (a : GRPCAdapter) (tgt : string) (net : Net) :
  connections a !! tgt = None →
  EnableTLS (config a) = true →
  TLSCertFile (config a) = "" ∨ TLSKeyFile (config a) = "" →
  getConnection dial LoadX509KeyPair a tgt net
  = (Err (Wrap (ErrorsNew "TLS certificate or key file not specified")
               "failed to load TLS credentials: TLS certificate or key file not specified"),
     a, net).
Proof.
  intros Hnew Htls Hfiles. unfold getConnection, getTLSCredentials.
  rewrite Hnew, Htls.
  assert ((TLSCertFile (config a) =? "")%string
          || (TLSKeyFile (config a) =? "")%string = true) as ->; [|reflexivity].
  destruct Hfiles as [-> | ->]; cbn; [reflexivity | apply orb_true_r].
Qed.

Lemma getConnection_needs_certificate_and_key_witness :
  getConnection (fun _ _ => None) (fun _ _ => None)
                (mkAdapter (mkConfig "localhost:50051" 30 3 30 true "server.crt" "" "" true)
                           ∅ None)
                "svc:50051" (mkNet 0 ∅)
  = (Err (Wrap (ErrorsNew "TLS certificate or key file not specified")
               "failed to load TLS credentials: TLS certificate or key file not specified"),
     mkAdapter (mkConfig "localhost:50051" 30 3 30 true "server.crt" "" "" true) ∅ None,
     mkNet 0 ∅).
Proof.
  exact (getConnection_needs_certificate_and_key
           (fun _ _ => None) (fun _ _ => None)
           (mkAdapter (mkConfig "localhost:50051" 30 3 30 true "server.crt" "" "" true)
                      ∅ None)
           "svc:50051" (mkNet 0 ∅) eq_refl eq_refl (or_intror eq_refl)).
Defined.

(** A non-nil error is never mapped to [nil]. *)
Lemma mapGRPCError_keeps_failure (e : error) :
  ∃ e', mapGRPCError (Some e) = Some e'.
Proof.
  destruct (FromError e).2 eqn:Hok.
  - destruct (mapGRPCError_carried e Hok) as (kind & _ & H). eauto.
  - eexists. now apply mapGRPCError_no_status.
Qed.

(** X14.  When a connection is obtained, [Call] invokes the method on it
    and returns [nil] when the invocation does; when the invocation fails it
    returns the error [mapGRPCError] makes of the invocation error, which
    is never [nil] and is a canonical bridge error whenever the invocation
    error carries a status.  With a metrics
    collector, it counts the request once in [grpc.requests_total] and
    observes one duration for the method, whatever the outcome; it leaves
    [grpc_connection_errors] alone; and it raises [grpc.errors_total] by
    one, under the method and the status-code label of the invocation
    error, exactly when the invocation failed. *)
Theorem Call_accounts_for_the_request
        (dial : nat -> string -> option error)
        (LoadX509KeyPair : string -> string -> option error)
        (Invoke : nat -> string -> option error)
        (a : GRPCAdapter) (tgt method : string) (net : Net)
        (conn : nat) (a1 : GRPCAdapter) (net1 : Net) (m : Collector) :
  getConnection dial LoadX509KeyPair a tgt net = (Ok conn, a1, net1) →
  metrics a1 = Some m →
  ∃ r m2,
    Call dial LoadX509KeyPair Invoke a tgt method net = (r, set_metrics a1 (Some m2), net1)
    ∧ (Invoke conn method = None → r = Ok tt)
    ∧ (∀ raw, Invoke conn method = Some raw →
              ∃ e, mapGRPCError (Some raw) = Some e
                   ∧ r = Err e
                   ∧ ((FromError raw).2 = true → is_canonical e = true))
    ∧ counter m2 "grpc.requests_total" [("method", method)]
      = S (counter m "grpc.requests_total" [("method", method)])
    ∧ default 0%nat (observations m2 !! ("grpc.request_duration_seconds",
                                        [("method", method)]))
      = S (default 0%nat (observations m !! ("grpc.request_duration_seconds",
                                             [("method", method)])))
    ∧ (∀ labels, counter m2 "grpc_connection_errors" labels
                 = counter m "grpc_connection_errors" labels)
    ∧ (∀ labels,
          counter m2 "grpc.errors_total" labels
          = match Invoke conn method with
            | Some e =>
                if decide (labels = [("method", method);
                                     ("code", grpcStatusCode (Some e))])
                then S (counter m "grpc.errors_total" labels)
                else counter m "grpc.errors_total" labels
            | None => counter m "grpc.errors_total" labels
            end).
Proof.
  intros Hconn Hm. unfold Call. rewrite Hconn.
  unfold withMetrics. rewrite Hm. cbn [fmap option_fmap option_map].
  destruct (Invoke conn method) as [e|] eqn:Hinv.
  - destruct (mapGRPCError_keeps_failure e) as [e' He'].
    rewrite He'. eexists _, _. split; [reflexivity|].
    split_and!.
    + discriminate.
    + intros raw [= <-]. exists e'. split_and!; [exact He' | reflexivity |].
      intros Hok. destruct (mapGRPCError_carried e Hok) as (kind & Hkind & Hmap).
      rewrite Hmap in He'. injection He' as <-. now apply is_canonical_bridge.
    + repeat (rewrite counter_IncCounter || rewrite counter_ObserveHistogram).
      repeat case_decide; congruence.
    + cbn. now rewrite lookup_insert_eq.
    + intros labels.
      repeat (rewrite counter_IncCounter || rewrite counter_ObserveHistogram).
      repeat case_decide; congruence.
    + intros labels.
      repeat (rewrite counter_IncCounter || rewrite counter_ObserveHistogram).
      repeat case_decide; try congruence.
  - cbn [mapGRPCError]. eexists _, _. split; [reflexivity|].
    split_and!.
    + reflexivity.
    + discriminate.
    + repeat (rewrite counter_IncCounter || rewrite counter_ObserveHistogram).
      repeat case_decide; congruence.
    + cbn. now rewrite lookup_insert_eq.
    + intros labels.
      repeat (rewrite counter_IncCounter || rewrite counter_ObserveHistogram).
      repeat case_decide; congruence.
    + intros labels.
      repeat (rewrite counter_IncCounter || rewrite counter_ObserveHistogram).
      repeat case_decide; congruence.
Qed.

(** A pooled connection, a collector, and a server answering [NotFound]. *)
Lemma Call_accounts_for_the_request_witness :
  ∃ r m2,
    Call (fun _ _ => None) (fun _ _ => None)
         (fun _ _ => Some (StatusErr (mkStatus codes.NotFound "no such user" [])))
         (mkAdapter DefaultGRPCAdapterConfig
                    {[ "svc:50051" := mkPool "svc:50051" [0%nat] 0 1 true ]}
                    (Some (mkCollector ∅ ∅)))
         "svc:50051" "/bridge.Bridge/SendMessage" (mkNet 1 {[0%nat]})
    = (r,
       set_metrics
         (mkAdapter DefaultGRPCAdapterConfig
                    {[ "svc:50051" := mkPool "svc:50051" [0%nat] 0 1 true ]}
                    (Some (mkCollector ∅ ∅)))
         (Some m2),
       mkNet 1 {[0%nat]})
    ∧ r = Err (BridgeErr (mkBridgeError "NOT_FOUND" "no such user"
                            [("code", VInt 5); ("details", VMaps [])]))
    ∧ counter m2 "grpc.requests_total" [("method", "/bridge.Bridge/SendMessage")] = 1%nat
    ∧ counter m2 "grpc.errors_total"
              [("method", "/bridge.Bridge/SendMessage"); ("code", "NotFound")] = 1%nat.
Proof.
  assert (Hconn :
    getConnection (fun _ _ => None) (fun _ _ => None)
      (mkAdapter DefaultGRPCAdapterConfig
                 {[ "svc:50051" := mkPool "svc:50051" [0%nat] 0 1 true ]}
                 (Some (mkCollector ∅ ∅)))
      "svc:50051" (mkNet 1 {[0%nat]})
    = (Ok 0%nat,
       mkAdapter DefaultGRPCAdapterConfig
                 {[ "svc:50051" := mkPool "svc:50051" [0%nat] 0 1 true ]}
                 (Some (mkCollector ∅ ∅)),
       mkNet 1 {[0%nat]})) by (vm_compute; reflexivity).
  destruct (Call_accounts_for_the_request
              (fun _ _ => None) (fun _ _ => None)
              (fun _ _ => Some (StatusErr (mkStatus codes.NotFound "no such user" [])))
              _ "svc:50051" "/bridge.Bridge/SendMessage" _ _ _ _ (mkCollector ∅ ∅)
              Hconn eq_refl)
    as (r & m2 & Hcall & _ & Hfail & Hreq & _ & _ & Herr).
  destruct (Hfail _ eq_refl) as (e & Hmap & -> & _).
  vm_compute in Hmap. injection Hmap as <-.
  eexists _, m2. split_and!; [exact Hcall | reflexivity | exact Hreq |].
  rewrite Herr. reflexivity.
Defined.

(** X15.  When no connection can be obtained, [Call] never invokes the
    remote method (its result does not depend on what an invocation would
    return) and returns the cause wrapped under [ErrConnectionFailed]; with
    a metrics collector it raises [grpc_connection_errors] for the target by
    one and touches no other counter, so the attempt is not counted as a
    request. *)
Theorem Call_without_connection_counts_no_request
        (dial : nat -> string -> option error)
        (LoadX509KeyPair : string -> string -> option error)
        (Invoke : nat -> string -> option error)
        (a : GRPCAdapter) (tgt method : string) (net : Net)
        (cause : error) (a1 : GRPCAdapter) (net1 : Net) :
  getConnection dial LoadX509KeyPair a tgt net = (Err cause, a1, net1) →
  (∃ a2,
      Call dial LoadX509KeyPair Invoke a tgt method net
      = (Err (Wrap ErrConnectionFailed
                   ("failed to establish gRPC connection: " +:+ Error cause)),
         a2, net1)
      ∧ config a2 = config a1
      ∧ connections a2 = connections a1
      ∧ match metrics a1 with
        | None => metrics a2 = None
        | Some m =>
            ∃ m2, metrics a2 = Some m2
                  ∧ counter m2 "grpc_connection_errors" [("target", tgt)]
                    = S (counter m "grpc_connection_errors" [("target", tgt)])
                  ∧ (∀ name labels,
                        (name, labels) ≠ ("grpc_connection_errors", [("target", tgt)]) →
                        counter m2 name labels = counter m name labels)
                  ∧ observations m2 = observations m
        end)
  ∧ ∀ Invoke' : nat -> string -> option error,
      Call dial LoadX509KeyPair Invoke' a tgt method net
      = Call dial LoadX509KeyPair Invoke a tgt method net.
Proof.
  intros Hconn. split.
  - unfold Call. rewrite Hconn. eexists. split; [reflexivity|].
    split; [reflexivity|]. split; [reflexivity|].
    unfold withMetrics. cbn [metrics set_metrics].
    destruct (metrics a1) as [m|]; cbn; [|reflexivity].
    eexists. split; [reflexivity|]. split_and!.
    + rewrite counter_IncCounter. now rewrite decide_True.
    + intros name labels Hne. rewrite counter_IncCounter.
      now rewrite decide_False by congruence.
    + reflexivity.
  - intros Invoke'. unfold Call. now rewrite Hconn.
Qed.

Lemma Call_without_connection_counts_no_request_witness :
  ∃ a2,
    Call (fun _ _ => Some (ErrorsNew "connection refused")) (fun _ _ => None)
         (fun _ _ => None)
         (NewGRPCAdapter None (Some (mkCollector ∅ ∅)))
         "svc:50051" "/bridge.Bridge/SendMessage" (mkNet 0 ∅)
    = (Err (Wrap ErrConnectionFailed
              ("failed to establish gRPC connection: "
               +:+ Error (Wrap (ErrorsNew "connection refused")
                               "failed to initialize connection pool: connection refused"))),
       a2, mkNet 1 ∅)
    ∧ connections a2 = ∅.
Proof.
  assert (Hconn :
    getConnection (fun _ _ => Some (ErrorsNew "connection refused")) (fun _ _ => None)
      (NewGRPCAdapter None (Some (mkCollector ∅ ∅))) "svc:50051" (mkNet 0 ∅)
    = (Err (Wrap (ErrorsNew "connection refused")
                 "failed to initialize connection pool: connection refused"),
       NewGRPCAdapter None (Some (mkCollector ∅ ∅)), mkNet 1 ∅))
    by (vm_compute; reflexivity).
  destruct (Call_without_connection_counts_no_request
              (fun _ _ => Some (ErrorsNew "connection refused")) (fun _ _ => None)
              (fun _ _ => None) _ "svc:50051" "/bridge.Bridge/SendMessage" _ _ _ _ Hconn)
    as ((a2 & Hcall & _ & Hconns & _) & _).
  exists a2. split; [exact Hcall | exact Hconns].
Defined.

(** X16.  The kind [mapGRPCError] gives a status error depends on the
    status code alone: it is "UNKNOWN" exactly for the codes without a case
    of their own (0, 2, and everything outside 1..16), and two statuses
    whose codes have a case get the same kind only if their codes are
    equal. *)
Theorem mapGRPCError_kind_by_code (st st' : Status) :
  (error_kind (mapGRPCError (Some (StatusErr st))) = "UNKNOWN"
   ↔ ¬ named_code (st_code st))
  ∧ (named_code (st_code st) →
     named_code (st_code st') →
     error_kind (mapGRPCError (Some (StatusErr st)))
     = error_kind (mapGRPCError (Some (StatusErr st'))) →
     st_code st = st_code st').
Proof.
  assert (Hkind : ∀ s : Status,
             (st_code s = 3 ∧ error_kind (mapGRPCError (Some (StatusErr s))) = "INVALID_ARGUMENT")
             ∨ (st_code s = 5 ∧ error_kind (mapGRPCError (Some (StatusErr s))) = "NOT_FOUND")
             ∨ (st_code s = 6 ∧ error_kind (mapGRPCError (Some (StatusErr s))) = "ALREADY_EXISTS")
             ∨ (st_code s = 7 ∧ error_kind (mapGRPCError (Some (StatusErr s))) = "PERMISSION_DENIED")
             ∨ (st_code s = 8 ∧ error_kind (mapGRPCError (Some (StatusErr s))) = "RESOURCE_EXHAUSTED")
             ∨ (st_code s = 9 ∧ error_kind (mapGRPCError (Some (StatusErr s))) = "FAILED_PRECONDITION")
             ∨ (st_code s = 10 ∧ error_kind (mapGRPCError (Some (StatusErr s))) = "ABORTED")
             ∨ (st_code s = 11 ∧ error_kind (mapGRPCError (Some (StatusErr s))) = "OUT_OF_RANGE")
             ∨ (st_code s = 12 ∧ error_kind (mapGRPCError (Some (StatusErr s))) = "UNIMPLEMENTED")
             ∨ (st_code s = 13 ∧ error_kind (mapGRPCError (Some (StatusErr s))) = "INTERNAL")
             ∨ (st_code s = 14 ∧ error_kind (mapGRPCError (Some (StatusErr s))) = "UNAVAILABLE")
             ∨ (st_code s = 15 ∧ error_kind (mapGRPCError (Some (StatusErr s))) = "DATA_LOSS")
             ∨ (st_code s = 16 ∧ error_kind (mapGRPCError (Some (StatusErr s))) = "UNAUTHENTICATED")
             ∨ (st_code s = 4 ∧ error_kind (mapGRPCError (Some (StatusErr s))) = "DEADLINE_EXCEEDED")
             ∨ (st_code s = 1 ∧ error_kind (mapGRPCError (Some (StatusErr s))) = "CANCELED")
             ∨ (¬ named_code (st_code s)
                ∧ error_kind (mapGRPCError (Some (StatusErr s))) = "UNKNOWN")).
  { intros s. unfold mapGRPCError, FromError, NewBridgeError, error_kind, named_code.
    cbn [negb]. unfold codes.InvalidArgument, codes.NotFound, codes.AlreadyExists,
      codes.PermissionDenied, codes.ResourceExhausted, codes.FailedPrecondition,
      codes.Aborted, codes.OutOfRange, codes.Unimplemented, codes.Internal,
      codes.Unavailable, codes.DataLoss, codes.Unauthenticated, codes.DeadlineExceeded,
      codes.Canceled.
    repeat match goal with
           | |- context [if ?c =? ?k then _ else _] =>
               destruct (Z.eqb_spec c k) as [?|?]
           end; cbn [Code]; try tauto.
    do 15 right. split; [lia | reflexivity]. }
  unfold named_code in *.
  split.
  - destruct (Hkind st) as [H|H]; repeat (destruct H as [H|H]);
      destruct H as [Hc Hk]; rewrite Hk;
      (split; [try discriminate; tauto | intros Hn; try reflexivity; exfalso; apply Hn; lia]).
  - intros Hn Hn' Heq.
    destruct (Hkind st) as [H|H]; repeat (destruct H as [H|H]);
      destruct H as [Hc Hk]; rewrite Hk in Heq; try tauto;
      destruct (Hkind st') as [H'|H']; repeat (destruct H' as [H'|H']);
      destruct H' as [Hc' Hk']; rewrite Hk' in Heq; try tauto;
      try discriminate Heq; lia.
Qed.

Example mapGRPCError_kinds :
  error_kind (mapGRPCError (Some (StatusErr (mkStatus codes.Unavailable "" [])))) = "UNAVAILABLE"
  ∧ error_kind (mapGRPCError (Some (StatusErr (mkStatus codes.Unknown "" [])))) = "UNKNOWN"
  ∧ error_kind (mapGRPCError (Some (StatusErr (mkStatus codes.OK "" [])))) = "UNKNOWN"
  ∧ error_kind (mapGRPCError (Some (StatusErr (mkStatus 99 "" [])))) = "UNKNOWN".
Proof. repeat split. Qed.

(** X17.  Through the default chain (logging, metrics, recovery, timeout) a
    handler that returns has its response and error handed to the caller
    unchanged; it is run under the caller's context narrowed by the
    configured timeout.  With a collector, the call is counted once in
    [grpc.requests_total], one duration is observed, [grpc.panics_total] is
    left alone, and [grpc.errors_total] is raised by one, under the method
    and the status-code label of the error, exactly when the handler
    returned an error. *)
Theorem default_chain_passes_the_reply (now : Z) (ctx : Ctx) (req : string)
        (info : UnaryServerInfo) (handler : UnaryHandler) (a a1 : GRPCAdapter)
        (m : Collector) (resp : option string) (err : option error) :
  handler (WithTimeout now ctx (Timeout (config a))) req a = (Return resp err, a1) →
  metrics a1 = Some m →
  ∃ m2,
    chain (default_interceptors now) info handler ctx req a
    = (Return resp err, set_metrics a1 (Some m2))
    ∧ counter m2 "grpc.requests_total" [("method", FullMethod info)]
      = S (counter m "grpc.requests_total" [("method", FullMethod info)])
    ∧ default 0%nat (observations m2 !! ("grpc.request_duration_seconds",
                                        [("method", FullMethod info)]))
      = S (default 0%nat (observations m !! ("grpc.request_duration_seconds",
                                             [("method", FullMethod info)])))
    ∧ (∀ labels, counter m2 "grpc.panics_total" labels
                 = counter m "grpc.panics_total" labels)
    ∧ (∀ labels,
          counter m2 "grpc.errors_total" labels
          = match err with
            | Some _ =>
                if decide (labels = [("method", FullMethod info);
                                     ("code", grpcStatusCode err)])
                then S (counter m "grpc.errors_total" labels)
                else counter m "grpc.errors_total" labels
            | None => counter m "grpc.errors_total" labels
            end).
Proof.
  intros Hret Hm.
  cbn [chain default_interceptors].
  unfold loggingInterceptor, metricsInterceptor, recoveryInterceptor, timeoutInterceptor.
  rewrite Hret. unfold withMetrics. cbn [metrics set_metrics]. rewrite Hm.
  cbn [fmap option_fmap option_map].
  eexists. split; [reflexivity|].
  destruct err as [e|]; split_and!; try intros labels;
    repeat (rewrite counter_IncCounter || rewrite counter_ObserveHistogram);
    try (cbn; now rewrite lookup_insert_eq);
    repeat case_decide; congruence.
Qed.

(** A handler whose error wraps a [NotFound] status: the error comes back
    as it is and is counted under the code of the wrapped status. *)
Lemma default_chain_passes_the_reply_witness :
  ∃ m2,
    chain (default_interceptors 1000) (mkInfo "/bridge.Bridge/SendMessage")
          (fun _ _ a =>
             (Return None
                (Some (Wrap (StatusErr (mkStatus codes.NotFound "no such user" []))
                            "lookup: rpc error: code = NotFound desc = no such user")),
              a))
          (mkCtx None) "ping" (NewGRPCAdapter None (Some (mkCollector ∅ ∅)))
    = (Return None
         (Some (Wrap (StatusErr (mkStatus codes.NotFound "no such user" []))
                     "lookup: rpc error: code = NotFound desc = no such user")),
       set_metrics (NewGRPCAdapter None (Some (mkCollector ∅ ∅))) (Some m2))
    ∧ counter m2 "grpc.requests_total" [("method", "/bridge.Bridge/SendMessage")] = 1%nat
    ∧ counter m2 "grpc.errors_total"
              [("method", "/bridge.Bridge/SendMessage"); ("code", "NotFound")] = 1%nat.
Proof.
  destruct (default_chain_passes_the_reply
              1000 (mkCtx None) "ping" (mkInfo "/bridge.Bridge/SendMessage")
              (fun _ _ a =>
                 (Return None
                    (Some (Wrap (StatusErr (mkStatus codes.NotFound "no such user" []))
                                "lookup: rpc error: code = NotFound desc = no such user")),
                  a))
              (NewGRPCAdapter None (Some (mkCollector ∅ ∅)))
              (NewGRPCAdapter None (Some (mkCollector ∅ ∅)))
              (mkCollector ∅ ∅) None _ eq_refl eq_refl)
    as (m2 & Hchain & Hreq & _ & _ & Herr).
  exists m2. split_and!; [exact Hchain | exact Hreq |].
  rewrite Herr. reflexivity.
Defined.

(** X18.  Through the default chain a panic of the handler is seen by the
    outer interceptors as an ordinary failed call: with a collector, besides
    the panic counter, [grpc.requests_total] is raised by one, one duration
    is observed, and [grpc.errors_total] is raised by one under the code
    label "Internal" and under no other label. *)
Theorem default_chain_counts_panic_as_error (now : Z) (ctx : Ctx) (req : string)
        (info : UnaryServerInfo) (handler : UnaryHandler) (a a1 : GRPCAdapter)
        (m : Collector) (r : string) :
  handler (WithTimeout now ctx (Timeout (config a))) req a = (Panics r, a1) →
  metrics a1 = Some m →
  ∃ m2,
    chain (default_interceptors now) info handler ctx req a
    = (Return None (Some internal_error), set_metrics a1 (Some m2))
    ∧ counter m2 "grpc.requests_total" [("method", FullMethod info)]
      = S (counter m "grpc.requests_total" [("method", FullMethod info)])
    ∧ default 0%nat (observations m2 !! ("grpc.request_duration_seconds",
                                        [("method", FullMethod info)]))
      = S (default 0%nat (observations m !! ("grpc.request_duration_seconds",
                                             [("method", FullMethod info)])))
    ∧ (∀ labels,
          counter m2 "grpc.errors_total" labels
          = if decide (labels = [("method", FullMethod info); ("code", "Internal")])
            then S (counter m "grpc.errors_total" labels)
            else counter m "grpc.errors_total" labels).
Proof.
  intros Hpanic Hm.
  cbn [chain default_interceptors].
  unfold loggingInterceptor, metricsInterceptor, recoveryInterceptor, timeoutInterceptor.
  rewrite Hpanic. unfold withMetrics. cbn [metrics set_metrics]. rewrite Hm.
  cbn [fmap option_fmap option_map].
  eexists. split; [reflexivity|].
  change (grpcStatusCode (Some internal_error)) with "Internal".
  split_and!; try intros labels;
    repeat (rewrite counter_IncCounter || rewrite counter_ObserveHistogram);
    try (cbn; now rewrite lookup_insert_eq);
    repeat case_decide; congruence.
Qed.

Lemma default_chain_counts_panic_as_error_witness :
  ∃ m2,
    chain (default_interceptors 1000) (mkInfo "/bridge.Bridge/SendMessage")
          (fun _ _ a => (Panics "nil map", a))
          (mkCtx None) "ping" (NewGRPCAdapter None (Some (mkCollector ∅ ∅)))
    = (Return None (Some internal_error),
       set_metrics (NewGRPCAdapter None (Some (mkCollector ∅ ∅))) (Some m2))
    ∧ counter m2 "grpc.errors_total"
              [("method", "/bridge.Bridge/SendMessage"); ("code", "Internal")] = 1%nat.
Proof.
  destruct (default_chain_counts_panic_as_error
              1000 (mkCtx None) "ping" (mkInfo "/bridge.Bridge/SendMessage")
              (fun _ _ a => (Panics "nil map", a))
              (NewGRPCAdapter None (Some (mkCollector ∅ ∅)))
              (NewGRPCAdapter None (Some (mkCollector ∅ ∅)))
              (mkCollector ∅ ∅) "nil map" eq_refl eq_refl)
    as (m2 & Hchain & _ & _ & Herr).
  exists m2. split; [exact Hchain|]. rewrite Herr. reflexivity.
Defined.

(** X19.  The logging, metrics and timeout interceptors do not recover
    anything: a chain built from them alone, in any number and order, lets
    the handler's panic through and leaves the adapter, its counters
    included, exactly as the handler left it. *)
Theorem chain_without_recovery_lets_panic_through
        (ics : list UnaryServerInterceptor) (info : UnaryServerInfo)
        (handler : UnaryHandler) (req r : string) (a a1 : GRPCAdapter) :
  Forall (fun i => i = loggingInterceptor ∨ i = metricsInterceptor
                   ∨ ∃ now, i = timeoutInterceptor now) ics →
  (∀ ctx, handler ctx req a = (Panics r, a1)) →
  ∀ ctx, chain ics info handler ctx req a = (Panics r, a1).
Proof.
  intros Hics Hpanic. induction Hics as [|i ics Hi _ IH]; intros ctx; cbn [chain].
  - apply Hpanic.
  - destruct Hi as [-> | [-> | [now ->]]].
    + unfold loggingInterceptor. now rewrite IH.
    + unfold metricsInterceptor. now rewrite IH.
    + unfold timeoutInterceptor. apply IH.
Qed.

Lemma chain_without_recovery_lets_panic_through_witness :
  chain [loggingInterceptor; metricsInterceptor; timeoutInterceptor 1000]
        (mkInfo "/bridge.Bridge/SendMessage")
        (fun _ _ a => (Panics "nil map", a))
        (mkCtx None) "ping" (NewGRPCAdapter None (Some (mkCollector ∅ ∅)))
  = (Panics "nil map", NewGRPCAdapter None (Some (mkCollector ∅ ∅))).
Proof.
  apply (chain_without_recovery_lets_panic_through
           [loggingInterceptor; metricsInterceptor; timeoutInterceptor 1000]
           (mkInfo "/bridge.Bridge/SendMessage")
           (fun _ _ a => (Panics "nil map", a)) "ping" "nil map").
  - constructor; [left; reflexivity|].
    constructor; [right; left; reflexivity|].
    constructor; [right; right; exists 1000; reflexivity|].
    constructor.
  - reflexivity.
Defined.

(** Closing a list of pools one after the other. *)
Lemma close_pools_live (pools : list (string * ConnectionPool)) :
  ∀ net,
    live (foldl (fun net '(_, pool) => (Close pool net).2) net pools)
    = live net ∖ list_to_set (concat (Pool.connections <$> pools.*2))
    ∧ dials (foldl (fun net '(_, pool) => (Close pool net).2) net pools) = dials net.
Proof.
  induction pools as [|[tgt pool] pools IH]; intros net; cbn [foldl].
  - cbn. split; [|reflexivity]. now rewrite difference_empty_L.
  - destruct (IH (Close pool net).2) as [Hl Hd]. rewrite Hl, Hd.
    unfold Close. cbn [snd fmap list_fmap concat].
    rewrite PoolMore.CloseAll_closes, CloseAll_dials, list_to_set_app_L.
    split; [|reflexivity].
    apply set_eq. intros x. rewrite !elem_of_difference, elem_of_union. tauto.
Qed.

(** X20.  [Stop] closes every pooled connection and forgets the pools: the
    adapter's pool map is empty afterwards (configuration and collector are
    kept), the handles still open are those that were open before minus
    those held by some pool, and no dial is made. *)
Theorem Stop_closes_every_pool (a : GRPCAdapter) (net : Net) :
  connections (Stop a net).1 = ∅
  ∧ config (Stop a net).1 = config a
  ∧ metrics (Stop a net).1 = metrics a
  ∧ live (Stop a net).2 = live net ∖ pooled a
  ∧ dials (Stop a net).2 = dials net
  ∧ ∀ tgt pool c,
      connections a !! tgt = Some pool →
      c ∈ Pool.connections pool →
      c ∉ live (Stop a net).2.
Proof.
  unfold Stop, pooled. cbn [fst snd].
  destruct (close_pools_live (map_to_list (connections a)) net) as [Hl Hd].
  split_and!; try reflexivity; try assumption.
  intros tgt pool c Hpool Hc. rewrite Hl.
  intros Hin. apply elem_of_difference in Hin as [_ Hnot]. apply Hnot.
  apply elem_of_list_to_set, list_elem_of_In, in_concat.
  exists (Pool.connections pool). split; [|now apply list_elem_of_In].
  apply list_elem_of_In.
  apply list_elem_of_fmap. exists pool. split; [reflexivity|].
  apply list_elem_of_fmap. exists (tgt, pool). split; [reflexivity|].
  now apply elem_of_map_to_list.
Qed.

Example Stop_two_pools :
  Stop (mkAdapter DefaultGRPCAdapterConfig
                  {[ "a:1" := mkPool "a:1" [0; 1]%nat 1 2 true;
                     "b:2" := mkPool "b:2" [3]%nat 0 1 true ]} None)
       (mkNet 5 {[ 0; 1; 3; 4 ]}%nat)
  = (mkAdapter DefaultGRPCAdapterConfig ∅ None, mkNet 5 {[ 4%nat ]}).
Proof. vm_compute. reflexivity. Qed.

End GRPCMore.

(** ** The discovery registry: guards, round trips, invariants *)

Module DiscoveryMore.
Import Go Discovery DiscoveryFacts.

(** X21.  The guarded operations of a registry that is not initialized
    (before [Initialize], or after a [Stop]): [RegisterService],
    [DeregisterService], [GetService], [GetServiceMetadata], [FindServices],
    [WatchServices], [UnwatchServices] and [CheckServiceHealth] each begin
    with the test of [initialized], so each returns [ErrNotInitialized] and
    leaves the registry and the channels untouched; a pass of the
    health-check loop, which goes through [CheckServiceHealth], changes
    nothing, and [Stop] returns at once.  ([UpdateServiceMetadata] has no
    such test; it is not among the operations covered here.) *)
Theorem uninitialized_registry_refuses (clock : nat -> Z) (healthChecker : HealthChecker)
        (d : DiscoveryService) (w : World) :
  initialized d = false →
  (∀ info, RegisterService clock d info w = (Some ErrNotInitialized, d, w))
  ∧ (∀ id, DeregisterService clock d id w = (Some ErrNotInitialized, d, w))
  ∧ (∀ id, GetService d id = (None, Some ErrNotInitialized))
  ∧ (∀ id, GetServiceMetadata d id = (None, Some ErrNotInitialized))
  ∧ (∀ f, FindServices d f = ([], Some ErrNotInitialized))
  ∧ (∀ f eventChan,
        WatchServices clock d f eventChan w = (("", Some ErrNotInitialized), d, w))
  ∧ (∀ lid, UnwatchServices d lid = (Some ErrNotInitialized, d))
  ∧ (∀ id, CheckServiceHealth clock healthChecker d id w
           = ((false, Some ErrNotInitialized), d, w))
  ∧ runHealthChecks clock healthChecker d w = (d, w)
  ∧ Stop d = (Ok tt, d).
Proof.
  intros Hinit.
  assert (Hcheck : ∀ id w0, CheckServiceHealth clock healthChecker d id w0
                            = ((false, Some ErrNotInitialized), d, w0)).
  { intros id w0. unfold CheckServiceHealth. now rewrite Hinit. }
  split_and!.
  - intros info. unfold RegisterService. now rewrite Hinit.
  - intros id. unfold DeregisterService. now rewrite Hinit.
  - intros id. unfold GetService. now rewrite Hinit.
  - intros id. unfold GetServiceMetadata, GetService. now rewrite Hinit.
  - intros f. unfold FindServices. now rewrite Hinit.
  - intros f c. unfold WatchServices. now rewrite Hinit.
  - intros lid. unfold UnwatchServices. now rewrite Hinit.
  - intros id. apply Hcheck.
  - unfold runHealthChecks.
    generalize ((map_to_list (services d)).*1). intros ids.
    induction ids as [|id ids IH]; cbn [foldl]; [reflexivity|].
    now rewrite Hcheck.
  - unfold Stop. now rewrite Hinit.
Qed.

Lemma uninitialized_registry_refuses_witness :
  RegisterService Samples.clock (NewDiscoveryService None None) Samples.echo Samples.world
  = (Some ErrNotInitialized, NewDiscoveryService None None, Samples.world).
Proof.
  exact (proj1 (uninitialized_registry_refuses
                  Samples.clock (DefaultCheckHealth false)
                  (NewDiscoveryService None None) Samples.world eq_refl)
               Samples.echo).
Defined.

(** X22.  In an initialized registry every call that fails is without
    effect on the registry and the channels: registering a [ServiceInfo]
    with an empty ID, name or address or a zero port
    ([ErrInvalidServiceInfo]); deregistering, looking up or health-checking
    an unknown id ([ErrServiceNotFound], or "health checks are disabled"
    when they are); watching with a [nil] channel or with watching disabled;
    unwatching an unknown listener ("listener not found"); and a health
    check whose checker returns an error, which is passed on with the
    verdict [false]. *)
Theorem failed_calls_change_nothing (clock : nat -> Z) (healthChecker : HealthChecker)
        (d : DiscoveryService) (w : World) :
  initialized d = true →
  (∀ info, ID info = "" ∨ Name info = "" ∨ Address info = "" ∨ Port info = 0 →
           RegisterService clock d info w = (Some ErrInvalidServiceInfo, d, w))
  ∧ (∀ id, services d !! id = None →
           DeregisterService clock d id w = (Some ErrServiceNotFound, d, w)
           ∧ GetService d id = (None, Some ErrServiceNotFound)
           ∧ CheckServiceHealth clock healthChecker d id w
             = ((false,
                 Some (if EnableHealthChecks (config d) then ErrServiceNotFound
                       else ErrorsNew "health checks are disabled")), d, w))
  ∧ (∀ f eventChan,
        EnableWatching (config d) = false →
        WatchServices clock d f eventChan w
        = (("", Some (ErrorsNew "service watching is disabled")), d, w))
  ∧ (∀ f,
        EnableWatching (config d) = true →
        WatchServices clock d f None w
        = (("", Some (ErrorsNew "event channel cannot be nil")), d, w))
  ∧ (∀ lid, eventListeners d !! lid = None →
            UnwatchServices d lid = (Some (ErrorsNew "listener not found"), d))
  ∧ (∀ id info verdict err,
        EnableHealthChecks (config d) = true →
        services d !! id = Some info →
        healthChecker info = (verdict, Some err) →
        CheckServiceHealth clock healthChecker d id w = ((false, Some err), d, w)).
Proof.
  intros Hinit. split_and!.
  - intros info H. now apply RegisterService_invalid.
  - intros id Hnone. split_and!.
    + unfold DeregisterService. now rewrite Hinit, Hnone.
    + unfold GetService. now rewrite Hinit, Hnone.
    + unfold CheckServiceHealth. rewrite Hinit, Hnone.
      now destruct (EnableHealthChecks (config d)).
  - intros f c Hoff. unfold WatchServices. now rewrite Hinit, Hoff.
  - intros f Hon. unfold WatchServices. now rewrite Hinit, Hon.
  - intros lid Hnone. unfold UnwatchServices. now rewrite Hinit, Hnone.
  - intros id info verdict err Hen Hinfo Hcheck.
    unfold CheckServiceHealth. now rewrite Hinit, Hen, Hinfo, Hcheck.
Qed.

Lemma failed_calls_change_nothing_witness :
  DeregisterService Samples.clock Samples.registry2 "svc-9" Samples.world2
  = (Some ErrServiceNotFound, Samples.registry2, Samples.world2).
Proof.
  refine (proj1 (proj1 (proj2 (failed_calls_change_nothing
                                 Samples.clock (DefaultCheckHealth false)
                                 Samples.registry2 Samples.world2 eq_refl))
                       "svc-9" _)).
  vm_compute. reflexivity.
Defined.

Section Clock.

Variable clock : nat -> Z.

(** X23.  Registering a valid service under an unused ID and deregistering
    it again is a round trip on the service map: in between, [GetService]
    returns the stored entry, which is the caller's value with the default
    status filled in when it had none and stamped with the time of
    registration; afterwards the map is exactly what it was, [GetService]
    reports [ErrServiceNotFound], and one [removed] event carrying the
    stored entry has been sent out. *)
Theorem register_then_deregister_round_trip (d : DiscoveryService) (info : ServiceInfo)
        (w : World) :
  initialized d = true →
  valid info →
  services d !! ID info = None →
  ∃ d1 w1 d2 w2 stored,
    RegisterService clock d info w = (None, d1, w1)
    ∧ GetService d1 (ID info) = (Some stored, None)
    ∧ stored = set_LastUpdated
                 (set_Status info (if (Status info =? "")%string
                                   then DefaultServiceStatus (config d)
                                   else Status info))
                 (millis (clock (ticks w)))
    ∧ DeregisterService clock d1 (ID info) w1 = (None, d2, w2)
    ∧ services d2 = services d
    ∧ eventListeners d2 = eventListeners d
    ∧ GetService d2 (ID info) = (None, Some ErrServiceNotFound)
    ∧ emitted_once d2 (mkEvent ServiceChangeTypeRemoved stored (millis (clock (ticks w1))))
                   w1 w2.
Proof.
  intros Hinit Hvalid Hnew.
  eexists _, _, _, _, (fresh_entry d info (millis (clock (ticks w)))).
  rewrite (RegisterService_fresh clock d info w Hinit Hvalid Hnew).
  split; [reflexivity|].
  split.
  { unfold GetService. cbn. rewrite Hinit, lookup_insert_eq. reflexivity. }
  split.
  { unfold fresh_entry. destruct (Status info =? "")%string; [reflexivity|].
    now destruct info. }
  unfold DeregisterService. cbn [initialized incConnectionsTotal set_services services].
  rewrite Hinit, lookup_insert_eq. cbn [negb].
  split; [reflexivity|].
  split_and!.
  - cbn. rewrite delete_insert_eq. now apply delete_id.
  - reflexivity.
  - unfold GetService. cbn. rewrite Hinit, delete_insert_eq, lookup_delete_eq. reflexivity.
  - intros c. unfold Now. cbn [fst snd].
    match goal with
    | |- queued (notifyListeners ?d2 ?ev ?w2) c = _ =>
        rewrite (notifyListeners_emitted d2 ev w2 c)
    end.
    reflexivity.
Qed.

End Clock.

Lemma register_then_deregister_round_trip_witness :
  ∃ d1 w1 d2 w2,
    RegisterService Samples.clock Samples.registry Samples.echo Samples.world
    = (None, d1, w1)
    ∧ DeregisterService Samples.clock d1 "svc-1" w1 = (None, d2, w2)
    ∧ services d2 = services Samples.registry.
Proof.
  destruct (register_then_deregister_round_trip
              Samples.clock Samples.registry Samples.echo Samples.world
              eq_refl valid_echo (lookup_empty _))
    as (d1 & w1 & d2 & w2 & stored & H1 & _ & _ & H2 & H3 & _).
  exists d1, w1, d2, w2. split_and!; [exact H1 | exact H2 | exact H3].
Defined.

(** *** Invariants *)

Lemma keyed_insert (d : DiscoveryService) (info : ServiceInfo) :
  keyed d → keyed (set_services d (<[ID info := info]> (services d))).
Proof.
  intros Hk id info' H. cbn in H.
  destruct (decide (ID info = id)) as [<-|Hne].
  - rewrite lookup_insert_eq in H. congruence.
  - rewrite lookup_insert_ne in H by exact Hne. now apply Hk.
Qed.

Lemma keyed_ext (d d' : DiscoveryService) :
  services d' = services d → keyed d → keyed d'.
Proof. intros Heq Hk id info H. rewrite Heq in H. now apply Hk. Qed.

Section Invariants.

Variable clock : nat -> Z.
Variable healthChecker : HealthChecker.

Lemma RegisterService_keyed (d : DiscoveryService) (info : ServiceInfo) (w : World) :
  keyed d → keyed (RegisterService clock d info w).1.2.
Proof.
  intros Hk. unfold RegisterService.
  destruct (initialized d); [|exact Hk]. cbn [negb].
  destruct ((ID info =? "")%string || (Name info =? "")%string
            || (Address info =? "")%string || (Port info =? 0)); [exact Hk|].
  destruct (services d !! ID info) as [old|].
  - cbn. apply (keyed_ext (set_services d (<[ID info := info]> (services d))));
      [reflexivity | now apply keyed_insert].
  - unfold Now. cbn [fst snd].
    set (info2 := set_LastUpdated _ _).
    apply (keyed_ext (set_services d (<[ID info2 := info2]> (services d))));
      [reflexivity | now apply keyed_insert].
Qed.

Lemma DeregisterService_keyed (d : DiscoveryService) (id : string) (w : World) :
  keyed d → keyed (DeregisterService clock d id w).1.2.
Proof.
  intros Hk. unfold DeregisterService.
  destruct (initialized d); [|exact Hk]. cbn [negb].
  destruct (services d !! id) as [info|]; [|exact Hk].
  cbn. intros id' info' H. cbn in H.
  apply lookup_delete_Some in H as [_ H]. now apply Hk.
Qed.

Lemma updateServiceStatus_keyed (d : DiscoveryService) (id status : string) (w : World) :
  keyed d → keyed (updateServiceStatus clock d id status w).1.
Proof.
  intros Hk. unfold updateServiceStatus.
  destruct (services d !! id) as [info|] eqn:Hinfo; [|exact Hk].
  unfold Now. cbn [fst snd].
  set (info' := set_LastUpdated (set_Status info status) _).
  assert (Hid : ID info' = id) by (cbn; now apply Hk).
  assert (Hins : keyed (set_services d (<[id := info']> (services d)))).
  { rewrite <- Hid at 1. now apply keyed_insert. }
  destruct (negb (Status info =? status)%string); cbn [fst];
    [apply (keyed_ext _ _ eq_refl Hins) | exact Hins].
Qed.

Lemma CheckServiceHealth_keyed (d : DiscoveryService) (id : string) (w : World) :
  keyed d → keyed (CheckServiceHealth clock healthChecker d id w).1.2.
Proof.
  intros Hk. unfold CheckServiceHealth.
  destruct (initialized d); [|exact Hk]. cbn [negb].
  destruct (EnableHealthChecks (config d)); [|exact Hk]. cbn [negb].
  destruct (services d !! id) as [info|]; [|exact Hk].
  destruct (healthChecker info) as [healthy [err|]]; [exact Hk|].
  destruct (healthy && negb (Status info =? ServiceStatusRunning)%string).
  - pose proof (updateServiceStatus_keyed d id ServiceStatusRunning w Hk) as H.
    destruct (updateServiceStatus clock d id ServiceStatusRunning w). exact H.
  - destruct (negb healthy && (Status info =? ServiceStatusRunning)%string); [|exact Hk].
    pose proof (updateServiceStatus_keyed d id ServiceStatusFailed w Hk) as H.
    destruct (updateServiceStatus clock d id ServiceStatusFailed w). exact H.
Qed.

(** X24.  The service map stays keyed by service ID: if every entry sits
    under its own [ID], this is still so after a registration (new or
    repeated, accepted or refused), a deregistration, a health check of any
    service with any checker, and a whole pass of the health-check loop. *)
Theorem operations_keep_the_map_keyed (d : DiscoveryService) (w : World) :
  keyed d →
  (∀ info, keyed (RegisterService clock d info w).1.2)
  ∧ (∀ id, keyed (DeregisterService clock d id w).1.2)
  ∧ (∀ id, keyed (CheckServiceHealth clock healthChecker d id w).1.2)
  ∧ keyed (runHealthChecks clock healthChecker d w).1.
Proof.
  intros Hk. split_and!.
  - intros info. now apply RegisterService_keyed.
  - intros id. now apply DeregisterService_keyed.
  - intros id. now apply CheckServiceHealth_keyed.
  - unfold runHealthChecks.
    generalize ((map_to_list (services d)).*1). intros ids.
    revert d w Hk. induction ids as [|id ids IH]; intros d w Hk; cbn [foldl]; [exact Hk|].
    pose proof (CheckServiceHealth_keyed d id w Hk) as H.
    destruct (CheckServiceHealth clock healthChecker d id w) as [[r d1] w1].
    now apply IH.
Qed.

End Invariants.

Lemma keyed_empty (cfg : option DiscoveryConfig) (m : option BridgeMetrics) :
  keyed (NewDiscoveryService cfg m).
Proof. intros id info H. cbn in H. now rewrite lookup_empty in H. Qed.

Lemma operations_keep_the_map_keyed_witness :
  keyed (RegisterService Samples.clock Samples.registry Samples.echo Samples.world).1.2.
Proof.
  refine (proj1 (operations_keep_the_map_keyed
                   Samples.clock (DefaultCheckHealth false)
                   Samples.registry Samples.world _) Samples.echo).
  intros id info H. cbn in H. now rewrite lookup_empty in H.
Defined.

(** *** Channels are only ever appended to *)

Lemma grown_refl (w : World) : grown w w.
Proof.
  split; [|tauto]. intros c. destruct (chans w !! c) as [ch|]; [|exact I].
  split; [reflexivity|]. exists []. now rewrite app_nil_r.
Qed.

Lemma grown_trans (w1 w2 w3 : World) : grown w1 w2 → grown w2 w3 → grown w1 w3.
Proof.
  intros [H12 C12] [H23 C23]. split; [|tauto].
  intros c. specialize (H12 c). specialize (H23 c).
  destruct (chans w1 !! c) as [ch1|], (chans w2 !! c) as [ch2|],
           (chans w3 !! c) as [ch3|]; try tauto.
  destruct H12 as [Hc12 [m12 Hb12]], H23 as [Hc23 [m23 Hb23]].
  split; [congruence|]. exists (m12 ++ m23). rewrite Hb23, Hb12. now rewrite app_assoc.
Qed.

Lemma grown_same_chans (w w' : World) : chans w' = chans w → grown w w'.
Proof.
  intros Heq. split.
  - intros c. rewrite Heq. destruct (chans w !! c) as [ch|]; [|exact I].
    split; [reflexivity|]. exists []. now rewrite app_nil_r.
  - intros Hc c ch H. rewrite Heq in H. exact (Hc c ch H).
Qed.

Lemma trySend_grown (c : nat) (ev : ServiceChangeEvent) (w : World) :
  grown w (trySend c ev w).2.
Proof.
  unfold trySend. destruct (chans w !! c) as [ch|] eqn:Hc; [|apply grown_refl].
  destruct (Nat.ltb_spec (length (chan_buf ch)) (chan_cap ch)) as [Hroom|_];
    [|apply grown_refl].
  cbn [snd]. split.
  - intros c0. cbn [chans]. destruct (decide (c = c0)) as [<-|Hne].
    + rewrite lookup_insert_eq, Hc. split; [reflexivity|]. now exists [ev].
    + rewrite lookup_insert_ne by exact Hne.
      destruct (chans w !! c0) as [ch0|]; [|exact I].
      split; [reflexivity|]. exists []. now rewrite app_nil_r.
  - intros Hcap c0 ch0. cbn [chans]. destruct (decide (c = c0)) as [<-|Hne].
    + rewrite lookup_insert_eq. intros [= <-]. cbn. rewrite length_app. cbn. lia.
    + rewrite lookup_insert_ne by exact Hne. exact (Hcap c0 ch0).
Qed.

Lemma notifyListeners_grown (d : DiscoveryService) (ev : ServiceChangeEvent) (w : World) :
  grown w (notifyListeners d ev w).
Proof.
  unfold notifyListeners. generalize (map_to_list (eventListeners d)). intros l.
  revert w. induction l as [|[id c] l IH]; intros w; cbn [foldl]; [apply grown_refl|].
  eapply grown_trans; [apply (trySend_grown c ev w) | apply IH].
Qed.

Section Channels.

Variable clock : nat -> Z.
Variable healthChecker : HealthChecker.

Lemma replay_grown (F : ServiceFilter) (c : nat) (entries : list (string * ServiceInfo)) :
  ∀ w, grown w (replay clock F c w entries).
Proof.
  unfold replay. induction entries as [|[id info] entries IH]; intros w; cbn [foldl];
    [apply grown_refl|].
  eapply grown_trans; [|apply IH].
  destruct (Matches F info); [|apply grown_refl].
  unfold Now. eapply grown_trans; [|apply trySend_grown].
  now apply grown_same_chans.
Qed.

Lemma updateServiceStatus_grown (d : DiscoveryService) (id status : string) (w : World) :
  grown w (updateServiceStatus clock d id status w).2.
Proof.
  unfold updateServiceStatus.
  destruct (services d !! id) as [info|]; [|apply grown_refl].
  unfold Now. cbn [fst snd].
  destruct (negb (Status info =? status)%string); cbn [snd].
  - eapply grown_trans; [|apply notifyListeners_grown]. now apply grown_same_chans.
  - now apply grown_same_chans.
Qed.

Lemma CheckServiceHealth_grown (d : DiscoveryService) (id : string) (w : World) :
  grown w (CheckServiceHealth clock healthChecker d id w).2.
Proof.
  unfold CheckServiceHealth.
  destruct (initialized d); [|apply grown_refl]. cbn [negb].
  destruct (EnableHealthChecks (config d)); [|apply grown_refl]. cbn [negb].
  destruct (services d !! id) as [info|]; [|apply grown_refl].
  destruct (healthChecker info) as [healthy [err|]]; [apply grown_refl|].
  destruct (healthy && negb (Status info =? ServiceStatusRunning)%string).
  - pose proof (updateServiceStatus_grown d id ServiceStatusRunning w) as H.
    destruct (updateServiceStatus clock d id ServiceStatusRunning w). exact H.
  - destruct (negb healthy && (Status info =? ServiceStatusRunning)%string);
      [|apply grown_refl].
    pose proof (updateServiceStatus_grown d id ServiceStatusFailed w) as H.
    destruct (updateServiceStatus clock d id ServiceStatusFailed w). exact H.
Qed.

(** X25.  No registry operation ever takes an event out of a channel,
    reorders a queue, creates or removes a channel, or changes a capacity:
    across a registration, a deregistration, a [WatchServices] (replay
    included), a health check and a whole pass of the health-check loop,
    every channel keeps its capacity and its queue is the old queue with
    events appended; and if no queue exceeded its capacity before, none does
    afterwards. *)
Theorem operations_only_append_to_channels (d : DiscoveryService) (w : World) :
  (∀ info, grown w (RegisterService clock d info w).2)
  ∧ (∀ id, grown w (DeregisterService clock d id w).2)
  ∧ (∀ f eventChan, grown w (WatchServices clock d f eventChan w).2)
  ∧ (∀ id, grown w (CheckServiceHealth clock healthChecker d id w).2)
  ∧ grown w (runHealthChecks clock healthChecker d w).2.
Proof.
  split_and!.
  - intros info. unfold RegisterService.
    destruct (initialized d); [|apply grown_refl]. cbn [negb].
    destruct ((ID info =? "")%string || (Name info =? "")%string
              || (Address info =? "")%string || (Port info =? 0)); [apply grown_refl|].
    destruct (services d !! ID info) as [old|]; unfold Now; cbn [fst snd].
    + eapply grown_trans; [|apply notifyListeners_grown]. now apply grown_same_chans.
    + eapply grown_trans; [|apply notifyListeners_grown]. now apply grown_same_chans.
  - intros id. unfold DeregisterService.
    destruct (initialized d); [|apply grown_refl]. cbn [negb].
    destruct (services d !! id) as [info|]; [|apply grown_refl].
    unfold Now. cbn [fst snd].
    eapply grown_trans; [|apply notifyListeners_grown]. now apply grown_same_chans.
  - intros f eventChan. unfold WatchServices.
    destruct (initialized d); [|apply grown_refl]. cbn [negb].
    destruct (EnableWatching (config d)); [|apply grown_refl]. cbn [negb].
    destruct eventChan as [c|]; [|apply grown_refl].
    unfold Now. cbn [fst snd].
    eapply grown_trans; [|apply replay_grown]. now apply grown_same_chans.
  - intros id. apply CheckServiceHealth_grown.
  - unfold runHealthChecks.
    generalize ((map_to_list (services d)).*1). intros ids.
    revert d w. induction ids as [|id ids IH]; intros d w; cbn [foldl];
      [apply grown_refl|].
    pose proof (CheckServiceHealth_grown d id w) as H.
    destruct (CheckServiceHealth clock healthChecker d id w) as [[r d1] w1].
    cbn [snd] in H. eapply grown_trans; [exact H | apply IH].
Qed.

End Channels.

(** *** Listeners *)

Lemma bound_to_none (d : DiscoveryService) (c : nat) :
  (∀ lid, eventListeners d !! lid ≠ Some c) → bound_to d c = 0%nat.
Proof.
  intros Hnone. unfold bound_to.
  destruct (filter (fun kv : string * nat => kv.2 = c) (map_to_list (eventListeners d)))
    as [|[lid c'] rest] eqn:Hf; [reflexivity|].
  assert (Hin : (lid, c') ∈ filter (fun kv : string * nat => kv.2 = c)
                                   (map_to_list (eventListeners d)))
    by (rewrite Hf; apply list_elem_of_here).
  apply list_elem_of_filter in Hin as [Hc Hin]. cbn in Hc. subst c'.
  apply elem_of_map_to_list in Hin. now destruct (Hnone lid).
Qed.

(** A channel no listener is bound to receives nothing. *)
Lemma notifyListeners_skips_unbound (d : DiscoveryService) (ev : ServiceChangeEvent)
      (w : World) (c : nat) :
  (∀ lid, eventListeners d !! lid ≠ Some c) →
  queued (notifyListeners d ev w) c = queued w c.
Proof.
  intros Hnone. rewrite (notifyListeners_emitted d ev w c), (bound_to_none d c Hnone).
  rewrite Nat.min_0_r. cbn. apply app_nil_r.
Qed.

Lemma set_eventListeners_same (d : DiscoveryService) :
  set_eventListeners d (eventListeners d) = d.
Proof. now destruct d. Qed.

Section Listeners.

Variable clock : nat -> Z.

(** X26.  Watching and unwatching is a round trip: when the listener id
    [WatchServices] generates is not in use, the call adds exactly one
    listener, and [UnwatchServices] with the returned id gives back the
    registry as it was before; unwatching an id that is not registered fails
    with "listener not found"; and a channel to which no listener is bound
    (any longer) receives no event from [notifyListeners]. *)
Theorem watch_then_unwatch_round_trip (d : DiscoveryService) (F : ServiceFilter)
        (c : nat) (w : World) :
  initialized d = true →
  EnableWatching (config d) = true →
  eventListeners d !! ("listener-" +:+ pretty (clock (ticks w))) = None →
  ∃ lid d1 w1,
    WatchServices clock d F (Some c) w = ((lid, None), d1, w1)
    ∧ GetListenersCount d1 = S (GetListenersCount d)
    ∧ UnwatchServices d1 lid = (None, d)
    ∧ UnwatchServices d lid = (Some (ErrorsNew "listener not found"), d)
    ∧ ((∀ l, eventListeners d !! l ≠ Some c) →
       ∀ ev w2, queued (notifyListeners d ev w2) c = queued w2 c).
Proof.
  intros Hinit Hen Hfree. eexists _, _, _.
  rewrite (WatchServices_registers clock d F c w Hinit Hen).
  split; [reflexivity|]. split_and!.
  - unfold GetListenersCount. cbn. now apply map_size_insert_None.
  - unfold UnwatchServices. cbn. rewrite Hinit, lookup_insert_eq. cbn. f_equal.
    unfold set_eventListeners. cbn.
    rewrite delete_insert_eq, delete_id by exact Hfree. now destruct d.
  - unfold UnwatchServices. now rewrite Hinit, Hfree.
  - intros Hnone ev w2. now apply notifyListeners_skips_unbound.
Qed.

(** X27.  Listener ids are made from the clock reading alone, so two
    [WatchServices] calls that read the same nanosecond get the same id:
    the second call then replaces the first listener instead of adding one
    (the listener count does not grow), the id is bound to the second
    channel, and the first channel, unless another listener is bound to it,
    receives no further event. *)
Theorem watchers_of_one_instant_collide (d : DiscoveryService) (F1 F2 : ServiceFilter)
        (c1 c2 : nat) (w : World) :
  initialized d = true →
  EnableWatching (config d) = true →
  clock (ticks (WatchServices clock d F1 (Some c1) w).2) = clock (ticks w) →
  ∃ lid d1 w1 d2 w2,
    WatchServices clock d F1 (Some c1) w = ((lid, None), d1, w1)
    ∧ WatchServices clock d1 F2 (Some c2) w1 = ((lid, None), d2, w2)
    ∧ eventListeners d2 = <[lid := c2]> (eventListeners d)
    ∧ GetListenersCount d2 = GetListenersCount d1
    ∧ (c1 ≠ c2 →
       (∀ l, eventListeners d !! l ≠ Some c1) →
       ∀ ev w', queued (notifyListeners d2 ev w') c1 = queued w' c1).
Proof.
  intros Hinit Hen. rewrite (WatchServices_registers clock d F1 c1 w Hinit Hen).
  cbn [snd]. intros Hsame. eexists _, _, _, _, _.
  split; [reflexivity|].
  set (d1 := set_eventListeners d _).
  set (w1 := replay clock F1 c1 (tick w) (map_to_list (services d))) in *.
  rewrite (WatchServices_registers clock d1 F2 c2 w1 Hinit Hen).
  rewrite Hsame. split; [reflexivity|]. split_and!.
  - cbn. apply insert_insert_eq.
  - unfold GetListenersCount. cbn. rewrite insert_insert_eq.
    destruct (eventListeners d !! ("listener-" +:+ pretty (clock (ticks w)))) as [c0|] eqn:E.
    + rewrite !map_size_insert_Some by eauto. reflexivity.
    + rewrite !map_size_insert_None by exact E. reflexivity.
  - intros Hne Hnone ev w'. apply notifyListeners_skips_unbound.
    intros l. cbn. rewrite insert_insert_eq.
    destruct (decide ("listener-" +:+ pretty (clock (ticks w)) = l)) as [<-|Hl].
    + rewrite lookup_insert_eq. congruence.
    + rewrite lookup_insert_ne by exact Hl. apply Hnone.
Qed.

End Listeners.

Lemma watch_then_unwatch_round_trip_witness :
  ∃ lid d1 w1,
    WatchServices Samples.clock Samples.registry2 Samples.prod_only (Some 1%nat)
                  Samples.world2
    = ((lid, None), d1, w1)
    ∧ UnwatchServices d1 lid = (None, Samples.registry2).
Proof.
  assert (Hfree : eventListeners Samples.registry2
                  !! ("listener-" +:+ pretty (Samples.clock (ticks Samples.world2))) = None)
    by (vm_compute; reflexivity).
  destruct (watch_then_unwatch_round_trip Samples.clock Samples.registry2
              Samples.prod_only 1%nat Samples.world2 eq_refl eq_refl Hfree)
    as (lid & d1 & w1 & Hw & _ & Hu & _).
  exists lid, d1, w1. split; [exact Hw | exact Hu].
Defined.

(** Two watchers under a clock that stands still. *)
Lemma watchers_of_one_instant_collide_witness :
  ∃ lid d1 w1 d2 w2,
    WatchServices (fun _ => 1700000000000000000) Samples.registry Samples.prod_only
                  (Some 0%nat) Samples.world
    = ((lid, None), d1, w1)
    ∧ WatchServices (fun _ => 1700000000000000000) d1 Samples.prod_only (Some 1%nat) w1
      = ((lid, None), d2, w2)
    ∧ GetListenersCount d2 = GetListenersCount d1.
Proof.
  destruct (watchers_of_one_instant_collide (fun _ => 1700000000000000000)
              Samples.registry Samples.prod_only Samples.prod_only 0%nat 1%nat
              Samples.world eq_refl eq_refl eq_refl)
    as (lid & d1 & w1 & d2 & w2 & H1 & H2 & _ & H4 & _).
  exists lid, d1, w1, d2, w2. split_and!; [exact H1 | exact H2 | exact H4].
Defined.

(** *** The default health checker, [Stop], and the lookups by field *)

Section DefaultChecker.

Variable clock : nat -> Z.


End DefaultChecker.

Lemma Matches_single_type (s : string) (info : ServiceInfo) :
  Matches (mkFilter s "" "" "" ∅) info = true ↔ (s ≠ "" → Type_ info = s).
Proof.
  rewrite Matches_spec. unfold matches_spec. cbn.
  split.
  - intros (H & _) Hs. symmetry. now apply H.
  - intros H. split_and!; try congruence.
    + intros Hs. symmetry. now apply H.
    + intros k v Hk. now rewrite lookup_empty in Hk.
Qed.

Lemma Matches_single_name (s : string) (info : ServiceInfo) :
  Matches (mkFilter "" "" s "" ∅) info = true ↔ (s ≠ "" → Name info = s).
Proof.
  rewrite Matches_spec. unfold matches_spec. cbn.
  split.
  - intros (_ & _ & H & _) Hs. symmetry. now apply H.
  - intros H. split_and!; try congruence.
    + intros Hs. symmetry. now apply H.
    + intros k v Hk. now rewrite lookup_empty in Hk.
Qed.

Lemma registered_values (d : DiscoveryService) (info : ServiceInfo) :
  info ∈ (map_to_list (services d)).*2 ↔ ∃ id, services d !! id = Some info.
Proof.
  rewrite list_elem_of_fmap. split.
  - intros ([id info'] & -> & Hin). exists id. now apply elem_of_map_to_list.
  - intros [id Hid]. exists (id, info). split; [reflexivity|].
    now apply elem_of_map_to_list.
Qed.

(** X29.  [GetServicesByType] and [GetServicesByName] of an initialized
    registry succeed and return exactly the registered services whose type
    (name) is the one asked for; asked for the empty string they do not
    look for services with an empty type (name) but return every registered
    service, one result per entry of the map. *)
Theorem lookups_by_type_and_name (d : DiscoveryService) (s : string) :
  initialized d = true →
  (∃ byType byName,
      GetServicesByType d s = (byType, None)
      ∧ GetServicesByName d s = (byName, None)
      ∧ (∀ info, info ∈ byType
                 ↔ (∃ id, services d !! id = Some info) ∧ (s ≠ "" → Type_ info = s))
      ∧ (∀ info, info ∈ byName
                 ↔ (∃ id, services d !! id = Some info) ∧ (s ≠ "" → Name info = s)))
  ∧ GetServicesByType d "" = ((map_to_list (services d)).*2, None)
  ∧ GetServicesByName d "" = ((map_to_list (services d)).*2, None)
  ∧ length (GetServicesByName d "").1 = GetServicesCount d.
Proof.
  intros Hinit.
  assert (Hall : ∀ (P : ServiceInfo → Prop) `{∀ x, Decision (P x)} (l : list ServiceInfo),
             (∀ x, P x) → filter P l = l).
  { intros P HP l HPl. induction l as [|x l IH]; [reflexivity|].
    rewrite filter_cons_True by apply HPl. now rewrite IH. }
  unfold GetServicesByType, GetServicesByName.
  rewrite !(FindServices_results d _ Hinit).
  split_and!.
  - eexists _, _. split; [reflexivity|]. split; [reflexivity|]. split.
    + intros info. rewrite list_elem_of_filter, Matches_single_type, registered_values. tauto.
    + intros info. rewrite list_elem_of_filter, Matches_single_name, registered_values. tauto.
  - f_equal. apply Hall. intros x. apply Matches_single_type. congruence.
  - f_equal. apply Hall. intros x. apply Matches_single_name. congruence.
  - cbn [fst]. rewrite Hall by (intros x; apply Matches_single_name; congruence).
    rewrite length_fmap. unfold GetServicesCount. apply length_map_to_list.
Qed.

Lemma lookups_by_type_and_name_witness :
  length (GetServicesByType Samples.registry2 "grpc").1 = 1%nat
  ∧ length (GetServicesByName Samples.registry2 "").1 = 2%nat.
Proof.
  destruct (lookups_by_type_and_name Samples.registry2 "" eq_refl) as (_ & _ & _ & Hn).
  split; [vm_compute; reflexivity|].
  rewrite Hn. vm_compute. reflexivity.
Defined.

(** X30.  [Stop] forgets the listeners but not the services, and works
    once: on an initialized registry whose stop channel is still open it
    returns normally, leaves the registry uninitialized with an empty
    listener map and closes the stop channel, keeping the services, the
    configuration and the metrics; a further [Stop] on the stopped registry
    returns at once and changes nothing.  Initialized again, the registry
    answers [GetService] and [FindServices] as before the stop, every former
    listener id is unknown to [UnwatchServices] and no channel receives an
    event; but a [Stop] of the registry initialized again panics on the
    closed stop channel and leaves it initialized. *)
Theorem Stop_keeps_services_drops_listeners (d : DiscoveryService) :
  initialized d = true →
  stopChanClosed d = false →
  ∃ d',
    Stop d = (Ok tt, d')
    ∧ d' = mkDiscovery (config d) (services d) ∅ (metrics d) false true
    ∧ GetListenersCount d' = 0%nat
    ∧ Stop d' = (Ok tt, d')
    ∧ (∀ id, GetService (Initialize d') id = GetService d id)
    ∧ (∀ f, FindServices (Initialize d') f = FindServices d f)
    ∧ (∀ lid, UnwatchServices (Initialize d') lid
              = (Some (ErrorsNew "listener not found"), Initialize d'))
    ∧ (∀ ev w, notifyListeners (Initialize d') ev w = w)
    ∧ Stop (Initialize d') = (Panic "close of closed channel", Initialize d')
    ∧ initialized (Stop (Initialize d')).2 = true.
Proof.
  intros Hinit Hopen. unfold Stop at 1. rewrite Hinit, Hopen. cbn [negb].
  eexists. split; [reflexivity|]. split_and!.
  - reflexivity.
  - unfold GetListenersCount. cbn. apply map_size_empty.
  - reflexivity.
  - intros id. unfold GetService. cbn. now rewrite Hinit.
  - intros f. unfold FindServices. cbn. now rewrite Hinit.
  - intros lid. unfold UnwatchServices. cbn. now rewrite lookup_empty.
  - intros ev w. unfold notifyListeners. cbn. now rewrite map_to_list_empty.
  - reflexivity.
  - reflexivity.
Qed.

Lemma Stop_keeps_services_drops_listeners_witness :
  GetListenersCount Samples.registry2 = 1%nat
  ∧ ∃ d',
      Stop Samples.registry2 = (Ok tt, d')
      ∧ GetListenersCount d' = 0%nat
      ∧ GetService (Initialize d') "svc-1" = GetService Samples.registry2 "svc-1"
      ∧ (Stop (Initialize d')).1 = Panic "close of closed channel".
Proof.
  destruct (Stop_keeps_services_drops_listeners Samples.registry2 eq_refl eq_refl)
    as (d' & Hs & _ & Hl & _ & Hg & _ & _ & _ & Hp & _).
  split; [vm_compute; reflexivity|].
  exists d'. split_and!; [exact Hs | exact Hl | exact (Hg "svc-1") | now rewrite Hp].
Defined.

End DiscoveryMore.
